(** * Reading-notes pipeline: parsers, markdown formatter and notes manager

    A shallow embedding of the note-handling core of the application:

    - [shared/types/notes]            the record model ([BookNote], [ParsedBookData]);
    - [main/parsers/DuokanParser]     and [main/parsers/WeChatParser];
    - [main/formatters/MarkdownFormatter] ([DefaultMarkdownFormatter]);
    - [main/services/NotesManager]    the two-index in-memory store.

    Strings are sequences of UTF-16 code units, as in the host language, so
    that [length], [includes], [trim] and the regular expressions count and
    compare what the program counts and compares.  A [Map] is an association
    list in insertion order.  Exceptions are values of an error monad.

    Left out: the events the manager emits, reading and writing files and
    building paths ([importNotes], [exportNotes], [exportAllNotes],
    [saveToStorage], [loadFromStorage]), the [rawData] field of a bundle and
    [Buffer] inputs (a parser converts a buffer to a string before anything
    else). *)

From Stdlib Require Import String Ascii.
From Stdlib Require Import List Bool Arith NArith ZArith Lia.
From Stdlib Require Import DecimalNat Sorting.Permutation Sorting.Sorted.
Import ListNotations.

Set Implicit Arguments.
Set Warnings "-register-all".

(* ===================================================================== *)
(** ** Strings of UTF-16 code units *)
(* ===================================================================== *)

Module Js.

Definition jsstring := list N.

Definition unit_eqb (a b : N) : bool := N.eqb a b.

Fixpoint str_eqb (a b : jsstring) : bool :=
  match a, b with
  | [], [] => true
  | x :: a', y :: b' => N.eqb x y && str_eqb a' b'
  | _, _ => false
  end.

Definition str_eq_dec : forall a b : jsstring, {a = b} + {a <> b} :=
  list_eq_dec N.eq_dec.

(** *** Source literals

    The program text is UTF-8; a literal is decoded to code points and each
    code point to one or two UTF-16 code units. *)

Definition cont (b : N) : N := N.land b 63.

Definition to_units (cp : N) : jsstring :=
  if (cp <? 65536)%N then [cp]
  else let v := (cp - 65536)%N in
       [(55296 + N.shiftr v 10)%N; (56320 + N.land v 1023)%N].

Fixpoint decode_utf8 (bs : list N) : jsstring :=
  match bs with
  | [] => []
  | b0 :: r0 =>
    if (b0 <? 128)%N then b0 :: decode_utf8 r0
    else match r0 with
    | [] => [b0]
    | b1 :: r1 =>
      if (b0 <? 224)%N then
        (N.shiftl (N.land b0 31) 6 + cont b1)%N :: decode_utf8 r1
      else match r1 with
      | [] => [b0; b1]
      | b2 :: r2 =>
        if (b0 <? 240)%N then
          (N.shiftl (N.land b0 15) 12 + N.shiftl (cont b1) 6 + cont b2)%N
            :: decode_utf8 r2
        else match r2 with
        | [] => [b0; b1; b2]
        | b3 :: r3 =>
          to_units (N.shiftl (N.land b0 7) 18 + N.shiftl (cont b1) 12
                    + N.shiftl (cont b2) 6 + cont b3)%N ++ decode_utf8 r3
        end
      end
    end
  end.

Definition lit (s : string) : jsstring :=
  decode_utf8 (map N_of_ascii (list_ascii_of_string s)).

(** *** Code-unit classes *)

Definition LF : N := 10.
Definition COMMA : N := 44.
Definition DQUOTE : N := 34.

(** [LineTerminator]: the characters [.] does not match. *)
Definition is_line_terminator (c : N) : bool :=
  (c =? 10)%N || (c =? 13)%N || (c =? 8232)%N || (c =? 8233)%N.

(** [WhiteSpace] and [LineTerminator]: what [trim] strips and [\s] matches. *)
Definition is_space (c : N) : bool :=
  ((9 <=? c) && (c <=? 13))%N || (c =? 32)%N || (c =? 160)%N || (c =? 5760)%N
  || ((8192 <=? c) && (c <=? 8202))%N || (c =? 8232)%N || (c =? 8233)%N
  || (c =? 8239)%N || (c =? 8287)%N || (c =? 12288)%N || (c =? 65279)%N.

Definition is_digit (c : N) : bool := ((48 <=? c) && (c <=? 57))%N.

Definition is_dot (c : N) : bool := negb (is_line_terminator c).

(** *** [String.prototype] methods *)

Fixpoint startsWith (s p : jsstring) : bool :=
  match p, s with
  | [], _ => true
  | x :: p', y :: s' => N.eqb x y && startsWith s' p'
  | _ :: _, [] => false
  end.

Fixpoint includes (s sub : jsstring) : bool :=
  startsWith s sub ||
  match s with
  | [] => false
  | _ :: s' => includes s' sub
  end.

Fixpoint drop_spaces (s : jsstring) : jsstring :=
  match s with
  | c :: s' => if is_space c then drop_spaces s' else s
  | [] => []
  end.

Definition trim (s : jsstring) : jsstring :=
  rev (drop_spaces (rev (drop_spaces s))).

(** [s.split(sep)] for a one-unit separator: always at least one piece. *)
Fixpoint split (sep : N) (s : jsstring) : list jsstring :=
  match s with
  | [] => [[]]
  | c :: s' =>
    if N.eqb c sep then [] :: split sep s'
    else match split sep s' with
         | piece :: pieces => (c :: piece) :: pieces
         | [] => [[c]]
         end
  end.

(** [s.replace(pat, rep)] with a string pattern: the first occurrence only. *)
Fixpoint replace (s pat rep : jsstring) : jsstring :=
  if startsWith s pat then rep ++ skipn (length pat) s
  else match s with
       | [] => []
       | c :: s' => c :: replace s' pat rep
       end.

(** A string is truthy when it is not empty. *)
Definition truthy_str (s : jsstring) : bool :=
  match s with [] => false | _ :: _ => true end.

(** Decimal rendering of a non-negative integer, as a template literal
    renders a counter or an index. *)
Fixpoint digits (u : Decimal.uint) : jsstring :=
  match u with
  | Decimal.Nil => []
  | Decimal.D0 u => 48%N :: digits u
  | Decimal.D1 u => 49%N :: digits u
  | Decimal.D2 u => 50%N :: digits u
  | Decimal.D3 u => 51%N :: digits u
  | Decimal.D4 u => 52%N :: digits u
  | Decimal.D5 u => 53%N :: digits u
  | Decimal.D6 u => 54%N :: digits u
  | Decimal.D7 u => 55%N :: digits u
  | Decimal.D8 u => 56%N :: digits u
  | Decimal.D9 u => 57%N :: digits u
  end.

Definition dec (n : nat) : jsstring := digits (Nat.to_uint n).

Definition dec_Z (z : Z) : jsstring :=
  match z with
  | Z0 => [48%N]
  | Zpos p => dec (Pos.to_nat p)
  | Zneg p => 45%N :: dec (Pos.to_nat p)
  end.

(** [array.findIndex(p)]; [None] stands for [-1]. *)
Fixpoint findIndex {A} (p : A -> bool) (l : list A) : option nat :=
  match l with
  | [] => None
  | x :: rest => if p x then Some 0 else option_map S (findIndex p rest)
  end.

(** [array[i] = x] for an index within the array. *)
Fixpoint assign {A} (l : list A) (i : nat) (x : A) : list A :=
  match l, i with
  | [], _ => []
  | _ :: rest, 0 => x :: rest
  | y :: rest, S i' => y :: assign rest i' x
  end.

(** ASCII lower-casing of one unit. *)
Definition lower_unit (c : N) : N :=
  if ((65 <=? c) && (c <=? 90))%N then (c + 32)%N else c.

Definition is_ascii (c : N) : bool := (c <? 128)%N.

End Js.

Import Js.

(* ===================================================================== *)
(** ** Regular expressions

    The patterns of the program use literals, character classes, sequence,
    alternation, one capture group, the anchors, and quantifiers applied to a
    single character class.  [run] is a backtracking matcher in
    continuation-passing style with the priorities of the host engine:
    greedy quantifiers try the longest repetition first, lazy ones the
    shortest, an alternative is tried left to right. *)
(* ===================================================================== *)

Module Regex.

Inductive re : Type :=
| Lit (l : jsstring)
| Cls (p : N -> bool)
| Seq (a b : re)
| Alt (a b : re)
| Star (p : N -> bool)
| StarLazy (p : N -> bool)
| Rep (lo hi : nat) (p : N -> bool)
| Group (a : re)
| Bol
| Eol.

(** Remaining input, index of its first unit, captures closed so far. *)
Definition Cont (T : Type) : Type := jsstring -> nat -> list jsstring -> option T.

Definition orelse {T} (a b : option T) : option T :=
  match a with Some r => Some r | None => b end.

Fixpoint star {T} (p : N -> bool) (k : Cont T) (s : jsstring) (pos : nat)
  (caps : list jsstring) : option T :=
  match s with
  | c :: s' =>
    if p c then orelse (star p k s' (S pos) caps) (k s pos caps)
    else k s pos caps
  | [] => k s pos caps
  end.

Fixpoint star_lazy {T} (p : N -> bool) (k : Cont T) (s : jsstring) (pos : nat)
  (caps : list jsstring) : option T :=
  orelse (k s pos caps)
    match s with
    | c :: s' => if p c then star_lazy p k s' (S pos) caps else None
    | [] => None
    end.

Fixpoint rep {T} (lo hi : nat) (p : N -> bool) (k : Cont T) (s : jsstring)
  (pos : nat) (caps : list jsstring) : option T :=
  let stop := match lo with 0 => k s pos caps | S _ => None end in
  match hi with
  | 0 => stop
  | S hi' =>
    match s with
    | c :: s' =>
      if p c then orelse (rep (pred lo) hi' p k s' (S pos) caps) stop
      else stop
    | [] => stop
    end
  end.

Fixpoint run {T} (r : re) (k : Cont T) (s : jsstring) (pos : nat)
  (caps : list jsstring) : option T :=
  match r with
  | Lit l =>
    if startsWith s l then k (skipn (length l) s) (pos + length l) caps
    else None
  | Cls p =>
    match s with
    | c :: s' => if p c then k s' (S pos) caps else None
    | [] => None
    end
  | Seq a b => run a (run b k) s pos caps
  | Alt a b => orelse (run a k s pos caps) (run b k s pos caps)
  | Star p => star p k s pos caps
  | StarLazy p => star_lazy p k s pos caps
  | Rep lo hi p => rep lo hi p k s pos caps
  | Group a =>
    run a (fun s' pos' caps' => k s' pos' (caps' ++ [firstn (pos' - pos) s]))
      s pos caps
  | Bol => match pos with 0 => k s pos caps | S _ => None end
  | Eol => match s with [] => k s pos caps | _ :: _ => None end
  end.

(** A match: where it starts, the matched text, the captured groups. *)
Record Match : Type := { index : nat; text : jsstring; groups : list jsstring }.

Definition at_pos (r : re) (s : jsstring) (pos : nat) : option Match :=
  run r (fun _ pos' caps =>
           Some {| index := pos; text := firstn (pos' - pos) s; groups := caps |})
      s pos [].

(** The leftmost match at or after [pos]; [s] is the input from [pos] on. *)
Fixpoint search (r : re) (s : jsstring) (pos : nat) : option Match :=
  orelse (at_pos r s pos)
    match s with
    | [] => None
    | _ :: s' => search r s' (S pos)
    end.

(** [str.match(re)] without the [g] flag, and [re.test(str)]. *)
Definition exec (r : re) (s : jsstring) : option Match := search r s 0.

Definition test (r : re) (s : jsstring) : bool :=
  match exec r s with Some _ => true | None => false end.

(** The first capture group of a match, [m[1]]. *)
Definition group1 (m : Match) : jsstring := nth 0 (groups m) [].

(** All matches of a [g] pattern, left to right, each search resuming where
    the previous match ended (one unit further after an empty match), until
    that place lies beyond the end of the input. *)
Fixpoint scan (fuel : nat) (r : re) (s : jsstring) (pos : nat) : list Match :=
  match fuel with
  | 0 => []
  | S fuel' =>
    match search r s pos with
    | None => []
    | Some m =>
      let step := (index m - pos) + Nat.max 1 (length (text m)) in
      m :: (if length s <? step then []
            else scan fuel' r (skipn step s) (pos + step))
    end
  end.

Definition exec_all (r : re) (s : jsstring) : list Match :=
  scan (S (length s)) r s 0.

(** [str.replace(re, '')] with the [g] flag: every match is deleted. *)
Fixpoint delete_spans (ms : list Match) (s : jsstring) (pos : nat) : jsstring :=
  match ms with
  | [] => s
  | m :: ms' =>
    firstn (index m - pos) s
    ++ delete_spans ms' (skipn (index m - pos + length (text m)) s)
         (index m + length (text m))
  end.

Definition delete_all (r : re) (s : jsstring) : jsstring :=
  delete_spans (exec_all r s) s 0.

Definition dot : re := Cls is_dot.
Definition any_unit : N -> bool := fun _ => true.
Definition one_of (l : jsstring) : N -> bool :=
  fun c => existsb (N.eqb c) l.
Definition none_of (l : jsstring) : N -> bool :=
  fun c => negb (existsb (N.eqb c) l).
(** [c+] *)
Definition plus (p : N -> bool) : re := Seq (Cls p) (Star p).

End Regex.

(* ===================================================================== *)
(** ** Dynamic values, exceptions and the runtime *)
(* ===================================================================== *)

Module Dyn.

(** A number read from JSON denotes [mant * 10 ^ exp10]. *)
Record JsNumber : Type := { mant : Z; exp10 : Z }.

Definition num_of_nat (n : nat) : JsNumber := {| mant := Z.of_nat n; exp10 := 0 |}.
Definition num_of_Z (z : Z) : JsNumber := {| mant := z; exp10 := 0 |}.

(** The double nearest to the denoted value is [0] when the mantissa is, or
    when the magnitude does not exceed [2 ^ -1075]. *)
Definition num_is_zero (n : JsNumber) : bool :=
  (mant n =? 0)%Z ||
  ((exp10 n <? 0)%Z && (Z.abs (mant n) * 2 ^ 1075 <=? 10 ^ (- exp10 n))%Z).

Inductive JsVal : Type :=
| VUndefined
| VNull
| VBool (b : bool)
| VNum (n : JsNumber)
| VNaN
| VStr (s : jsstring)
| VArr (elems : list JsVal)
| VObj (fields : list (jsstring * JsVal))
| VInherited (key : jsstring).

(** [VInherited key] stands for the member an object literal inherits from
    [Object.prototype] under [key] (a function, or the prototype itself). *)

Definition truthy (v : JsVal) : bool :=
  match v with
  | VUndefined | VNull | VNaN => false
  | VBool b => b
  | VNum n => negb (num_is_zero n)
  | VStr s => truthy_str s
  | VArr _ | VObj _ | VInherited _ => true
  end.

Inductive JsError : Type := TypeError | SyntaxError.

Inductive Result (A : Type) : Type :=
| Ok (a : A)
| Throw (e : JsError).

Arguments Ok {A} a.
Arguments Throw {A} e.

Definition bind {A B} (m : Result A) (f : A -> Result B) : Result B :=
  match m with
  | Ok a => f a
  | Throw e => Throw e
  end.

(** An own property of an object built by [JSON.parse]; on a repeated name
    the last member wins. *)
Fixpoint own (key : jsstring) (fields : list (jsstring * JsVal)) : JsVal :=
  match fields with
  | [] => VUndefined
  | (k, v) :: rest =>
    match own key rest with
    | VUndefined => if str_eqb k key then v else VUndefined
    | found => found
    end
  end.

(** [v.key] for the property names this program reads ([notes], [content],
    [type], ...): none of them is found on a primitive's or an array's
    prototype; reading a property of [null] or [undefined] throws. *)
Definition prop (v : JsVal) (key : jsstring) : Result JsVal :=
  match v with
  | VUndefined | VNull => Throw TypeError
  | VObj fields => Ok (own key fields)
  | _ => Ok VUndefined
  end.

Definition nullish (v : JsVal) : bool :=
  match v with VUndefined | VNull => true | _ => false end.

Definition isArray (v : JsVal) : bool :=
  match v with VArr _ => true | _ => false end.

(** The names every object literal inherits from [Object.prototype]. *)
Definition object_prototype_keys : list jsstring :=
  map lit ["constructor"; "__defineGetter__"; "__defineSetter__";
           "hasOwnProperty"; "__lookupGetter__"; "__lookupSetter__";
           "isPrototypeOf"; "propertyIsEnumerable"; "toString"; "valueOf";
           "__proto__"; "toLocaleString"]%string.

(** [Date]: a time value in milliseconds, or an invalid date. *)
Inductive Date : Type :=
| TimeValue (ms : Z)
| InvalidDate.

(** Where the clock is read during one call of a parser or a formatter. *)
Inductive ClockSite : Type :=
| AtId (index : nat)
| AtCreated (index : nat)
| AtSync
| AtExport.

(** Whether an object read from JSON has a member [key] of its own. *)
Definition has_own (key : jsstring) (fields : list (jsstring * JsVal)) : bool :=
  existsb (fun kv => str_eqb (fst kv) key) fields.

(** Whether [ToPrimitive] of a value returns.  A value read from JSON holds
    no function.  An object's own member [toString] therefore hides the
    inherited method without being callable, and the inherited [valueOf]
    returns the object itself: with either hint no method gives a primitive
    and the conversion throws a [TypeError].  Without such a member the
    inherited [toString] answers.  The [toString] of an array joins the
    strings of its elements, so it throws when the conversion of an element
    does. *)
Fixpoint ToPrimitive_returns (v : JsVal) : bool :=
  match v with
  | VObj fields => negb (has_own (lit "toString") fields)
  | VArr elems => forallb ToPrimitive_returns elems
  | _ => true
  end.

(** What the host provides and the program only calls. *)
Class Runtime : Type := {
  (** [JSON.parse]; [None] when it throws a [SyntaxError]. *)
  JSON_parse : jsstring -> option JsVal;
  (** [ToString] of a value that is not a string and whose conversion to a
      primitive returns. *)
  ToString : JsVal -> jsstring;
  (** The date [new Date(value)] builds from a value whose conversion to a
      primitive returns. *)
  Date_of : JsVal -> Date;
  (** [Date.now()], and the time value of [new Date()]. *)
  Date_now : ClockSite -> Z;
  (** [parseInt(string)]: an integer, or [NaN]. *)
  parseInt : jsstring -> option Z;
  (** [toLowerCase] of a string with a unit outside ASCII. *)
  toLowerCase_wide : jsstring -> jsstring;
  (** [date.toLocaleString()]. *)
  toLocaleString : Date -> jsstring;
}.

(** [s.toLowerCase()]: on a string of ASCII units it lowers [A]-[Z]. *)
Definition toLowerCase {rt : Runtime} (s : jsstring) : jsstring :=
  if forallb is_ascii s then map lower_unit s else toLowerCase_wide s.

End Dyn.

Import Dyn.

Declare Scope result_scope.
Delimit Scope result_scope with result.
Notation "x <- m ;; k" := (bind m (fun x => k))
  (at level 61, m at next level, right associativity) : result_scope.
(** [a || b] on values: [b] is evaluated only when [a] is falsy. *)
Notation "a <||> b" := (bind a (fun x => if truthy x then Ok x else b))
  (at level 51, right associativity) : result_scope.

Open Scope result_scope.

(** [ToPropertyKey(value)], the key of [object[value]]: a string is its own
    key; another value is converted to a primitive first, which can throw. *)
Definition ToPropertyKey {rt : Runtime} (v : JsVal) : Result jsstring :=
  match v with
  | VStr s => Ok s
  | _ => if ToPrimitive_returns v then Ok (ToString v) else Throw TypeError
  end.

(** [new Date(value)]: the value is converted to a primitive first, which
    can throw. *)
Definition Date_new {rt : Runtime} (v : JsVal) : Result Date :=
  if ToPrimitive_returns v then Ok (Date_of v) else Throw TypeError.

(* ===================================================================== *)
(** ** What a parser returns

    The parsers fill the fields of a note from untyped data, so a parsed
    note holds dynamic values where the program assigns them unchecked. *)
(* ===================================================================== *)

Module Parsed.

Inductive Source : Type := duokan | wechat | manual | ocr.

Record BookNote : Type := {
  id : jsstring;
  bookTitle : JsVal;
  bookAuthor : JsVal;
  noteType : JsVal;
  content : JsVal;
  position : JsVal;
  location : JsVal;
  chapter : JsVal;
  createdAt : Date;
  color : JsVal;
  source : Source;
  tags : JsVal
}.

Record BookMetadata : Type := {
  title : JsVal;
  author : JsVal;
  totalNotes : nat;
  lastSyncDate : Date
}.

Record ParsedBookData : Type := {
  metadata : BookMetadata;
  notes : list BookNote
}.

Definition unknown_book : jsstring := lit "Unknown Book".

Definition str (s : string) : JsVal := VStr (lit s).

(** [m?.[1]] *)
Definition group1_opt (m : option Regex.Match) : JsVal :=
  match m with
  | Some m => VStr (Regex.group1 m)
  | None => VUndefined
  end.

(** [v || d] for values at hand. *)
Definition or_val (v d : JsVal) : JsVal := if truthy v then v else d.

(** [typeMap[type] || 'highlight'] for an object literal [typeMap]. *)
Definition map_type {rt : Runtime} (typeMap : list (jsstring * jsstring))
  (type : JsVal) : Result JsVal :=
  key <- ToPropertyKey type ;;
  let found :=
    match find (fun kv => str_eqb (fst kv) key) typeMap with
    | Some kv => VStr (snd kv)
    | None =>
      if existsb (str_eqb key) object_prototype_keys then VInherited key
      else VUndefined
    end in
  Ok (or_val found (str "highlight")).

(** [array.forEach((element, index) => ...)] collecting what the body
    pushes; a throwing body ends the loop. *)
Fixpoint each {A B} (f : nat -> A -> Result (list B)) (index : nat) (l : list A)
  : Result (list B) :=
  match l with
  | [] => Ok []
  | x :: rest =>
    pushed <- f index x ;;
    more <- each f (S index) rest ;;
    Ok (pushed ++ more)
  end.

(** [content.split('\n').filter(line => line.trim())] *)
Definition nonblank_lines (content : jsstring) : list jsstring :=
  filter (fun line => truthy_str (trim line)) (split LF content).

Definition now {rt : Runtime} (site : ClockSite) : Date := TimeValue (Date_now site).

(** [`${prefix}${index}_${Date.now()}`] *)
Definition fresh_id {rt : Runtime} (prefix : string) (index : nat) : jsstring :=
  lit prefix ++ dec index ++ lit "_" ++ dec_Z (Date_now (AtId index)).

End Parsed.

(* ===================================================================== *)
(** ** [DuokanParser] *)
(* ===================================================================== *)

Module DuokanParser.
Import Parsed.
Section WithRuntime.
Context {rt : Runtime}.

Definition isValidJSON (str : jsstring) : bool :=
  match JSON_parse str with Some _ => true | None => false end.

Definition isValidXML (s : jsstring) : bool :=
  includes s (lit "<?xml") || includes s (lit "<notes>").

Definition validate (content : jsstring) : bool :=
  includes content (lit "duokan")
  || includes content (lit "多看")
  || includes content (lit "读书笔记")
  || isValidJSON content
  || isValidXML content.

Definition typeMap : list (jsstring * jsstring) :=
  map (fun kv => (lit (fst kv), lit (snd kv)))
    [("highlight", "highlight"); ("note", "note"); ("bookmark", "bookmark");
     ("高亮", "highlight"); ("笔记", "note"); ("书签", "bookmark")]%string.

Definition mapNoteType (type : JsVal) : Result JsVal := map_type typeMap type.

(** The object pushed for one element of [data.notes]. *)
Definition json_note (data : JsVal) (index : nat) (note : JsVal)
  : Result (list BookNote) :=
  let id := fresh_id "duokan_" index in
  bookTitle <- (prop data (lit "bookTitle") <||> prop note (lit "bookTitle")
                <||> Ok (VStr unknown_book)) ;;
  bookAuthor <- (prop data (lit "author") <||> prop note (lit "author")) ;;
  type <- (prop note (lit "type") <||> Ok (str "highlight")) ;;
  noteType <- mapNoteType type ;;
  content <- (prop note (lit "content") <||> prop note (lit "text")
              <||> Ok (VStr [])) ;;
  position <- (prop note (lit "position") <||> prop note (lit "location")
               <||> Ok (VNum (num_of_nat index))) ;;
  location <- (prop note (lit "location") <||> prop note (lit "page")
               <||> Ok (VStr [])) ;;
  chapter <- (prop note (lit "chapter") <||> prop note (lit "section")) ;;
  created <- (prop note (lit "createdAt") <||> prop note (lit "date")
              <||> Ok (VNum (num_of_Z (Date_now (AtCreated index))))) ;;
  createdAt <- Date_new created ;;
  color <- prop note (lit "color") ;;
  tags <- (prop note (lit "tags") <||> Ok (VArr [])) ;;
  Ok [{| id := id; bookTitle := bookTitle; bookAuthor := bookAuthor;
         noteType := noteType; content := content;
         position := position; location := location; chapter := chapter;
         createdAt := createdAt; color := color; source := duokan;
         tags := tags |}].

Definition empty_bundle : ParsedBookData :=
  {| metadata := {| title := VStr unknown_book; author := VStr [];
                    totalNotes := 0; lastSyncDate := now AtSync |};
     notes := [] |}.

Definition parseJSON (content : jsstring) : Result ParsedBookData :=
  match JSON_parse content with
  | None => Ok empty_bundle
  | Some data =>
    listed <- prop data (lit "notes") ;;
    notes <- match listed with
             | VArr elems => each (json_note data) 0 elems
             | _ => Ok []
             end ;;
    title <- (prop data (lit "bookTitle") <||> prop data (lit "title")
              <||> Ok (VStr unknown_book)) ;;
    author <- prop data (lit "author") ;;
    Ok {| metadata := {| title := title; author := author;
                         totalNotes := length notes;
                         lastSyncDate := now AtSync |};
          notes := notes |}
  end.

(** [/<tag>(.*?)<\/tag>/] *)
Definition element (tag : string) : Regex.re :=
  Regex.Seq (Regex.Lit (lit "<" ++ lit tag ++ lit ">"))
    (Regex.Seq (Regex.Group (Regex.StarLazy is_dot))
       (Regex.Lit (lit "</" ++ lit tag ++ lit ">"))).

(** [/<note>(.*?)<\/note>/gs] *)
Definition note_element : Regex.re :=
  Regex.Seq (Regex.Lit (lit "<note>"))
    (Regex.Seq (Regex.Group (Regex.StarLazy Regex.any_unit))
       (Regex.Lit (lit "</note>"))).

(** The object pushed for one match of [<note>...</note>].  The date is
    built from a string, which is a primitive already. *)
Definition xml_note (titleMatch authorMatch : option Regex.Match) (index : nat)
  (noteMatch : Regex.Match) : Result (list BookNote) :=
  let inner := Regex.text noteMatch in
  let contentMatch := Regex.exec (element "content") inner in
  let positionMatch := Regex.exec (element "position") inner in
  let chapterMatch := Regex.exec (element "chapter") inner in
  let dateMatch := Regex.exec (element "date") inner in
  match contentMatch with
  | None => Ok []
  | Some cm =>
    Ok [{| id := fresh_id "duokan_xml_" index;
           bookTitle := or_val (group1_opt titleMatch) (VStr unknown_book);
           bookAuthor := group1_opt authorMatch;
           noteType := str "highlight";
           content := VStr (Regex.group1 cm);
           position := match positionMatch with
                       | Some pm =>
                         match parseInt (Regex.group1 pm) with
                         | Some z => VNum (num_of_Z z)
                         | None => VNaN
                         end
                       | None => VNum (num_of_nat index)
                       end;
           location := VUndefined;
           chapter := group1_opt chapterMatch;
           createdAt := match dateMatch with
                        | Some dm => Date_of (VStr (Regex.group1 dm))
                        | None => now (AtCreated index)
                        end;
           color := VUndefined; source := duokan; tags := VUndefined |}]
  end.

Definition parseXML (content : jsstring) : Result ParsedBookData :=
  let titleMatch := Regex.exec (element "bookTitle") content in
  let authorMatch := Regex.exec (element "author") content in
  let noteMatches := Regex.exec_all note_element content in
  notes <- each (xml_note titleMatch authorMatch) 0 noteMatches ;;
  Ok {| metadata := {| title := or_val (group1_opt titleMatch) (VStr unknown_book);
                       author := group1_opt authorMatch;
                       totalNotes := length notes;
                       lastSyncDate := now AtSync |};
        notes := notes |}.

(** [/书名[:：]\s*(.+)/] and [/作者[:：]\s*(.+)/] *)
Definition label (name : string) : Regex.re :=
  Regex.Seq (Regex.Lit (lit name))
    (Regex.Seq (Regex.Cls (Regex.one_of (lit ":：")))
       (Regex.Seq (Regex.Star is_space) (Regex.Group (Regex.plus is_dot)))).

(** [/^\d+$/] *)
Definition all_digits : Regex.re :=
  Regex.Seq Regex.Bol (Regex.Seq (Regex.plus is_digit) Regex.Eol).

(** [/^第.*章/] *)
Definition chapter_heading : Regex.re :=
  Regex.Seq Regex.Bol
    (Regex.Seq (Regex.Lit (lit "第"))
       (Regex.Seq (Regex.Star is_dot) (Regex.Lit (lit "章")))).

(** The title or author taken from a label's match, else the default. *)
Definition labelled (name : string) (content default : jsstring) : jsstring :=
  match Regex.exec (label name) content with
  | Some m => trim (Regex.group1 m)
  | None => default
  end.

(** Whether the body of [lines.forEach] pushes the (trimmed) line. *)
Definition is_note_line (line : jsstring) : bool :=
  if includes line (lit "书名") || includes line (lit "作者") then false
  else if startsWith line (lit "第") && includes line (lit "章") then false
  else if Regex.test all_digits line then false
  else (5 <? length line)
       && negb (includes line (lit "书名"))
       && negb (includes line (lit "作者"))
       && negb (includes line (lit "读书笔记"))
       && negb (Regex.test chapter_heading line)
       && negb (Regex.test all_digits line).

(** [lines.forEach]: [noteIndex] counts the notes pushed so far. *)
Fixpoint scan_lines (title author : jsstring) (noteIndex : nat)
  (lines : list jsstring) : list BookNote :=
  match lines with
  | [] => []
  | raw :: rest =>
    let line := trim raw in
    if is_note_line line then
      {| id := fresh_id "duokan_txt_" noteIndex;
         bookTitle := VStr title; bookAuthor := VStr author;
         noteType := str "highlight"; content := VStr line;
         position := VNum (num_of_nat noteIndex); location := VUndefined;
         chapter := VUndefined; createdAt := now (AtCreated noteIndex);
         color := VUndefined; source := duokan; tags := VUndefined |}
      :: scan_lines title author (S noteIndex) rest
    else scan_lines title author noteIndex rest
  end.

Definition parsePlainText (content : jsstring) : Result ParsedBookData :=
  let lines := nonblank_lines content in
  let currentBookTitle := labelled "书名" content unknown_book in
  let currentAuthor := labelled "作者" content [] in
  let notes := scan_lines currentBookTitle currentAuthor 0 lines in
  Ok {| metadata := {| title := VStr currentBookTitle;
                       author := VStr currentAuthor;
                       totalNotes := length notes;
                       lastSyncDate := now AtSync |};
        notes := notes |}.

Definition parse (content : jsstring) : Result ParsedBookData :=
  if isValidJSON content then parseJSON content
  else if isValidXML content then parseXML content
  else parsePlainText content.

End WithRuntime.
End DuokanParser.

(* ===================================================================== *)
(** ** [WeChatParser] *)
(* ===================================================================== *)

Module WeChatParser.
Import Parsed.
Section WithRuntime.
Context {rt : Runtime}.

Definition isValidWeChatFormat (content : jsstring) : bool :=
  includes content (lit "微信读书")
  && (includes content (lit "划线") || includes content (lit "想法")
      || includes content (lit "章节")).

Definition validate (content : jsstring) : bool :=
  includes content (lit "微信读书")
  || includes content (lit "WeChat")
  || includes content (lit "读书笔记")
  || isValidWeChatFormat content.

Definition isValidJSON (str : jsstring) : bool :=
  match JSON_parse str with Some _ => true | None => false end.

Definition typeMap : list (jsstring * jsstring) :=
  map (fun kv => (lit (fst kv), lit (snd kv)))
    [("highlight", "highlight"); ("note", "note"); ("bookmark", "bookmark");
     ("划线", "highlight"); ("想法", "note"); ("书签", "bookmark");
     ("高亮", "highlight")]%string.

Definition mapNoteType (type : JsVal) : Result JsVal := map_type typeMap type.

(** The four [datePatterns], in order. *)
Definition datePatterns : list Regex.re :=
  let d := is_digit in
  let cls (s : string) := Regex.Cls (Regex.one_of (lit s)) in
  let seq := fold_right Regex.Seq (Regex.Lit []) in
  ([ Regex.Group (seq [Regex.Rep 4 4 d; cls "年-"; Regex.Rep 1 2 d; cls "月-";
                       Regex.Rep 1 2 d; Regex.Rep 0 1 (Regex.one_of (lit "日"))]);
     Regex.Group (seq [Regex.Rep 1 2 d; cls "月-"; Regex.Rep 1 2 d;
                       Regex.Rep 0 1 (Regex.one_of (lit "日"))]);
     Regex.Group (seq [Regex.Rep 4 4 d; cls "-"; Regex.Rep 1 2 d; cls "-";
                       Regex.Rep 1 2 d]);
     Regex.Group (seq [Regex.Rep 1 2 d; cls "/"; Regex.Rep 1 2 d; cls "/";
                       Regex.Rep 4 4 d]) ])%string.

(** The first pattern that matches gives the date, built from a string. *)
Fixpoint first_date (patterns : list Regex.re) (text : jsstring) : option Date :=
  match patterns with
  | [] => None
  | pattern :: rest =>
    match Regex.exec pattern text with
    | Some m => Some (Date_of (VStr (Regex.group1 m)))
    | None => first_date rest text
    end
  end.

Definition extractDate (text : jsstring) : option Date :=
  first_date datePatterns text.

(** [this.extractDate(line) || new Date()]: a date object is truthy. *)
Definition date_or_now (line : jsstring) (site : ClockSite) : Date :=
  match extractDate line with
  | Some d => d
  | None => now site
  end.

(** [/《([^》]+)》/] *)
Definition quoted_title : Regex.re :=
  Regex.Seq (Regex.Lit (lit "《"))
    (Regex.Seq (Regex.Group (Regex.plus (Regex.none_of (lit "》"))))
       (Regex.Lit (lit "》"))).

(** [/作者[:：]\s*([^\n]+)/] and [/作者[:：]\s*(.+)/] *)
Definition author_label (rest : N -> bool) : Regex.re :=
  Regex.Seq (Regex.Lit (lit "作者"))
    (Regex.Seq (Regex.Cls (Regex.one_of (lit ":：")))
       (Regex.Seq (Regex.Star is_space) (Regex.Group (Regex.plus rest)))).

Definition title_of (content : jsstring) : jsstring :=
  match Regex.exec quoted_title content with
  | Some m => Regex.group1 m
  | None => unknown_book
  end.

Definition author_of (rest : N -> bool) (content : jsstring) : jsstring :=
  match Regex.exec (author_label rest) content with
  | Some m => trim (Regex.group1 m)
  | None => []
  end.

(** [lines[i]?.trim()] *)
Definition line_at (lines : list jsstring) (i : nat) : option jsstring :=
  option_map trim (nth_error lines i).

(** [nextLine && ...]: the guard holds of a present, non-empty line. *)
Definition present (l : option jsstring) (ok : jsstring -> bool) : option jsstring :=
  match l with
  | Some s => if truthy_str s && ok s then Some s else None
  | None => None
  end.

Definition text_note (prefix : string) (title author : jsstring) (noteIndex : nat)
  (kind : string) (content chapter : jsstring) (location : JsVal) (i : nat)
  (created : Date) : BookNote :=
  {| id := fresh_id prefix noteIndex;
     bookTitle := VStr title; bookAuthor := VStr author;
     noteType := str kind; content := VStr content;
     position := VNum (num_of_nat i); location := location;
     chapter := VStr chapter; createdAt := created;
     color := VUndefined; source := wechat; tags := VUndefined |}.

(** *** The marker-and-next-line format *)

(** The loop variables [i] and [noteIndex], and the notes pushed. *)
Record Cursor : Type := { cur_i : nat; cur_noteIndex : nat; cur_pushed : list BookNote }.

(** One of the three marker blocks of the loop body: when [line] carries the
    marker and the line after the cursor passes [ok], a note is pushed and the
    cursor moves past that line. *)
Definition marker_block (lines : list jsstring) (title author chapter line : jsstring)
  (marked : bool) (ok : jsstring -> bool) (kind : string) (location : JsVal)
  (c : Cursor) : Cursor :=
  if marked then
    match present (line_at lines (S (cur_i c))) ok with
    | Some nextLine =>
      {| cur_i := S (cur_i c); cur_noteIndex := S (cur_noteIndex c);
         cur_pushed := cur_pushed c ++
           [text_note "wechat_" title author (cur_noteIndex c) kind nextLine chapter
              location (cur_i c) (date_or_now line (AtCreated (cur_noteIndex c)))] |}
    | None => c
    end
  else c.

Fixpoint format_loop (fuel : nat) (lines : list jsstring) (title author : jsstring)
  (chapter : jsstring) (i noteIndex : nat) : list BookNote :=
  match fuel with
  | 0 => []
  | S fuel' =>
    match line_at lines i with
    | None => []
    | Some line =>
      if includes line (lit "章节")
         || includes line (lit "第") && includes line (lit "章")
      then format_loop fuel' lines title author line (S i) noteIndex
      else
        let c0 := {| cur_i := i; cur_noteIndex := noteIndex; cur_pushed := [] |} in
        let c1 := marker_block lines title author chapter line
                    (includes line (lit "划线"))
                    (fun n => negb (includes n (lit "想法"))
                              && negb (includes n (lit "章节")))
                    "highlight" VUndefined c0 in
        let c2 := marker_block lines title author chapter line
                    (includes line (lit "想法"))
                    (fun n => negb (includes n (lit "划线"))
                              && negb (includes n (lit "章节")))
                    "note" VUndefined c1 in
        let c3 := marker_block lines title author chapter line
                    (includes line (lit "书签") || includes line (lit "位置"))
                    (fun _ => true)
                    "bookmark" (VStr line) c2 in
        cur_pushed c3
        ++ format_loop fuel' lines title author chapter (S (cur_i c3))
             (cur_noteIndex c3)
    end
  end.

Definition bundle (title author : jsstring) (notes : list BookNote) : ParsedBookData :=
  {| metadata := {| title := VStr title; author := VStr author;
                    totalNotes := length notes; lastSyncDate := now AtSync |};
     notes := notes |}.

Definition parseWeChatFormat (content : jsstring) : Result ParsedBookData :=
  let lines := nonblank_lines content in
  let currentBookTitle := title_of content in
  let currentAuthor := author_of (Regex.none_of [LF]) content in
  Ok (bundle currentBookTitle currentAuthor
        (format_loop (length lines) lines currentBookTitle currentAuthor [] 0 0)).

(** *** JSON *)

Definition json_note (data : JsVal) (index : nat) (note : JsVal)
  : Result (list BookNote) :=
  let id := fresh_id "wechat_" index in
  bookTitle <- (prop data (lit "bookTitle") <||> prop note (lit "bookTitle")
                <||> Ok (VStr unknown_book)) ;;
  bookAuthor <- (prop data (lit "author") <||> prop note (lit "author")) ;;
  type <- (prop note (lit "type") <||> Ok (str "highlight")) ;;
  noteType <- mapNoteType type ;;
  content <- (prop note (lit "content") <||> prop note (lit "text")
              <||> Ok (VStr [])) ;;
  position <- (prop note (lit "position") <||> prop note (lit "location")
               <||> Ok (VNum (num_of_nat index))) ;;
  location <- (prop note (lit "location") <||> prop note (lit "page")
               <||> Ok (VStr [])) ;;
  chapter <- (prop note (lit "chapter") <||> prop note (lit "section")) ;;
  created <- (prop note (lit "createdAt") <||> prop note (lit "date")
              <||> Ok (VNum (num_of_Z (Date_now (AtCreated index))))) ;;
  createdAt <- Date_new created ;;
  color <- prop note (lit "color") ;;
  tags <- (prop note (lit "tags") <||> Ok (VArr [])) ;;
  Ok [{| id := id; bookTitle := bookTitle; bookAuthor := bookAuthor;
         noteType := noteType; content := content;
         position := position; location := location; chapter := chapter;
         createdAt := createdAt; color := color; source := wechat;
         tags := tags |}].

Definition parseJSON (content : jsstring) : Result ParsedBookData :=
  match JSON_parse content with
  | None => Throw SyntaxError
  | Some data =>
    listed <- prop data (lit "notes") ;;
    notes <- match listed with
             | VArr elems => each (json_note data) 0 elems
             | _ => Ok []
             end ;;
    title <- (prop data (lit "bookTitle") <||> prop data (lit "title")
              <||> Ok (VStr unknown_book)) ;;
    author <- prop data (lit "author") ;;
    Ok {| metadata := {| title := title; author := author;
                         totalNotes := length notes;
                         lastSyncDate := now AtSync |};
          notes := notes |}
  end.

(** *** CSV *)

(** The quote-aware column splitter: [current], [inQuotes], [columns]. *)
Fixpoint columns_of (line current : jsstring) (inQuotes : bool)
  (columns : list jsstring) : list jsstring :=
  match line with
  | [] => columns ++ [trim current]
  | char :: rest =>
    if N.eqb char DQUOTE then columns_of rest current (negb inQuotes) columns
    else if N.eqb char COMMA && negb inQuotes
         then columns_of rest [] inQuotes (columns ++ [trim current])
         else columns_of rest (current ++ [char]) inQuotes columns
  end.

(** [/^"|"$/g] *)
Definition outer_quotes : Regex.re :=
  Regex.Alt (Regex.Seq Regex.Bol (Regex.Lit [DQUOTE]))
            (Regex.Seq (Regex.Lit [DQUOTE]) Regex.Eol).

Definition unquote (s : jsstring) : jsstring := Regex.delete_all outer_quotes s.

(** [headers.findIndex(h => h.includes(a) || h.includes(b))] *)
Definition header_index (headers : list jsstring) (a b : string) : option nat :=
  findIndex (fun h => includes h (lit a) || includes h (lit b)) headers.

(** [columns[k].replace(...)]: a missing column has no [replace]. *)
Definition column (columns : list jsstring) (k : nat) : Result jsstring :=
  match nth_error columns k with
  | Some c => Ok (unquote c)
  | None => Throw TypeError
  end.

Definition csv_row (headers : list jsstring) (i : nat) (line : jsstring)
  : Result (list BookNote) :=
  let columns := columns_of line [] false [] in
  if 2 <=? length columns then
    let contentIndex := header_index headers "内容" "content" in
    let chapterIndex := header_index headers "章节" "chapter" in
    let typeIndex := header_index headers "类型" "type" in
    noteContent <- column columns (match contentIndex with Some k => k | None => 0 end) ;;
    chapter <- match chapterIndex with
               | Some k => column columns k
               | None => Ok []
               end ;;
    noteType <- match typeIndex with
                | Some k => t <- column columns k ;; mapNoteType (VStr t)
                | None => Ok (str "highlight")
                end ;;
    if truthy_str noteContent then
      Ok [{| id := lit "wechat_csv_" ++ dec i ++ lit "_" ++ dec_Z (Date_now (AtId i));
             bookTitle := VStr unknown_book; bookAuthor := VStr [];
             noteType := noteType; content := VStr noteContent;
             position := VNum (num_of_nat i); location := VUndefined;
             chapter := VStr chapter; createdAt := now (AtCreated i);
             color := VUndefined; source := wechat; tags := VUndefined |}]
    else Ok []
  else Ok [].

Definition parseCSV (content : jsstring) : Result ParsedBookData :=
  let lines := nonblank_lines content in
  match lines with
  | [] => Throw TypeError
  | first :: _ =>
    let headers := map trim (split COMMA first) in
    let hasHeaders :=
      existsb (fun h => includes h (lit "内容") || includes h (lit "content")
                        || includes h (lit "章节") || includes h (lit "chapter"))
        headers in
    let startIndex := if hasHeaders then 1 else 0 in
    notes <- each (csv_row headers) startIndex (skipn startIndex lines) ;;
    Ok (bundle unknown_book [] notes)
  end.

(** *** Free text with inline markers *)

(** A line carrying [marker]: the rest of the line is the content. *)
Definition inline_content (line : jsstring) (marker : string) : jsstring :=
  trim (replace line (lit marker) []).

Definition next_is_content (n : jsstring) : bool :=
  negb (includes n (lit "《")) && negb (includes n (lit "作者"))
  && negb (includes n (lit "章节")) && negb (includes n (lit "划线"))
  && negb (includes n (lit "想法")) && negb (includes n (lit "书签"))
  && (5 <? length n).

Definition inline (title author chapter : jsstring) (noteIndex i : nat)
  (kind : string) (content : jsstring) : list BookNote :=
  if truthy_str content then
    [text_note "wechat_txt_" title author noteIndex kind content chapter
       VUndefined i (now (AtCreated noteIndex))]
  else [].

Fixpoint text_loop (fuel : nat) (lines : list jsstring) (title author : jsstring)
  (chapter : jsstring) (i noteIndex : nat) : list BookNote :=
  match fuel with
  | 0 => []
  | S fuel' =>
    match line_at lines i with
    | None => []
    | Some line =>
      let continue chapter' notes step :=
        notes ++ text_loop fuel' lines title author chapter' (step + i)
                   (length notes + noteIndex) in
      if includes line (lit "章节：")
         || (startsWith line (lit "第") && includes line (lit "章"))
      then continue (replace line (lit "章节：") []) [] 1
      else if includes line (lit "划线：")
      then continue chapter
             (inline title author chapter noteIndex i "highlight"
                (inline_content line "划线：")) 1
      else if includes line (lit "想法：")
      then continue chapter
             (inline title author chapter noteIndex i "note"
                (inline_content line "想法：")) 1
      else if includes line (lit "书签：")
      then continue chapter
             (inline title author chapter noteIndex i "bookmark"
                (inline_content line "书签：")) 1
      else
        match
          (if includes line (lit "划线") || includes line (lit "想法")
              || includes line (lit "书签")
           then present (line_at lines (S i)) next_is_content else None)
        with
        | Some nextLine =>
          let kind := if includes line (lit "划线") then "highlight"%string
                      else if includes line (lit "想法") then "note"%string
                      else "bookmark"%string in
          continue chapter
            [text_note "wechat_txt_" title author noteIndex kind nextLine chapter
               VUndefined i (now (AtCreated noteIndex))] 2
        | None => continue chapter [] 1
        end
    end
  end.

Definition parsePlainText (content : jsstring) : Result ParsedBookData :=
  let lines := nonblank_lines content in
  let currentBookTitle := title_of content in
  let currentAuthor := author_of is_dot content in
  Ok (bundle currentBookTitle currentAuthor
        (text_loop (length lines) lines currentBookTitle currentAuthor [] 0 0)).

Definition parse (content : jsstring) : Result ParsedBookData :=
  if includes content (lit "微信读书") && includes content (lit "想法")
  then parseWeChatFormat content
  else if isValidJSON content then parseJSON content
  else if includes content (lit ",") then parseCSV content
  else parsePlainText content.

End WithRuntime.
End WeChatParser.

(* ===================================================================== *)
(** ** The record model ([shared/types/notes]) *)
(* ===================================================================== *)

Module Notes.

Inductive NoteType : Type := highlight | note | bookmark.

Inductive Source : Type := duokan | wechat | manual | ocr.

Record BookNote : Type := {
  id : jsstring;
  bookTitle : jsstring;
  bookAuthor : option jsstring;
  noteType : NoteType;
  content : jsstring;
  position : option Z;
  location : option jsstring;
  chapter : option jsstring;
  createdAt : Date;
  updatedAt : option Date;
  tags : option (list jsstring);
  color : option jsstring;
  source : Source
}.

Record BookMetadata : Type := {
  title : jsstring;
  author : option jsstring;
  isbn : option jsstring;
  coverImage : option jsstring;
  totalNotes : nat;
  lastSyncDate : option Date
}.

(** [rawData], an opaque payload that nothing reads, is left out. *)
Record ParsedBookData : Type := {
  metadata : BookMetadata;
  notes : list BookNote
}.

(** [Partial<BookNote>]: a key is absent ([None]) or carries a value; the
    value of an optional field may itself be [undefined]. *)
Record Updates : Type := {
  u_id : option jsstring;
  u_bookTitle : option jsstring;
  u_bookAuthor : option (option jsstring);
  u_noteType : option NoteType;
  u_content : option jsstring;
  u_position : option (option Z);
  u_location : option (option jsstring);
  u_chapter : option (option jsstring);
  u_createdAt : option Date;
  u_tags : option (option (list jsstring));
  u_color : option (option jsstring);
  u_source : option Source
}.

Definition over {A} (u : option A) (old : A) : A :=
  match u with Some v => v | None => old end.

(** [{ ...note, ...updates, updatedAt }] *)
Definition merge (n : BookNote) (u : Updates) (stamp : Date) : BookNote :=
  {| id := over (u_id u) (id n);
     bookTitle := over (u_bookTitle u) (bookTitle n);
     bookAuthor := over (u_bookAuthor u) (bookAuthor n);
     noteType := over (u_noteType u) (noteType n);
     content := over (u_content u) (content n);
     position := over (u_position u) (position n);
     location := over (u_location u) (location n);
     chapter := over (u_chapter u) (chapter n);
     createdAt := over (u_createdAt u) (createdAt n);
     updatedAt := Some stamp;
     tags := over (u_tags u) (tags n);
     color := over (u_color u) (color n);
     source := over (u_source u) (source n) |}.

(** [{ ...note, bookTitle }] and [{ ...note, id }] *)
Definition with_bookTitle (n : BookNote) (t : jsstring) : BookNote :=
  {| id := id n; bookTitle := t; bookAuthor := bookAuthor n;
     noteType := noteType n; content := content n; position := position n;
     location := location n; chapter := chapter n; createdAt := createdAt n;
     updatedAt := updatedAt n; tags := tags n; color := color n;
     source := source n |}.

Definition with_id (n : BookNote) (i : jsstring) : BookNote :=
  {| id := i; bookTitle := bookTitle n; bookAuthor := bookAuthor n;
     noteType := noteType n; content := content n; position := position n;
     location := location n; chapter := chapter n; createdAt := createdAt n;
     updatedAt := updatedAt n; tags := tags n; color := color n;
     source := source n |}.

Definition with_title (m : BookMetadata) (t : jsstring) : BookMetadata :=
  {| title := t; author := author m; isbn := isbn m; coverImage := coverImage m;
     totalNotes := totalNotes m; lastSyncDate := lastSyncDate m |}.

Definition with_totalNotes (m : BookMetadata) (k : nat) : BookMetadata :=
  {| title := title m; author := author m; isbn := isbn m;
     coverImage := coverImage m; totalNotes := k;
     lastSyncDate := lastSyncDate m |}.

Definition with_notes (b : ParsedBookData) (l : list BookNote) : ParsedBookData :=
  {| metadata := metadata b; notes := l |}.

End Notes.

(* ===================================================================== *)
(** ** [Map] keyed by strings, in insertion order *)
(* ===================================================================== *)

Module JsMap.
Section Map.
Variable V : Type.

Definition t : Type := list (jsstring * V).

Definition empty : t := [].

Fixpoint get (k : jsstring) (m : t) : option V :=
  match m with
  | [] => None
  | (k', v) :: m' => if str_eqb k' k then Some v else get k m'
  end.

Definition has (k : jsstring) (m : t) : bool :=
  match get k m with Some _ => true | None => false end.

(** [set] keeps the place of a key that is present and appends a new one. *)
Fixpoint set (k : jsstring) (v : V) (m : t) : t :=
  match m with
  | [] => [(k, v)]
  | (k', v') :: m' =>
    if str_eqb k' k then (k, v) :: m' else (k', v') :: set k v m'
  end.

Definition delete (k : jsstring) (m : t) : t :=
  filter (fun kv => negb (str_eqb (fst kv) k)) m.

Definition keys (m : t) : list jsstring := map fst m.
Definition values (m : t) : list V := map snd m.
Definition size (m : t) : nat := length m.

End Map.
End JsMap.

(* ===================================================================== *)
(** ** [NotesManager] *)
(* ===================================================================== *)

Module NotesManager.

(** The two indexes: [this.notes] by note id, [this.books] by title. *)
Record Store : Type := {
  notes : JsMap.t Notes.BookNote;
  books : JsMap.t Notes.ParsedBookData
}.

Definition empty : Store := {| notes := JsMap.empty _; books := JsMap.empty _ |}.

Definition getAllBooks (st : Store) : list Notes.ParsedBookData :=
  JsMap.values (books st).

Definition getBook (st : Store) (bookTitle : jsstring) : option Notes.ParsedBookData :=
  JsMap.get bookTitle (books st).

Definition getAllNotes (st : Store) : list Notes.BookNote :=
  JsMap.values (notes st).

Definition getNotesByBook (st : Store) (bookTitle : jsstring) : list Notes.BookNote :=
  match JsMap.get bookTitle (books st) with
  | Some book => Notes.notes book
  | None => []
  end.

Definition getNoteById (st : Store) (noteId : jsstring) : option Notes.BookNote :=
  JsMap.get noteId (notes st).

(** [book.notes[index] = note] on the bundle held under [bookTitle]. *)
Definition put_note (bookTitle : jsstring) (same : Notes.BookNote -> bool)
  (note : Notes.BookNote) (bs : JsMap.t Notes.ParsedBookData)
  : JsMap.t Notes.ParsedBookData :=
  match JsMap.get bookTitle bs with
  | Some book =>
    match findIndex same (Notes.notes book) with
    | Some noteIndex =>
      JsMap.set bookTitle
        (Notes.with_notes book (assign (Notes.notes book) noteIndex note)) bs
    | None => bs
    end
  | None => bs
  end.

(** [updateNote]; [stamp] is the [new Date()] of the call. *)
Definition updateNote (st : Store) (noteId : jsstring) (updates : Notes.Updates)
  (stamp : Date) : Store * bool :=
  match JsMap.get noteId (notes st) with
  | None => (st, false)
  | Some note =>
    let updatedNote := Notes.merge note updates stamp in
    ({| notes := JsMap.set noteId updatedNote (notes st);
        books := put_note (Notes.bookTitle note)
                   (fun n => str_eqb (Notes.id n) noteId) updatedNote (books st) |},
     true)
  end.

Definition deleteNote (st : Store) (noteId : jsstring) : Store * bool :=
  match JsMap.get noteId (notes st) with
  | None => (st, false)
  | Some note =>
    ({| notes := JsMap.delete noteId (notes st);
        books :=
          match JsMap.get (Notes.bookTitle note) (books st) with
          | Some book =>
            let kept := filter (fun n => negb (str_eqb (Notes.id n) noteId))
                          (Notes.notes book) in
            JsMap.set (Notes.bookTitle note)
              {| Notes.metadata :=
                   Notes.with_totalNotes (Notes.metadata book) (length kept);
                 Notes.notes := kept |}
              (books st)
          | None => books st
          end |},
     true)
  end.

Definition deleteBook (st : Store) (bookTitle : jsstring) : Store * bool :=
  match JsMap.get bookTitle (books st) with
  | None => (st, false)
  | Some book =>
    ({| notes := fold_left (fun m note => JsMap.delete (Notes.id note) m)
                   (Notes.notes book) (notes st);
        books := JsMap.delete bookTitle (books st) |},
     true)
  end.

Section WithRuntime.
Context {rt : Runtime}.

(** The condition of the [if] in [searchNotes]. *)
Definition matches (searchTerm : jsstring) (note : Notes.BookNote) : bool :=
  includes (toLowerCase (Notes.content note)) searchTerm
  || includes (toLowerCase (Notes.bookTitle note)) searchTerm
  || match Notes.chapter note with
     | Some chapter => truthy_str chapter && includes (toLowerCase chapter) searchTerm
     | None => false
     end
  || match Notes.tags note with
     | Some tags => existsb (fun tag => includes (toLowerCase tag) searchTerm) tags
     | None => false
     end.

Definition searchNotes (st : Store) (query : jsstring) : list Notes.BookNote :=
  let searchTerm := toLowerCase query in
  filter (matches searchTerm) (JsMap.values (notes st)).

End WithRuntime.

(** The suffix loop shared by titles and ids:
    [while (taken(current)) { current = `${base}_${counter}`; counter++ }].
    [None] when [fuel] iterations did not reach a free name. *)
Fixpoint suffix_loop (fuel : nat) (taken : jsstring -> bool) (base current : jsstring)
  (counter : nat) : option jsstring :=
  if taken current then
    match fuel with
    | 0 => None
    | S fuel' =>
      suffix_loop fuel' taken base (base ++ lit "_" ++ dec counter) (S counter)
    end
  else Some current.

(** A map of [n] entries lets the loop run at most [n] times. *)
Definition unique {V} (m : JsMap.t V) (base : jsstring) : option jsstring :=
  suffix_loop (JsMap.size m) (fun k => JsMap.has k m) base base 1.

(** The body of [updatedData.notes.forEach]: [updatedData] is the object
    held in [this.books] under [bookTitle], so the element visited at [i] is
    read from there, after the writes of the earlier iterations. *)
Definition store_note (bookTitle : jsstring) (st : Store) (i : nat) : option Store :=
  match JsMap.get bookTitle (books st) with
  | None => Some st
  | Some updatedData =>
    match nth_error (Notes.notes updatedData) i with
    | None => Some st
    | Some note =>
      match unique (notes st) (Notes.id note) with
      | None => None
      | Some noteId =>
        let updatedNote := Notes.with_id note noteId in
        Some {| notes := JsMap.set noteId updatedNote (notes st);
                books := put_note bookTitle
                           (fun n => str_eqb (Notes.id n) (Notes.id note))
                           updatedNote (books st) |}
      end
    end
  end.

Fixpoint for_each (body : Store -> nat -> option Store) (indices : list nat)
  (st : Store) : option Store :=
  match indices with
  | [] => Some st
  | i :: rest =>
    match body st i with
    | Some st' => for_each body rest st'
    | None => None
    end
  end.

Definition storeParsedData (st : Store) (data : Notes.ParsedBookData) : option Store :=
  match unique (books st) (Notes.title (Notes.metadata data)) with
  | None => None
  | Some bookTitle =>
    let updatedData :=
      {| Notes.metadata := Notes.with_title (Notes.metadata data) bookTitle;
         Notes.notes := map (fun note => Notes.with_bookTitle note bookTitle)
                          (Notes.notes data) |} in
    for_each (store_note bookTitle) (seq 0 (length (Notes.notes data)))
      {| notes := notes st; books := JsMap.set bookTitle updatedData (books st) |}
  end.

(** *** [getStatistics] *)

Definition source_name (s : Notes.Source) : jsstring :=
  match s with
  | Notes.duokan => lit "duokan"
  | Notes.wechat => lit "wechat"
  | Notes.manual => lit "manual"
  | Notes.ocr => lit "ocr"
  end.

Definition type_name (t : Notes.NoteType) : jsstring :=
  match t with
  | Notes.highlight => lit "highlight"
  | Notes.note => lit "note"
  | Notes.bookmark => lit "bookmark"
  end.

(** [counts[key] = (counts[key] || 0) + 1] on an object used as a record of
    counters: a new key is added after the keys already there. *)
Definition bump (key : jsstring) (counts : JsMap.t nat) : JsMap.t nat :=
  JsMap.set key
    (match JsMap.get key counts with Some c => c | None => 0 end + 1) counts.

Record Statistics : Type := {
  totalBooks : nat;
  totalNotes : nat;
  notesBySource : JsMap.t nat;
  notesByType : JsMap.t nat
}.

Definition getStatistics (st : Store) : Statistics :=
  fold_left
    (fun stats note =>
       {| totalBooks := totalBooks stats;
          totalNotes := totalNotes stats;
          notesBySource :=
            bump (source_name (Notes.source note)) (notesBySource stats);
          notesByType :=
            bump (type_name (Notes.noteType note)) (notesByType stats) |})
    (JsMap.values (notes st))
    {| totalBooks := JsMap.size (books st);
       totalNotes := JsMap.size (notes st);
       notesBySource := JsMap.empty _;
       notesByType := JsMap.empty _ |}.

(** *** The parser registry and [getParser] *)

Record NoteParser : Type := {
  name : jsstring;
  supportedFormats : list jsstring;
  parse : jsstring -> Result Parsed.ParsedBookData;
  validate : jsstring -> bool
}.

Section Parsers.
Context {rt : Runtime}.

Definition duokanParser : NoteParser :=
  {| name := lit "Duokan Notes Parser";
     supportedFormats := map lit [".txt"; ".json"; ".xml"]%string;
     parse := DuokanParser.parse;
     validate := DuokanParser.validate |}.

Definition wechatParser : NoteParser :=
  {| name := lit "WeChat Reading Parser";
     supportedFormats := map lit [".txt"; ".json"; ".csv"]%string;
     parse := WeChatParser.parse;
     validate := WeChatParser.validate |}.

(** [this.parsers] after [initializeParsers]. *)
Definition initializeParsers : JsMap.t NoteParser :=
  JsMap.set (lit "wechat") wechatParser
    (JsMap.set (lit "duokan") duokanParser (JsMap.empty _)).

End Parsers.

(** [addParser] and [getParsers] *)
Definition addParser (parsers : JsMap.t NoteParser) (parserName : jsstring)
  (parser : NoteParser) : JsMap.t NoteParser :=
  JsMap.set parserName parser parsers.

Definition getParsers (parsers : JsMap.t NoteParser) : list jsstring :=
  JsMap.keys parsers.

(** [getParser]: [None] stands for [undefined], both for the result and for
    a [parserType] that was not given. *)
Definition getParser (parsers : JsMap.t NoteParser) (content : jsstring)
  (parserType : option jsstring) : option NoteParser :=
  let detected := find (fun parser => validate parser content) (JsMap.values parsers) in
  match parserType with
  | Some type => if truthy_str type then JsMap.get type parsers else detected
  | None => detected
  end.

(** *** [sanitizeFileName] *)

(** [str.replace(re, rep)] with the [g] flag and a replacement without [$]:
    every match gives way to [rep]. *)
Fixpoint replace_spans (ms : list Regex.Match) (rep s : jsstring) (pos : nat)
  : jsstring :=
  match ms with
  | [] => s
  | m :: ms' =>
    firstn (Regex.index m - pos) s ++ rep
    ++ replace_spans ms' rep
         (skipn (Regex.index m - pos + length (Regex.text m)) s)
         (Regex.index m + length (Regex.text m))
  end.

Definition replace_all (r : Regex.re) (rep s : jsstring) : jsstring :=
  replace_spans (Regex.exec_all r s) rep s 0.

(** The class of the first pattern: the double quote, and the characters
    less-than, greater-than, colon, slash, backslash, bar, question mark and
    star. *)
Definition reserved : N -> bool := Regex.one_of (DQUOTE :: lit "<>:/\|?*").

Definition sanitizeFileName (fileName : jsstring) : jsstring :=
  replace_all (Regex.plus is_space) (lit "_")
    (replace_all (Regex.Cls reserved) (lit "_") fileName).

End NotesManager.

(* ===================================================================== *)
(** ** [DefaultMarkdownFormatter] *)
(* ===================================================================== *)

Module MarkdownFormatter.

Inductive SortBy : Type := position | date | chapter.

(** [FormatOptions]: every key is optional. *)
Record FormatOptions : Type := {
  includeMetadata : option bool;
  includeLocation : option bool;
  includeTags : option bool;
  groupByChapter : option bool;
  sortBy : option SortBy
}.

Definition no_options : FormatOptions :=
  {| includeMetadata := None; includeLocation := None; includeTags := None;
     groupByChapter := None; sortBy := None |}.

(** A destructuring default: [{ key = d } = options]. *)
Definition default {A} (o : option A) (d : A) : A :=
  match o with Some v => v | None => d end.

(** *** [Array.prototype.sort] with a comparator

    The builtin is stable; with a comparator that orders the elements its
    result is the one of a stable insertion sort.  A comparator result of
    [NaN] counts as [0]. *)

Section Sort.
Variable A : Type.
Variable cmp : A -> A -> option Z.

Definition before (a b : A) : bool :=
  match cmp a b with
  | Some d => (d <? 0)%Z
  | None => false
  end.

Fixpoint insert (x : A) (sorted : list A) : list A :=
  match sorted with
  | [] => [x]
  | y :: rest => if before y x then y :: insert x rest else x :: y :: rest
  end.

Fixpoint sort (l : list A) : list A :=
  match l with
  | [] => []
  | x :: rest => insert x (sort rest)
  end.

End Sort.

(** [a.position || 0] *)
Definition position_or_0 (n : Notes.BookNote) : Z :=
  match Notes.position n with Some z => z | None => 0%Z end.

(** [date.getTime()]; [None] is [NaN]. *)
Definition getTime (d : Date) : option Z :=
  match d with TimeValue ms => Some ms | InvalidDate => None end.

Definition by_position (a b : Notes.BookNote) : option Z :=
  Some (position_or_0 a - position_or_0 b)%Z.

Definition by_date (a b : Notes.BookNote) : option Z :=
  match getTime (Notes.createdAt a), getTime (Notes.createdAt b) with
  | Some x, Some y => Some (x - y)%Z
  | _, _ => None
  end.

(** [let sortedNotes = [...notes]; if (sortBy === 'position') ... else if
    (sortBy === 'date') ...] *)
Definition sortedNotes (sortBy : SortBy) (notes : list Notes.BookNote)
  : list Notes.BookNote :=
  match sortBy with
  | position => sort by_position notes
  | date => sort by_date notes
  | chapter => notes
  end.

Definition nl : jsstring := [LF].

Definition uncategorized : jsstring := lit "未分类".

(** [items.join(sep)] *)
Fixpoint join (sep : jsstring) (items : list jsstring) : jsstring :=
  match items with
  | [] => []
  | [x] => x
  | x :: rest => x ++ sep ++ join sep rest
  end.

(** [groupNotesByChapter]: a [Map] from chapter label to its notes. *)
Definition groupNotesByChapter (notes : list Notes.BookNote)
  : JsMap.t (list Notes.BookNote) :=
  fold_left
    (fun chapters note =>
       let chapter :=
         match Notes.chapter note with
         | Some c => if truthy_str c then c else uncategorized
         | None => uncategorized
         end in
       let chapters' :=
         if JsMap.has chapter chapters then chapters
         else JsMap.set chapter [] chapters in
       match JsMap.get chapter chapters' with
       | Some held => JsMap.set chapter (held ++ [note]) chapters'
       | None => chapters'
       end)
    notes (JsMap.empty _).

Section WithRuntime.
Context {rt : Runtime}.

Definition truthy_opt (o : option jsstring) : option jsstring :=
  match o with
  | Some s => if truthy_str s then Some s else None
  | None => None
  end.

(** The text [formatNotes] appends for the note at [index]. *)
Definition formatNote (includeLocation includeTags : bool) (index : nat)
  (note : Notes.BookNote) : jsstring :=
  let noteNumber := dec (index + 1) in
  let heading :=
    match Notes.noteType note with
    | Notes.highlight =>
      lit "### 划线 " ++ noteNumber ++ nl ++ lit "> " ++ Notes.content note ++ nl ++ nl
    | Notes.note =>
      lit "### 笔记 " ++ noteNumber ++ nl ++ Notes.content note ++ nl ++ nl
    | Notes.bookmark =>
      lit "### 书签 " ++ noteNumber ++ nl ++ Notes.content note ++ nl ++ nl
    end in
  let locationInfo :=
    match truthy_opt (Notes.chapter note) with
    | Some c => [lit "章节: " ++ c] | None => [] end
    ++ match truthy_opt (Notes.location note) with
       | Some l => [lit "位置: " ++ l] | None => [] end
    ++ match Notes.position note with
       | Some z => if (z =? 0)%Z then [] else [lit "位置: " ++ dec_Z z]
       | None => [] end in
  let location :=
    if includeLocation then
      match locationInfo with
      | [] => []
      | _ :: _ => lit "**" ++ join (lit " | ") locationInfo ++ lit "**" ++ nl ++ nl
      end
    else [] in
  let tags :=
    match Notes.tags note with
    | Some (t :: ts) =>
      if includeTags
      then lit "**标签**: " ++ join (lit ", ") (t :: ts) ++ nl ++ nl
      else []
    | _ => []
    end in
  let created :=
    lit "**创建时间**: " ++ toLocaleString (Notes.createdAt note) ++ nl ++ nl in
  let color :=
    match truthy_opt (Notes.color note) with
    | Some c => lit "**颜色**: " ++ c ++ nl ++ nl
    | None => []
    end in
  heading ++ location ++ tags ++ created ++ color ++ lit "---" ++ nl ++ nl.

Fixpoint formatNotes_from (includeLocation includeTags : bool) (index : nat)
  (notes : list Notes.BookNote) : jsstring :=
  match notes with
  | [] => []
  | note :: rest =>
    formatNote includeLocation includeTags index note
    ++ formatNotes_from includeLocation includeTags (S index) rest
  end.

Definition formatNotes (notes : list Notes.BookNote)
  (includeLocation includeTags : bool) : jsstring :=
  formatNotes_from includeLocation includeTags 0 notes.

(** The part of [format] and [formatBook] after the header. *)
Definition body (sorted : list Notes.BookNote)
  (groupByChapter includeLocation includeTags : bool) : jsstring :=
  if groupByChapter then
    flat_map
      (fun entry : jsstring * list Notes.BookNote =>
         let (chapter, chapterNotes) := entry in
         lit "## " ++ (if truthy_str chapter then chapter else uncategorized)
         ++ nl ++ nl
         ++ formatNotes chapterNotes includeLocation includeTags ++ nl)
      (groupNotesByChapter sorted)
  else formatNotes sorted includeLocation includeTags.

Definition exported : jsstring :=
  lit "- **导出时间**: " ++ toLocaleString (TimeValue (Date_now AtExport)) ++ nl ++ nl.

Definition format (notes : list Notes.BookNote) (options : FormatOptions) : jsstring :=
  let includeMetadata := default (includeMetadata options) true in
  let includeLocation := default (includeLocation options) true in
  let includeTags := default (includeTags options) true in
  let groupByChapter := default (groupByChapter options) false in
  let sortBy := default (sortBy options) position in
  match notes with
  | [] => lit "# 读书笔记" ++ nl ++ nl ++ lit "暂无笔记"
  | first :: _ =>
    let sorted := sortedNotes sortBy notes in
    let info :=
      if includeMetadata then
        lit "## 图书信息" ++ nl
        ++ lit "- **书名**: " ++ Notes.bookTitle first ++ nl
        ++ match truthy_opt (Notes.bookAuthor first) with
           | Some author => lit "- **作者**: " ++ author ++ nl
           | None => []
           end
        ++ lit "- **笔记数量**: " ++ dec (length notes) ++ nl
        ++ exported
      else [] in
    lit "# 读书笔记" ++ nl ++ nl ++ info
    ++ body sorted groupByChapter includeLocation includeTags
  end.

Definition formatBook (data : Notes.ParsedBookData) (options : FormatOptions)
  : jsstring :=
  let metadata := Notes.metadata data in
  let notes := Notes.notes data in
  let includeMetadata := default (includeMetadata options) true in
  let includeLocation := default (includeLocation options) true in
  let includeTags := default (includeTags options) true in
  let groupByChapter := default (groupByChapter options) false in
  let sortBy := default (sortBy options) position in
  let info :=
    if includeMetadata then
      lit "## 图书信息" ++ nl
      ++ lit "- **书名**: " ++ Notes.title metadata ++ nl
      ++ match truthy_opt (Notes.author metadata) with
         | Some author => lit "- **作者**: " ++ author ++ nl
         | None => []
         end
      ++ lit "- **笔记数量**: " ++ dec (Notes.totalNotes metadata) ++ nl
      ++ match Notes.lastSyncDate metadata with
         | Some d => lit "- **最后同步**: " ++ toLocaleString d ++ nl
         | None => []
         end
      ++ exported
    else [] in
  match notes with
  | [] => lit "# 读书笔记" ++ nl ++ nl ++ info ++ lit "暂无笔记"
  | _ :: _ =>
    lit "# 读书笔记" ++ nl ++ nl ++ info
    ++ body (sortedNotes sortBy notes) groupByChapter includeLocation includeTags
  end.

End WithRuntime.
End MarkdownFormatter.

(* ===================================================================== *)
(** ** [SimpleMarkdownFormatter] *)
(* ===================================================================== *)

Module SimpleMarkdownFormatter.

(** What [notes.forEach] appends for one note. *)
Definition line (note : Notes.BookNote) : jsstring :=
  match Notes.noteType note with
  | Notes.highlight =>
    lit "> " ++ Notes.content note ++ MarkdownFormatter.nl ++ MarkdownFormatter.nl
  | _ => Notes.content note ++ MarkdownFormatter.nl ++ MarkdownFormatter.nl
  end.

Definition format (notes : list Notes.BookNote) : jsstring :=
  match notes with
  | [] => []
  | _ :: _ => fold_left (fun markdown note => markdown ++ line note) notes []
  end.

Definition formatBook (data : Notes.ParsedBookData) : jsstring :=
  format (Notes.notes data).

End SimpleMarkdownFormatter.

(* ===================================================================== *)
(** ** A runtime to run the model on examples

    [Json.parse] reads the JSON grammar (RFC 8259, as [JSON.parse] does):
    [None] where [JSON.parse] throws.  The clock of [example_runtime] stands
    still; what no example depends on is constant. *)
(* ===================================================================== *)

Module Json.

Definition is_ws (c : N) : bool :=
  (c =? 32)%N || (c =? 9)%N || (c =? 10)%N || (c =? 13)%N.

Fixpoint skip_ws (s : jsstring) : jsstring :=
  match s with
  | c :: s' => if is_ws c then skip_ws s' else s
  | [] => []
  end.

Fixpoint take_digits (s : jsstring) : jsstring * jsstring :=
  match s with
  | c :: s' =>
    if is_digit c then let (ds, rest) := take_digits s' in (c :: ds, rest)
    else ([], s)
  | [] => ([], [])
  end.

Definition digits_value (ds : jsstring) : Z :=
  fold_left (fun acc c => (acc * 10 + (Z.of_N c - 48))%Z) ds 0%Z.

(** [-? int frac? exp?] with [int = 0 | [1-9][0-9]*]. *)
Definition number (s : jsstring) : option (JsNumber * jsstring) :=
  let (negative, s1) :=
    match s with
    | c :: r => if (c =? 45)%N then (true, r) else (false, s)
    | [] => (false, s)
    end in
  let (int, s2) := take_digits s1 in
  match int with
  | [] => None
  | lead :: more =>
    if (lead =? 48)%N && truthy_str more then None
    else
      let frac :=
        match s2 with
        | c :: r =>
          if (c =? 46)%N then
            match take_digits r with
            | ([], _) => None
            | (fs, r') => Some (fs, r')
            end
          else Some ([], s2)
        | [] => Some ([], s2)
        end in
      match frac with
      | None => None
      | Some (fs, s3) =>
        let expo :=
          match s3 with
          | c :: r =>
            if (c =? 101)%N || (c =? 69)%N then
              let (minus, r1) :=
                match r with
                | sg :: r' =>
                  if (sg =? 45)%N then (true, r')
                  else if (sg =? 43)%N then (false, r') else (false, r)
                | [] => (false, r)
                end in
              match take_digits r1 with
              | ([], _) => None
              | (es, r2) =>
                Some ((if minus then - digits_value es else digits_value es)%Z, r2)
              end
            else Some (0%Z, s3)
          | [] => Some (0%Z, s3)
          end in
        match expo with
        | None => None
        | Some (e, s4) =>
          let m := digits_value (int ++ fs) in
          Some ({| mant := if negative then (- m)%Z else m;
                   exp10 := (e - Z.of_nat (length fs))%Z |}, s4)
        end
      end
  end.

Definition hex (c : N) : option N :=
  if is_digit c then Some (c - 48)%N
  else if ((97 <=? c) && (c <=? 102))%N then Some (c - 87)%N
  else if ((65 <=? c) && (c <=? 70))%N then Some (c - 55)%N
  else None.

Definition hex4 (a b c d : N) : option N :=
  match hex a, hex b, hex c, hex d with
  | Some x, Some y, Some z, Some w => Some (((x * 16 + y) * 16 + z) * 16 + w)%N
  | _, _, _, _ => None
  end.

Definition escape (c : N) : option N :=
  if (c =? 34)%N then Some 34%N          (* quote *)
  else if (c =? 92)%N then Some 92%N     (* backslash *)
  else if (c =? 47)%N then Some 47%N     (* slash *)
  else if (c =? 98)%N then Some 8%N      (* b *)
  else if (c =? 102)%N then Some 12%N    (* f *)
  else if (c =? 110)%N then Some 10%N    (* n *)
  else if (c =? 114)%N then Some 13%N    (* r *)
  else if (c =? 116)%N then Some 9%N     (* t *)
  else None.

(** The units of a string literal, from after its opening quote. *)
Fixpoint chars (s : jsstring) : option (jsstring * jsstring) :=
  match s with
  | [] => None
  | c :: s' =>
    if (c =? 34)%N then Some ([], s')
    else if (c =? 92)%N then
      match s' with
      | [] => None
      | e :: s'' =>
        if (e =? 117)%N then
          match s'' with
          | h1 :: h2 :: h3 :: h4 :: rest =>
            match hex4 h1 h2 h3 h4, chars rest with
            | Some u, Some (cs, r) => Some (u :: cs, r)
            | _, _ => None
            end
          | _ => None
          end
        else
          match escape e, chars s'' with
          | Some u, Some (cs, r) => Some (u :: cs, r)
          | _, _ => None
          end
      end
    else if (c <? 32)%N then None
    else match chars s' with
         | Some (cs, r) => Some (c :: cs, r)
         | None => None
         end
  end.

Section Containers.
(** The reader of one value, for the nesting depth at hand. *)
Variable value : jsstring -> option (JsVal * jsstring).

(** Elements after the first, up to the closing bracket. *)
Fixpoint elements (fuel : nat) (s : jsstring) (acc : list JsVal)
  : option (JsVal * jsstring) :=
  match fuel with
  | 0 => None
  | S fuel' =>
    match value s with
    | None => None
    | Some (v, r) =>
      match skip_ws r with
      | c :: r' =>
        if (c =? 44)%N then elements fuel' r' (acc ++ [v])
        else if (c =? 93)%N then Some (VArr (acc ++ [v]), r')
        else None
      | [] => None
      end
    end
  end.

Fixpoint members (fuel : nat) (s : jsstring) (acc : list (jsstring * JsVal))
  : option (JsVal * jsstring) :=
  match fuel with
  | 0 => None
  | S fuel' =>
    match skip_ws s with
    | q :: r0 =>
      if (q =? 34)%N then
        match chars r0 with
        | None => None
        | Some (key, r1) =>
          match skip_ws r1 with
          | colon :: r2 =>
            if (colon =? 58)%N then
              match value r2 with
              | None => None
              | Some (v, r3) =>
                match skip_ws r3 with
                | c :: r4 =>
                  if (c =? 44)%N then members fuel' r4 (acc ++ [(key, v)])
                  else if (c =? 125)%N then Some (VObj (acc ++ [(key, v)]), r4)
                  else None
                | [] => None
                end
              end
            else None
          | [] => None
          end
        end
      else None
    | [] => None
    end
  end.

End Containers.

(** One value, skipping the white space before it; [size] bounds the number
    of elements of a container, [depth] the nesting. *)
Fixpoint value (size depth : nat) (s : jsstring) : option (JsVal * jsstring) :=
  match depth with
  | 0 => None
  | S depth' =>
    match skip_ws s with
    | [] => None
    | c :: r =>
      if (c =? 123)%N then
        match skip_ws r with
        | c' :: r' =>
          if (c' =? 125)%N then Some (VObj [], r')
          else members (value size depth') size r []
        | [] => None
        end
      else if (c =? 91)%N then
        match skip_ws r with
        | c' :: r' =>
          if (c' =? 93)%N then Some (VArr [], r')
          else elements (value size depth') size r []
        | [] => None
        end
      else if (c =? 34)%N then
        match chars r with
        | Some (cs, r') => Some (VStr cs, r')
        | None => None
        end
      else if startsWith (c :: r) (lit "true") then Some (VBool true, skipn 4 (c :: r))
      else if startsWith (c :: r) (lit "false") then Some (VBool false, skipn 5 (c :: r))
      else if startsWith (c :: r) (lit "null") then Some (VNull, skipn 4 (c :: r))
      else match number (c :: r) with
           | Some (n, r') => Some (VNum n, r')
           | None => None
           end
    end
  end.

Definition parse (s : jsstring) : option JsVal :=
  match value (length s) (S (length s)) s with
  | Some (v, r) => match skip_ws r with [] => Some v | _ :: _ => None end
  | None => None
  end.

End Json.

#[export] Instance example_runtime : Runtime := {
  JSON_parse := Json.parse;
  ToString := fun _ => lit "[object Object]";
  Date_of := fun _ => InvalidDate;
  Date_now := fun _ => 0%Z;
  parseInt := fun _ => None;
  toLowerCase_wide := fun s => s;
  toLocaleString := fun _ => lit "1970/1/1 00:00:00"
}.

(* ===================================================================== *)
(** ** Predicates of the specification and example data *)
(* ===================================================================== *)

Module Spec.

(** [sub] occurs in [s]. *)
Definition substring (sub s : jsstring) : Prop :=
  exists pre post, s = pre ++ sub ++ post.

(** "Case-insensitive substring match against content, book title, chapter,
    and any tag". *)
Definition note_matches {rt : Runtime} (query : jsstring) (n : Notes.BookNote)
  : Prop :=
  let q := toLowerCase query in
  substring q (toLowerCase (Notes.content n))
  \/ substring q (toLowerCase (Notes.bookTitle n))
  \/ (exists c, Notes.chapter n = Some c /\ substring q (toLowerCase c))
  \/ (exists ts tag, Notes.tags n = Some ts /\ In tag ts
                     /\ substring q (toLowerCase tag)).

(** The invariant tying the two indexes: every annotation held in a stored
    bundle is what the flat index holds under its id. *)
Definition indexes_agree (st : NotesManager.Store) : Prop :=
  forall title book n,
    JsMap.get title (NotesManager.books st) = Some book ->
    In n (Notes.notes book) ->
    JsMap.get (Notes.id n) (NotesManager.notes st) = Some n.

(** The names collision suffixing tries, in order: [base], [base_1],
    [base_2], ... *)
Definition candidate (base : jsstring) (k : nat) : jsstring :=
  match k with
  | 0 => base
  | S _ => base ++ lit "_" ++ dec k
  end.

(** A stored bundle carries the title it is stored under, on itself and on
    every annotation of its notes list. *)
Definition stamped (title : jsstring) (b : Notes.ParsedBookData) : Prop :=
  Notes.title (Notes.metadata b) = title
  /\ Forall (fun n => Notes.bookTitle n = title) (Notes.notes b).

(** What one round of the loop over the notes keeps: the titles in the book
    index and their order, every other bundle, and the stamp of this one. *)
Definition same_books_but (bookTitle : jsstring) (len : nat)
  (st st' : NotesManager.Store) : Prop :=
  JsMap.keys (NotesManager.books st') = JsMap.keys (NotesManager.books st)
  /\ (forall other, other <> bookTitle ->
                    JsMap.get other (NotesManager.books st')
                    = JsMap.get other (NotesManager.books st))
  /\ exists b', JsMap.get bookTitle (NotesManager.books st') = Some b'
                /\ stamped bookTitle b'
                /\ length (Notes.notes b') = len.

(** Ascending by a key. *)
Definition key_le {A} (key : A -> Z) (a b : A) : Prop := (key a <= key b)%Z.

(** The flat index after the annotations of [l] were added one by one. *)
Definition add_all (l : list Notes.BookNote) (m : JsMap.t Notes.BookNote)
  : JsMap.t Notes.BookNote :=
  fold_left (fun m n => JsMap.set (Notes.id n) n m) l m.

(** An element of [notes] that the JSON path reads without a throw: it is
    not [null], and what it holds under [type], [createdAt] and [date] can be
    converted to a primitive. *)
Definition element_ok (e : JsVal) : Prop :=
  nullish e = false
  /\ forall key v,
       In key [lit "type"; lit "createdAt"; lit "date"] ->
       prop e key = Ok v -> ToPrimitive_returns v = true.

(** When [JSON.parse] reads the input, the decoded value is not [null] and
    every element of its [notes] array is read without a throw. *)
Definition json_shape_ok {rt : Runtime} (input : jsstring) : Prop :=
  forall data,
    JSON_parse input = Some data ->
    nullish data = false
    /\ forall elems, prop data (lit "notes") = Ok (VArr elems) ->
                     Forall element_ok elems.

(** Every non-blank line that splits into two columns or more has at least
    as many columns as the first line has comma-separated pieces. *)
Definition csv_rows_ok (input : jsstring) : Prop :=
  forall first rest line,
    Parsed.nonblank_lines input = first :: rest ->
    In line (first :: rest) ->
    2 <= length (WeChatParser.columns_of line [] false []) ->
    length (split COMMA first) <= length (WeChatParser.columns_of line [] false []).

(** The placeholder bundle: title "Unknown Book", no annotation. *)
Definition is_placeholder (b : Parsed.ParsedBookData) : Prop :=
  Parsed.title (Parsed.metadata b) = VStr (lit "Unknown Book")
  /\ Parsed.notes b = [].

(** An annotation whose content is a non-empty string. *)
Definition has_content (n : Parsed.BookNote) : Prop :=
  exists s, Parsed.content n = VStr s /\ s <> [].

(** The content the JSON path gives an element of [notes]:
    [note.content || note.text || '']. *)
Definition json_content (note : JsVal) : Result JsVal :=
  prop note (lit "content") <||> prop note (lit "text") <||> Ok (VStr []).

(** The texts between the content tags of the [<note>...</note>] matches
    that hold a content element, in the order of the matches. *)
Definition xml_contents (input : jsstring) : list jsstring :=
  flat_map (fun noteMatch =>
              match Regex.exec (DuokanParser.element "content")
                      (Regex.text noteMatch) with
              | Some contentMatch => [Regex.group1 contentMatch]
              | None => []
              end)
    (Regex.exec_all DuokanParser.note_element input).

(** The two indexes hold the same annotations.  Every entry of the flat
    index is stored under its own id and occurs in the bundle named by its
    [bookTitle]; every bundle carries the title it is stored under, has no
    two annotations of one id, and each of its annotations is what the flat
    index holds under its id. *)
Definition consistent (st : NotesManager.Store) : Prop :=
  (forall k n,
      JsMap.get k (NotesManager.notes st) = Some n ->
      Notes.id n = k
      /\ exists book,
           JsMap.get (Notes.bookTitle n) (NotesManager.books st) = Some book
           /\ In n (Notes.notes book))
  /\ (forall title book,
        JsMap.get title (NotesManager.books st) = Some book ->
        stamped title book
        /\ NoDup (map Notes.id (Notes.notes book))
        /\ forall n, In n (Notes.notes book) ->
                     JsMap.get (Notes.id n) (NotesManager.notes st) = Some n).

Definition same_source (a b : Notes.Source) : bool :=
  match a, b with
  | Notes.duokan, Notes.duokan | Notes.wechat, Notes.wechat
  | Notes.manual, Notes.manual | Notes.ocr, Notes.ocr => true
  | _, _ => false
  end.

Definition same_type (a b : Notes.NoteType) : bool :=
  match a, b with
  | Notes.highlight, Notes.highlight | Notes.note, Notes.note
  | Notes.bookmark, Notes.bookmark => true
  | _, _ => false
  end.

(** How many elements of a list pass a test. *)
Definition how_many {A} (p : A -> bool) (l : list A) : nat := length (filter p l).

(** The lines that the text path of [DuokanParser] keeps as annotations:
    longer than five units, without the labels of title and author and
    without the words of a file header, not a chapter heading, and not a
    number. *)
Definition note_line (line : jsstring) : bool :=
  (5 <? length line)
  && negb (includes line (lit "书名"))
  && negb (includes line (lit "作者"))
  && negb (includes line (lit "读书笔记"))
  && negb (startsWith line (lit "第") && includes line (lit "章"))
  && negb (forallb is_digit line).

(** One of the three kinds of annotation, as a string. *)
Definition is_kind (v : JsVal) : Prop :=
  v = Parsed.str "highlight" \/ v = Parsed.str "note" \/ v = Parsed.str "bookmark".

(** Indexes that grow: each is at least [lo] and above the one before. *)
Fixpoint ascending_from (lo : nat) (ks : list nat) : Prop :=
  match ks with
  | [] => True
  | k :: rest => lo <= k /\ ascending_from (S k) rest
  end.

(** The ids of [notes] are the ids a parser builds from [prefix] and from
    growing indexes, the first at least [lo]. *)
Definition numbered {rt : Runtime} (prefix : string) (lo : nat)
  (notes : list Parsed.BookNote) : Prop :=
  exists ks,
    map Parsed.id notes = map (Parsed.fresh_id prefix) ks
    /\ ascending_from lo ks.

(** The time value of a valid creation date. *)
Definition created_ms (n : Notes.BookNote) : Z :=
  match Notes.createdAt n with TimeValue ms => ms | InvalidDate => 0%Z end.

Definition valid_date (n : Notes.BookNote) : Prop :=
  exists ms, Notes.createdAt n = TimeValue ms.

(** The chapter a note is grouped under: [note.chapter || '未分类']. *)
Definition chapter_label (n : Notes.BookNote) : jsstring :=
  match Notes.chapter n with
  | Some c => if truthy_str c then c else MarkdownFormatter.uncategorized
  | None => MarkdownFormatter.uncategorized
  end.

(** The notes of a list that are grouped under [c], in their order. *)
Definition of_chapter (c : jsstring) (notes : list Notes.BookNote)
  : list Notes.BookNote :=
  filter (fun n => str_eqb (chapter_label n) c) notes.

(** Every unit of the class [p] gives way to [rep]. *)
Definition each_replaced (p : N -> bool) (rep s : jsstring) : jsstring :=
  flat_map (fun c => if p c then rep else [c]) s.

(** Every maximal run of units of the class [p] gives way to one [rep];
    [in_run] tells that the unit before was of the class. *)
Fixpoint runs_replaced (p : N -> bool) (rep : jsstring) (in_run : bool)
  (s : jsstring) : jsstring :=
  match s with
  | [] => []
  | c :: s' =>
    if p c then (if in_run then [] else rep) ++ runs_replaced p rep true s'
    else c :: runs_replaced p rep false s'
  end.

(** Where a maximal run of the class [p] ends: at the end of the string or
    before a unit that is not of the class. *)
Definition run_ends (p : N -> bool) (post : jsstring) : Prop :=
  match post with [] => True | c :: _ => p c = false end.

(** A file name without a reserved character and without white space. *)
Definition safe_name (s : jsstring) : Prop :=
  Forall (fun c => NotesManager.reserved c = false /\ is_space c = false) s.

(** The counters after each element of [l] was counted under its key. *)
Definition counted {A} (key : A -> jsstring) (l : list A) (m : JsMap.t nat)
  : JsMap.t nat :=
  fold_left (fun m x => NotesManager.bump (key x) m) l m.

(** A counter as an object shows it: absent when nothing was counted. *)
Definition shown (c : nat) : option nat :=
  match c with 0 => None | S _ => Some c end.

(** The annotation of an incoming bundle as the flat index receives it:
    with the resolved title and under the id it was given. *)
Definition received (title : jsstring) (n : Notes.BookNote) (k : jsstring)
  : Notes.BookNote :=
  Notes.with_id (Notes.with_bookTitle n title) k.

End Spec.

Module Examples.

(** A JSON text written with ['] where the text has the double quote. *)
Definition quoted (s : string) : jsstring :=
  map (fun c => if (c =? 39)%N then DQUOTE else c) (lit s).

Definition a_note (id title content : string) (kind : Notes.NoteType)
  (chapter : option jsstring) : Notes.BookNote :=
  {| Notes.id := lit id; Notes.bookTitle := lit title; Notes.bookAuthor := None;
     Notes.noteType := kind; Notes.content := lit content;
     Notes.position := None; Notes.location := None; Notes.chapter := chapter;
     Notes.createdAt := TimeValue 0; Notes.updatedAt := None;
     Notes.tags := None; Notes.color := None; Notes.source := Notes.manual |}.

Definition a_bundle (title : string) (notes : list Notes.BookNote)
  : Notes.ParsedBookData :=
  {| Notes.metadata :=
       {| Notes.title := lit title; Notes.author := None; Notes.isbn := None;
          Notes.coverImage := None; Notes.totalNotes := length notes;
          Notes.lastSyncDate := None |};
     Notes.notes := notes |}.

Definition no_updates : Notes.Updates :=
  {| Notes.u_id := None; Notes.u_bookTitle := None; Notes.u_bookAuthor := None;
     Notes.u_noteType := None; Notes.u_content := None; Notes.u_position := None;
     Notes.u_location := None; Notes.u_chapter := None; Notes.u_createdAt := None;
     Notes.u_tags := None; Notes.u_color := None; Notes.u_source := None |}.

(** A store holding one book with two annotations. *)
Definition js_tips : Notes.BookNote :=
  a_note "n1" "Book" "JavaScript tips" Notes.highlight None.
Definition py_tips : Notes.BookNote :=
  a_note "n2" "Book" "Python data" Notes.note None.

Definition a_store : NotesManager.Store :=
  {| NotesManager.notes := [(lit "n1", js_tips); (lit "n2", py_tips)];
     NotesManager.books := [(lit "Book", a_bundle "Book" [js_tips; py_tips])] |}.

(** Two annotations of one incoming bundle that share the id "dup". *)
Definition dup_first : Notes.BookNote :=
  a_note "dup" "T" "first" Notes.highlight None.
Definition dup_second : Notes.BookNote :=
  a_note "dup" "T" "second" Notes.note None.

(** Two annotations whose chapters are out of order. *)
Definition in_chapter_b : Notes.BookNote :=
  a_note "n1" "Book" "one" Notes.note (Some (lit "b")).
Definition in_chapter_a : Notes.BookNote :=
  a_note "n2" "Book" "two" Notes.note (Some (lit "a")).

Definition plain_by_chapter : MarkdownFormatter.FormatOptions :=
  {| MarkdownFormatter.includeMetadata := Some false;
     MarkdownFormatter.includeLocation := None;
     MarkdownFormatter.includeTags := None;
     MarkdownFormatter.groupByChapter := None;
     MarkdownFormatter.sortBy := Some MarkdownFormatter.chapter |}.

(** A store that holds a book titled "X_1" and none titled "X". *)
Definition holds_X_1 : NotesManager.Store :=
  {| NotesManager.notes := [];
     NotesManager.books := [(lit "X_1", a_bundle "X_1" [])] |}.

(** Three bundles parsed with the title "X". *)
Definition titled_X (content : string) : Notes.ParsedBookData :=
  a_bundle "X" [a_note "a" "X" content Notes.highlight None].

(** A JSON export with two annotations. *)
Definition json_export : jsstring :=
  quoted "{'title':'Book','duokan':true,'notes':[{'content':'one'},{'text':'two'}]}".


(** Three notes at positions 2, 1 and 2, created at times 30, 20 and 10. *)
Definition positioned (id : string) (position created : Z) : Notes.BookNote :=
  {| Notes.id := lit id; Notes.bookTitle := lit "Book"; Notes.bookAuthor := None;
     Notes.noteType := Notes.note; Notes.content := lit id;
     Notes.position := Some position; Notes.location := None;
     Notes.chapter := None; Notes.createdAt := TimeValue created;
     Notes.updatedAt := None; Notes.tags := None; Notes.color := None;
     Notes.source := Notes.manual |}.

Definition three_positions : list Notes.BookNote :=
  [positioned "a" 2 30; positioned "b" 1 20; positioned "c" 2 10].

(** A free text with a title line, a note, a page number, a chapter
    heading, a short line and another note. *)
Definition duokan_text : jsstring := lit "书名：沉思录
人应当安于自己的本性
1234567
第三章 论宁静的心
太短
不要让未来的事困扰你".


(** The broken JSON text of the repository's test of malformed input, and
    the same text with another author. *)
Definition broken_json : jsstring :=
  quoted "{'bookTitle': '测试', 'author': '作者', 'notes': [".

Definition broken_json_ann : jsstring :=
  quoted "{'bookTitle': '测试', 'author': 'Ann', 'notes': [".

(** A tagged text whose only note has an empty content element. *)
Definition empty_content_xml : jsstring :=
  lit "<notes><note><content></content></note></notes>".

(** Updates that only give the annotation another id. *)
Definition rename_to (newId : string) : Notes.Updates :=
  {| Notes.u_id := Some (lit newId); Notes.u_bookTitle := None;
     Notes.u_bookAuthor := None; Notes.u_noteType := None;
     Notes.u_content := None; Notes.u_position := None;
     Notes.u_location := None; Notes.u_chapter := None;
     Notes.u_createdAt := None; Notes.u_tags := None; Notes.u_color := None;
     Notes.u_source := None |}.

(** A text in the marker format of WeChat Reading. *)
Definition wechat_text : jsstring := lit "微信读书
划线
读书使人明智而充实".


End Examples.

(* ===================================================================== *)
(** * Properties *)
(* ===================================================================== *)

(** ** Strings *)

Example lit_ascii : lit "a,b" = [97; 44; 98]%N.
Proof. reflexivity. Qed.

Example lit_cjk : lit "书名" = [20070; 21517]%N.
Proof. reflexivity. Qed.

Lemma str_eqb_eq (a b : jsstring) : str_eqb a b = true <-> a = b.
Proof.
  revert b; induction a as [|x a IH]; intros [|y b]; simpl; split;
    try congruence; try reflexivity.
  - intros H. apply andb_true_iff in H as [Hx Hab].
    apply N.eqb_eq in Hx. apply IH in Hab. congruence.
  - intros H. injection H as -> ->.
    rewrite N.eqb_refl. simpl. now apply IH.
Qed.

Lemma str_eqb_refl (a : jsstring) : str_eqb a a = true.
Proof. now apply str_eqb_eq. Qed.

Lemma str_eqb_neq (a b : jsstring) : str_eqb a b = false <-> a <> b.
Proof.
  split.
  - intros H E. apply str_eqb_eq in E. congruence.
  - intros H. destruct (str_eqb a b) eqn:E; [|reflexivity].
    apply str_eqb_eq in E. contradiction.
Qed.

Lemma str_eqb_sym (a b : jsstring) : str_eqb a b = str_eqb b a.
Proof.
  destruct (str_eqb a b) eqn:E.
  - apply str_eqb_eq in E. subst. symmetry. apply str_eqb_refl.
  - symmetry. apply str_eqb_neq. apply str_eqb_neq in E. congruence.
Qed.

(** [startsWith] and [includes] decide "is a prefix" and "is a substring". *)
Lemma startsWith_spec (s p : jsstring) :
  startsWith s p = true <-> exists post, s = p ++ post.
Proof.
  revert s; induction p as [|x p IH]; intros s; simpl.
  - split; [intros _; now exists s | intros _; destruct s; reflexivity].
  - destruct s as [|y s]; simpl.
    + split; [discriminate | intros [post H]; discriminate].
    + rewrite andb_true_iff, N.eqb_eq, IH. split.
      * intros [-> [post ->]]. now exists post.
      * intros [post H]. injection H as -> ->. split; [reflexivity | now exists post].
Qed.

Lemma includes_spec (s sub : jsstring) :
  includes s sub = true <-> Spec.substring sub s.
Proof.
  unfold Spec.substring. induction s as [|c s IH]; cbn [includes].
  - rewrite orb_false_r, startsWith_spec. split.
    + intros [post H]. now exists [], post.
    + intros [pre [post H]]. destruct pre; [now exists post | discriminate].
  - rewrite orb_true_iff, startsWith_spec, IH. split.
    + intros [[post H] | [pre [post H]]].
      * now exists [], post.
      * exists (c :: pre), post. simpl. now rewrite H.
    + intros [[|x pre] [post H]].
      * left. now exists post.
      * right. injection H as -> ->. now exists pre, post.
Qed.

Lemma includes_empty (s : jsstring) : includes s [] = true.
Proof. destruct s; reflexivity. Qed.

Lemma includes_of_empty (t : jsstring) : includes [] t = true -> t = [].
Proof. destruct t; simpl; [reflexivity | discriminate]. Qed.

(** ** Maps *)

Section MapFacts.
Variable V : Type.
Implicit Types (m : JsMap.t V) (k : jsstring) (v : V).

Lemma get_set_same m k v : JsMap.get k (JsMap.set k v m) = Some v.
Proof.
  induction m as [|[k' v'] m IH]; simpl.
  - now rewrite str_eqb_refl.
  - destruct (str_eqb k' k) eqn:E; simpl.
    + now rewrite str_eqb_refl.
    + now rewrite E.
Qed.

Lemma get_set_other m k k' v :
  k <> k' -> JsMap.get k' (JsMap.set k v m) = JsMap.get k' m.
Proof.
  intros Hne. induction m as [|[k0 v0] m IH]; simpl.
  - apply str_eqb_neq in Hne. now rewrite Hne.
  - destruct (str_eqb k0 k) eqn:E; simpl.
    + apply str_eqb_eq in E. subst k0.
      apply str_eqb_neq in Hne. now rewrite Hne.
    + now rewrite IH.
Qed.

Lemma has_set_other m k k' v :
  k <> k' -> JsMap.has k' (JsMap.set k v m) = JsMap.has k' m.
Proof. intros H. unfold JsMap.has. now rewrite get_set_other. Qed.

Lemma has_set_same m k v : JsMap.has k (JsMap.set k v m) = true.
Proof. unfold JsMap.has. now rewrite get_set_same. Qed.

Lemma has_keys m k : JsMap.has k m = true <-> In k (JsMap.keys m).
Proof.
  unfold JsMap.has. induction m as [|[k' v'] m IH]; simpl.
  - split; [discriminate | contradiction].
  - destruct (str_eqb k' k) eqn:E.
    + apply str_eqb_eq in E. split; [now left | reflexivity].
    + apply str_eqb_neq in E. rewrite IH. split; [now right | intros [H|H]; congruence].
Qed.

Lemma keys_set_new m k v :
  JsMap.has k m = false -> JsMap.keys (JsMap.set k v m) = JsMap.keys m ++ [k].
Proof.
  unfold JsMap.has. induction m as [|[k' v'] m IH]; simpl; [reflexivity|].
  destruct (str_eqb k' k) eqn:E; [discriminate|].
  intros H. simpl. now rewrite IH.
Qed.

Lemma keys_set_old m k v :
  JsMap.has k m = true -> JsMap.keys (JsMap.set k v m) = JsMap.keys m.
Proof.
  unfold JsMap.has. induction m as [|[k' v'] m IH]; simpl; [discriminate|].
  destruct (str_eqb k' k) eqn:E; simpl.
  - apply str_eqb_eq in E. now subst.
  - intros H. now rewrite IH.
Qed.

Lemma get_delete_same m k : JsMap.get k (JsMap.delete k m) = None.
Proof.
  induction m as [|[k' v'] m IH]; simpl; [reflexivity|].
  destruct (str_eqb k' k) eqn:E; simpl; [exact IH | now rewrite E].
Qed.

Lemma get_delete_none m k k' :
  JsMap.get k' m = None -> JsMap.get k' (JsMap.delete k m) = None.
Proof.
  induction m as [|[k0 v0] m IH]; simpl; [reflexivity|].
  destruct (str_eqb k0 k') eqn:E; [discriminate|].
  intros H. destruct (str_eqb k0 k); simpl; [now apply IH|].
  rewrite E. now apply IH.
Qed.

End MapFacts.

(** ** The notes manager: lookups that fail, search, deletion *)

(** C9. For a [noteId] that the flat index does not hold, [updateNote] and
    [deleteNote] both return [false] and hand back the store they were given:
    no annotation is modified or stamped, no bundle changes, both indexes
    keep their entries. *)
Theorem unknown_note_id_changes_nothing
  (st : NotesManager.Store) (noteId : jsstring) (updates : Notes.Updates)
  (stamp : Date) :
  NotesManager.getNoteById st noteId = None ->
  NotesManager.updateNote st noteId updates stamp = (st, false)
  /\ NotesManager.deleteNote st noteId = (st, false).
Proof.
  unfold NotesManager.getNoteById, NotesManager.updateNote, NotesManager.deleteNote.
  intros ->. split; reflexivity.
Qed.

Lemma unknown_note_id_changes_nothing_witness :
  NotesManager.getNoteById Examples.a_store (lit "n3") = None
  /\ NotesManager.updateNote Examples.a_store (lit "n3") Examples.no_updates
       (TimeValue 5) = (Examples.a_store, false)
  /\ NotesManager.deleteNote Examples.a_store (lit "n3") = (Examples.a_store, false).
Proof.
  split; [reflexivity|].
  apply (unknown_note_id_changes_nothing Examples.a_store (lit "n3")
           Examples.no_updates (TimeValue 5)).
  reflexivity.
Defined.

Section Search.
Context {rt : Runtime}.

Lemma toLowerCase_empty : toLowerCase [] = [].
Proof. reflexivity. Qed.

Lemma matches_spec (query : jsstring) (n : Notes.BookNote) :
  NotesManager.matches (toLowerCase query) n = true <-> Spec.note_matches query n.
Proof.
  unfold NotesManager.matches, Spec.note_matches. cbv zeta.
  rewrite !orb_true_iff, !includes_spec.
  split.
  - intros [[[H|H]|H]|H]; auto.
    + destruct (Notes.chapter n) as [c|]; [|discriminate].
      apply andb_true_iff in H as [_ H]. apply includes_spec in H.
      right; right; left. now exists c.
    + destruct (Notes.tags n) as [ts|]; [|discriminate].
      apply existsb_exists in H as [tag [Hin H]]. apply includes_spec in H.
      right; right; right. now exists ts, tag.
  - intros [H|[H|[[c [Hc H]]|[ts [tag [Hts [Hin H]]]]]]]; auto.
    + rewrite Hc. destruct c as [|x c].
      * (* an empty chapter only contains the empty term, which the content
           contains as well *)
        left; left; left.
        apply includes_spec in H. rewrite toLowerCase_empty in H.
        apply includes_of_empty in H. rewrite H.
        apply includes_spec, includes_empty.
      * left; right. simpl. now apply includes_spec.
    + right. rewrite Hts. apply existsb_exists. exists tag.
      split; [assumption | now apply includes_spec].
Qed.

End Search.

(** C8. [searchNotes] returns an annotation exactly when the flat index
    holds it and the lower-cased query occurs in its lower-cased content, book
    title, chapter (when present) or one of its tags; so the annotation with
    content "JavaScript tips" is found by "javascript" and not by "Python". *)
Theorem searchNotes_finds_exactly_the_matches :
  forall (rt : Runtime),
    (forall st query n,
        In n (NotesManager.searchNotes st query)
        <-> In n (NotesManager.getAllNotes st) /\ Spec.note_matches query n)
    /\ In Examples.js_tips (NotesManager.searchNotes Examples.a_store (lit "javascript"))
    /\ ~ In Examples.js_tips (NotesManager.searchNotes Examples.a_store (lit "Python")).
Proof.
  intros rt. split; [|split].
  - intros st query n. unfold NotesManager.searchNotes, NotesManager.getAllNotes.
    cbv zeta. rewrite filter_In, matches_spec. reflexivity.
  - vm_compute. left. reflexivity.
  - vm_compute. intros [H|[]]. discriminate H.
Qed.

(** C10. The empty query matches every annotation: [searchNotes] returns the
    whole flat index, in its order. *)
Theorem search_with_empty_query_returns_all :
  forall (rt : Runtime) (st : NotesManager.Store),
    NotesManager.searchNotes st [] = NotesManager.getAllNotes st.
Proof.
  intros rt st. unfold NotesManager.searchNotes, NotesManager.getAllNotes.
  cbv zeta. rewrite toLowerCase_empty.
  induction (JsMap.values (NotesManager.notes st)) as [|n l IH]; [reflexivity|].
  simpl. unfold NotesManager.matches at 1. rewrite includes_empty. simpl.
  now rewrite IH.
Qed.

Lemma delete_each_keeps_none (l : list Notes.BookNote)
  (m : JsMap.t Notes.BookNote) (k : jsstring) :
  JsMap.get k m = None ->
  JsMap.get k (fold_left (fun m note => JsMap.delete (Notes.id note) m) l m) = None.
Proof.
  revert m. induction l as [|x l IH]; intros m H; simpl; [assumption|].
  apply IH. now apply get_delete_none.
Qed.

Lemma delete_each_removes (l : list Notes.BookNote)
  (m : JsMap.t Notes.BookNote) (n : Notes.BookNote) :
  In n l ->
  JsMap.get (Notes.id n)
    (fold_left (fun m note => JsMap.delete (Notes.id note) m) l m) = None.
Proof.
  revert m. induction l as [|x l IH]; intros m Hin; simpl; [contradiction|].
  destruct Hin as [->|Hin].
  - apply delete_each_keeps_none, get_delete_same.
  - now apply IH.
Qed.

(** C5. [deleteBook] of a stored title returns [true], and afterwards the
    flat index answers [undefined] for the id of every annotation of that
    bundle's notes list (and the book index no longer holds the title);
    [deleteBook] of any other title returns [false] and hands back the store
    unchanged. *)
Theorem deleteBook_removes_the_notes_of_the_book
  (st : NotesManager.Store) (bookTitle : jsstring) :
  (forall book,
      NotesManager.getBook st bookTitle = Some book ->
      exists st',
        NotesManager.deleteBook st bookTitle = (st', true)
        /\ (forall n, In n (Notes.notes book) ->
                      NotesManager.getNoteById st' (Notes.id n) = None)
        /\ NotesManager.getBook st' bookTitle = None)
  /\ (NotesManager.getBook st bookTitle = None ->
      NotesManager.deleteBook st bookTitle = (st, false)).
Proof.
  unfold NotesManager.getBook, NotesManager.deleteBook, NotesManager.getNoteById.
  split.
  - intros book ->. eexists. split; [reflexivity|].
    cbn [NotesManager.notes NotesManager.books]. split.
    + intros n Hin. now apply delete_each_removes.
    + apply get_delete_same.
  - intros ->. reflexivity.
Qed.

Lemma deleteBook_removes_the_notes_of_the_book_witness :
  (exists st',
      NotesManager.deleteBook Examples.a_store (lit "Book") = (st', true)
      /\ NotesManager.getNoteById st' (lit "n1") = None
      /\ NotesManager.getNoteById st' (lit "n2") = None
      /\ NotesManager.getBook st' (lit "Book") = None)
  /\ NotesManager.deleteBook Examples.a_store (lit "Other")
     = (Examples.a_store, false).
Proof.
  split.
  - destruct (deleteBook_removes_the_notes_of_the_book Examples.a_store (lit "Book"))
      as [Hpresent _].
    destruct (Hpresent (Examples.a_bundle "Book" [Examples.js_tips; Examples.py_tips])
                eq_refl) as [st' [Hdel [Hnotes Hbook]]].
    exists st'. split; [exact Hdel|]. split; [|split; [|exact Hbook]].
    + apply (Hnotes Examples.js_tips). left; reflexivity.
    + apply (Hnotes Examples.py_tips). right; left; reflexivity.
  - destruct (deleteBook_removes_the_notes_of_the_book Examples.a_store (lit "Other"))
      as [_ Habsent].
    apply Habsent. reflexivity.
Defined.

(** ** Ingestion of a bundle with a repeated id *)

(** C1 (the code departs from it). Storing, into the empty store, one
    bundle whose two annotations share the id "dup": the flat index gets
    "dup" for the first and "dup_1" for the second, but the write-back into
    the bundle looks the position up by the original id and finds the first
    slot both times.  The bundle ends with the second annotation twice, once
    under "dup_1" and once under "dup", while the flat index holds the first
    annotation under "dup": the two indexes disagree. *)
Theorem repeated_id_in_a_bundle_breaks_the_indexes :
  exists st,
    NotesManager.storeParsedData NotesManager.empty
      (Examples.a_bundle "T" [Examples.dup_first; Examples.dup_second]) = Some st
    /\ NotesManager.getNotesByBook st (lit "T")
       = [Notes.with_id Examples.dup_second (lit "dup_1"); Examples.dup_second]
    /\ NotesManager.getNoteById st (lit "dup") = Some Examples.dup_first
    /\ NotesManager.getNoteById st (lit "dup_1")
       = Some (Notes.with_id Examples.dup_second (lit "dup_1"))
    /\ ~ Spec.indexes_agree st.
Proof.
  eexists. split; [vm_compute; reflexivity|].
  split; [reflexivity|]. split; [reflexivity|]. split; [reflexivity|].
  intros Hagree.
  specialize (Hagree (lit "T") _ Examples.dup_second eq_refl
                (or_intror (or_introl eq_refl))).
  vm_compute in Hagree. discriminate Hagree.
Qed.

(** ** Sorting before rendering *)

(** C6 (the code departs from it). With [sortBy = 'chapter'] neither branch
    of the sort runs: the notes are rendered in the order they were given.
    Two notes of chapters "b" and "a" come out with "b" first. *)
Theorem sort_by_chapter_leaves_the_order :
  forall (rt : Runtime),
    (forall notes, MarkdownFormatter.sortedNotes MarkdownFormatter.chapter notes = notes)
    /\ MarkdownFormatter.format [Examples.in_chapter_b; Examples.in_chapter_a]
         Examples.plain_by_chapter
       = lit "# 读书笔记" ++ MarkdownFormatter.nl ++ MarkdownFormatter.nl
         ++ MarkdownFormatter.formatNote true true 0 Examples.in_chapter_b
         ++ MarkdownFormatter.formatNote true true 1 Examples.in_chapter_a.
Proof.
  intros rt. split; [reflexivity|].
  unfold MarkdownFormatter.format. cbn -[MarkdownFormatter.formatNote lit app].
  unfold MarkdownFormatter.body, MarkdownFormatter.formatNotes.
  simpl MarkdownFormatter.formatNotes_from.
  rewrite app_nil_r. reflexivity.
Qed.

(** ** The parsers *)

Section ParserFacts.
Context {rt : Runtime}.



End ParserFacts.


Lemma bind_ok {A B} (m : Result A) (f : A -> Result B) (b : B) :
  bind m f = Ok b -> exists a, m = Ok a /\ f a = Ok b.
Proof. destruct m as [a|e]; simpl; [intros H; now exists a | discriminate]. Qed.

Ltac bind_inv H :=
  let a := fresh "v" in
  let E := fresh "E" in
  apply bind_ok in H; destruct H as [a [E H]].

Lemma each_Forall {A B} (P : B -> Prop) (f : nat -> A -> Result (list B)) :
  (forall i x l, f i x = Ok l -> Forall P l) ->
  forall xs i l, Parsed.each f i xs = Ok l -> Forall P l.
Proof.
  intros Hf. induction xs as [|x xs IH]; intros i l H; simpl in H.
  - injection H as <-. constructor.
  - bind_inv H. bind_inv H. injection H as <-.
    apply Forall_app. split; [eapply Hf; eassumption | eapply IH; eassumption].
Qed.

Lemma truthy_str_nonempty (s : jsstring) : truthy_str s = true -> s <> [].
Proof. destruct s; [discriminate | discriminate]. Qed.

Section ContentFacts.
Context {rt : Runtime}.

Lemma duokan_note_line_nonempty (line : jsstring) :
  DuokanParser.is_note_line line = true -> line <> [].
Proof.
  unfold DuokanParser.is_note_line.
  destruct (includes line (lit "书名") || includes line (lit "作者")); [discriminate|].
  destruct (startsWith line (lit "第") && includes line (lit "章")); [discriminate|].
  destruct (Regex.test DuokanParser.all_digits line); [discriminate|].
  destruct line; [discriminate | discriminate].
Qed.

Lemma duokan_scan_lines_content (title author : jsstring) (lines : list jsstring) :
  forall noteIndex,
    Forall Spec.has_content (DuokanParser.scan_lines title author noteIndex lines).
Proof.
  induction lines as [|raw rest IH]; intros noteIndex; simpl; [constructor|].
  destruct (DuokanParser.is_note_line (trim raw)) eqn:E; [|apply IH].
  constructor; [|apply IH].
  exists (trim raw). split; [reflexivity | now apply duokan_note_line_nonempty].
Qed.

Lemma present_nonempty (l : option jsstring) (ok : jsstring -> bool) (s : jsstring) :
  WeChatParser.present l ok = Some s -> s <> [].
Proof.
  unfold WeChatParser.present. destruct l as [x|]; [|discriminate].
  destruct (truthy_str x) eqn:E; simpl; [|discriminate].
  destruct (ok x); [|discriminate].
  intros H. injection H as <-. now apply truthy_str_nonempty.
Qed.

Lemma text_note_content prefix title author k kind content chapter location i created :
  content <> [] ->
  Spec.has_content
    (WeChatParser.text_note prefix title author k kind content chapter location i created).
Proof. intros H. exists content. split; [reflexivity | assumption]. Qed.

Lemma marker_block_content lines title author chapter line marked ok kind location c :
  Forall Spec.has_content (WeChatParser.cur_pushed c) ->
  Forall Spec.has_content
    (WeChatParser.cur_pushed
       (WeChatParser.marker_block lines title author chapter line marked ok kind
          location c)).
Proof.
  intros Hc. unfold WeChatParser.marker_block.
  destruct marked; [|assumption].
  destruct (WeChatParser.present _ ok) as [nextLine|] eqn:E; [|assumption].
  cbn [WeChatParser.cur_pushed]. apply Forall_app. split; [assumption|].
  constructor; [|constructor].
  apply text_note_content. eapply present_nonempty; eassumption.
Qed.

Lemma format_loop_content (lines : list jsstring) (title author : jsstring) :
  forall fuel chapter i noteIndex,
    Forall Spec.has_content
      (WeChatParser.format_loop fuel lines title author chapter i noteIndex).
Proof.
  induction fuel as [|fuel IH]; intros chapter i noteIndex; simpl; [constructor|].
  destruct (WeChatParser.line_at lines i) as [line|]; [|constructor].
  destruct (includes line (lit "章节")
            || includes line (lit "第") && includes line (lit "章")); [apply IH|].
  apply Forall_app. split; [|apply IH].
  repeat apply marker_block_content. constructor.
Qed.

Lemma inline_content_ok title author chapter noteIndex i kind content :
  Forall Spec.has_content
    (WeChatParser.inline title author chapter noteIndex i kind content).
Proof.
  unfold WeChatParser.inline. destruct (truthy_str content) eqn:E; [|constructor].
  constructor; [|constructor].
  apply text_note_content. now apply truthy_str_nonempty.
Qed.

Lemma text_loop_content (lines : list jsstring) (title author : jsstring) :
  forall fuel chapter i noteIndex,
    Forall Spec.has_content
      (WeChatParser.text_loop fuel lines title author chapter i noteIndex).
Proof.
  induction fuel as [|fuel IH]; intros chapter i noteIndex; simpl; [constructor|].
  destruct (WeChatParser.line_at lines i) as [line|]; [|constructor].
  destruct (includes line (lit "章节：")
            || startsWith line (lit "第") && includes line (lit "章")).
  { apply IH. }
  destruct (includes line (lit "划线：")).
  { apply Forall_app. split; [apply inline_content_ok | apply IH]. }
  destruct (includes line (lit "想法：")).
  { apply Forall_app. split; [apply inline_content_ok | apply IH]. }
  destruct (includes line (lit "书签：")).
  { apply Forall_app. split; [apply inline_content_ok | apply IH]. }
  destruct (if includes line (lit "划线") || includes line (lit "想法")
               || includes line (lit "书签")
            then WeChatParser.present (WeChatParser.line_at lines (S i))
                   WeChatParser.next_is_content
            else None) as [nextLine|] eqn:E.
  - constructor; [|apply IH].
    apply text_note_content.
    destruct (includes line (lit "划线") || includes line (lit "想法")
              || includes line (lit "书签")); [|discriminate].
    eapply present_nonempty; eassumption.
  - apply IH.
Qed.

Lemma csv_row_content (headers : list jsstring) (i : nat) (line : jsstring)
  (l : list Parsed.BookNote) :
  WeChatParser.csv_row headers i line = Ok l -> Forall Spec.has_content l.
Proof.
  unfold WeChatParser.csv_row. cbv zeta.
  destruct (2 <=? length (WeChatParser.columns_of line [] false [])).
  - intros H. bind_inv H. bind_inv H. bind_inv H.
    destruct (truthy_str v) eqn:Ev.
    + injection H as <-. constructor; [|constructor].
      exists v. split; [reflexivity | now apply truthy_str_nonempty].
    + injection H as <-. constructor.
  - intros H. injection H as <-. constructor.
Qed.

Lemma each_Forall2 {A B} (R : A -> B -> Prop) (f : nat -> A -> Result (list B)) :
  (forall i x l, f i x = Ok l -> exists y, l = [y] /\ R x y) ->
  forall xs i l, Parsed.each f i xs = Ok l -> Forall2 R xs l.
Proof.
  intros Hf. induction xs as [|x xs IH]; intros i l H; simpl in H.
  - injection H as <-. constructor.
  - bind_inv H. bind_inv H. injection H as <-.
    destruct (Hf i x v E) as [y [-> Hy]]. cbn [app].
    constructor; [exact Hy | eapply IH; eassumption].
Qed.

Lemma each_flat_map {A B C} (g : B -> C) (h : A -> list C)
  (f : nat -> A -> Result (list B)) :
  (forall i x l, f i x = Ok l -> map g l = h x) ->
  forall xs i l, Parsed.each f i xs = Ok l -> map g l = flat_map h xs.
Proof.
  intros Hf. induction xs as [|x xs IH]; intros i l H; simpl in H.
  - injection H as <-. reflexivity.
  - bind_inv H. bind_inv H. injection H as <-.
    rewrite map_app. cbn [flat_map]. f_equal; [eapply Hf | eapply IH]; eassumption.
Qed.

Lemma json_note_content_duokan (data : JsVal) (i : nat) (note : JsVal)
  (l : list Parsed.BookNote) :
  DuokanParser.json_note data i note = Ok l ->
  exists n, l = [n] /\ Spec.json_content note = Ok (Parsed.content n).
Proof.
  unfold DuokanParser.json_note, Spec.json_content. cbv zeta. intros H.
  do 12 bind_inv H. injection H as <-.
  eexists. split; [reflexivity|]. cbn [Parsed.content]. assumption.
Qed.

Lemma json_note_content_wechat (data : JsVal) (i : nat) (note : JsVal)
  (l : list Parsed.BookNote) :
  WeChatParser.json_note data i note = Ok l ->
  exists n, l = [n] /\ Spec.json_content note = Ok (Parsed.content n).
Proof.
  unfold WeChatParser.json_note, Spec.json_content. cbv zeta. intros H.
  do 12 bind_inv H. injection H as <-.
  eexists. split; [reflexivity|]. cbn [Parsed.content]. assumption.
Qed.

Lemma xml_note_content (t a : option Regex.Match) (i : nat) (m : Regex.Match)
  (l : list Parsed.BookNote) :
  DuokanParser.xml_note t a i m = Ok l ->
  map Parsed.content l
  = map VStr match Regex.exec (DuokanParser.element "content") (Regex.text m) with
             | Some contentMatch => [Regex.group1 contentMatch]
             | None => []
             end.
Proof.
  unfold DuokanParser.xml_note. cbv zeta.
  destruct (Regex.exec (DuokanParser.element "content") (Regex.text m));
    intros H; injection H as <-; reflexivity.
Qed.

Lemma xml_notes_return (t a : option Regex.Match) (matches : list Regex.Match) :
  forall i, exists l, Parsed.each (DuokanParser.xml_note t a) i matches = Ok l.
Proof.
  induction matches as [|m matches IH]; intros i; cbn [Parsed.each].
  - eexists; reflexivity.
  - destruct (IH (S i)) as [more ->].
    unfold DuokanParser.xml_note at 1. cbv zeta.
    destruct (Regex.exec (DuokanParser.element "content") (Regex.text m));
      cbn [bind]; eexists; reflexivity.
Qed.

Lemma map_flat_map {A B C} (g : B -> C) (h : A -> list B) (l : list A) :
  map g (flat_map h l) = flat_map (fun x => map g (h x)) l.
Proof.
  induction l as [|x l IH]; cbn [flat_map map]; [reflexivity|].
  now rewrite map_app, IH.
Qed.

End ContentFacts.

(** C7, as stated, fails on the JSON path and on the tagged path.  For the
    text [{"notes":[{}]}] both parsers return one annotation whose content is
    the empty string, and for a tagged text whose note has an empty content
    element [DuokanParser.parse] does the same. *)
Lemma json_and_xml_paths_keep_empty_content :
  (exists b n,
      DuokanParser.parse (Examples.quoted "{'notes':[{}]}") = Ok b
      /\ Parsed.notes b = [n]
      /\ Parsed.content n = VStr []
      /\ ~ Forall Spec.has_content (Parsed.notes b))
  /\ (exists b n,
        WeChatParser.parse (Examples.quoted "{'notes':[{}]}") = Ok b
        /\ Parsed.notes b = [n]
        /\ Parsed.content n = VStr []
        /\ ~ Forall Spec.has_content (Parsed.notes b))
  /\ (exists b n,
        DuokanParser.parse Examples.empty_content_xml = Ok b
        /\ Parsed.notes b = [n]
        /\ Parsed.content n = VStr []
        /\ ~ Forall Spec.has_content (Parsed.notes b)).
Proof.
  split; [|split];
    (eexists; eexists; split; [vm_compute; reflexivity|];
     split; [reflexivity|]; split; [reflexivity|];
     intros H; inversion H as [|n l [s [Hs Hne]] _]; subst;
     cbn in Hs; injection Hs as <-; now apply Hne).
Qed.

(** C7, amended.  The free-text and CSV paths keep an annotation only when
    its content is a non-empty string: [DuokanParser.parse] on an input that
    [JSON.parse] rejects and that has no XML marker, and [WeChatParser.parse]
    on an input that takes the marker format or that [JSON.parse] rejects
    (the free-text paths always return; the CSV path may throw).  The JSON
    path and the tagged path do not filter on content.  Where [parse]
    returns on the JSON path, the bundle has one annotation for each element
    of [notes], in order, with content [note.content || note.text || ''],
    and no annotation when [notes] is not an array.  On the tagged path [DuokanParser.parse] returns one annotation for each
    [<note>] match that holds a content element, in order, with the text
    between the content tags as content. *)
Theorem text_and_csv_paths_keep_only_nonempty_content :
  forall (rt : Runtime) (input : jsstring),
    (JSON_parse input = None -> DuokanParser.isValidXML input = false ->
     exists b, DuokanParser.parse input = Ok b
               /\ Forall Spec.has_content (Parsed.notes b))
    /\ (includes input (lit "微信读书") && includes input (lit "想法") = true
        \/ JSON_parse input = None ->
        forall b, WeChatParser.parse input = Ok b ->
                  Forall Spec.has_content (Parsed.notes b))
    /\ (includes input (lit "微信读书") && includes input (lit "想法") = true
        \/ (JSON_parse input = None /\ includes input (lit ",") = false) ->
        exists b, WeChatParser.parse input = Ok b)
    /\ (forall data elems b,
           JSON_parse input = Some data ->
           prop data (lit "notes") = Ok (VArr elems) ->
           (DuokanParser.parse input = Ok b ->
            Forall2 (fun e n => Spec.json_content e = Ok (Parsed.content n))
              elems (Parsed.notes b))
           /\ (includes input (lit "微信读书") && includes input (lit "想法") = false ->
               WeChatParser.parse input = Ok b ->
               Forall2 (fun e n => Spec.json_content e = Ok (Parsed.content n))
                 elems (Parsed.notes b)))
    /\ (forall data listed b,
           JSON_parse input = Some data ->
           prop data (lit "notes") = Ok listed ->
           isArray listed = false ->
           (DuokanParser.parse input = Ok b -> Parsed.notes b = [])
           /\ (includes input (lit "微信读书") && includes input (lit "想法") = false ->
               WeChatParser.parse input = Ok b -> Parsed.notes b = []))
    /\ (JSON_parse input = None -> DuokanParser.isValidXML input = true ->
        exists b, DuokanParser.parse input = Ok b
                  /\ map Parsed.content (Parsed.notes b)
                     = map VStr (Spec.xml_contents input)).
Proof.
  intros rt input. split; [|split; [|split; [|split; [|split]]]].
  - intros Hjson Hxml.
    unfold DuokanParser.parse, DuokanParser.isValidJSON.
    rewrite Hjson, Hxml. eexists. split; [reflexivity|].
    apply duokan_scan_lines_content.
  - intros Hpath b. unfold WeChatParser.parse, WeChatParser.isValidJSON.
    destruct (includes input (lit "微信读书") && includes input (lit "想法")).
    { intros H. injection H as <-. apply format_loop_content. }
    destruct Hpath as [Hpath|Hjson]; [discriminate|]. rewrite Hjson.
    destruct (includes input (lit ",")).
    + unfold WeChatParser.parseCSV.
      destruct (Parsed.nonblank_lines input) as [|first rest]; [discriminate|].
      cbv zeta. intros H. bind_inv H. injection H as <-.
      eapply each_Forall; [|eassumption].
      intros i x l. apply csv_row_content.
    + intros H. injection H as <-. apply text_loop_content.
  - intros Hpath. unfold WeChatParser.parse, WeChatParser.isValidJSON.
    destruct (includes input (lit "微信读书") && includes input (lit "想法")).
    { eexists. reflexivity. }
    destruct Hpath as [Hpath|[Hjson Hcomma]]; [discriminate|].
    rewrite Hjson, Hcomma. eexists. reflexivity.
  - intros data elems b Hdata Hnotes. split.
    + unfold DuokanParser.parse, DuokanParser.isValidJSON, DuokanParser.parseJSON.
      rewrite Hdata, Hnotes. cbn [bind]. intros H. bind_inv H. do 2 bind_inv H.
      injection H as <-. cbn [Parsed.notes].
      eapply each_Forall2; [|eassumption].
      intros i x l. apply json_note_content_duokan.
    + intros Hformat.
      unfold WeChatParser.parse, WeChatParser.isValidJSON, WeChatParser.parseJSON.
      rewrite Hformat, Hdata, Hnotes. cbn [bind]. intros H. bind_inv H.
      do 2 bind_inv H. injection H as <-. cbn [Parsed.notes].
      eapply each_Forall2; [|eassumption].
      intros i x l. apply json_note_content_wechat.
  - intros data listed b Hdata Hnotes Harray. split.
    + unfold DuokanParser.parse, DuokanParser.isValidJSON, DuokanParser.parseJSON.
      rewrite Hdata, Hnotes. cbn [bind].
      destruct listed; try discriminate Harray; cbn [bind];
        intros H; do 2 bind_inv H; injection H as <-; reflexivity.
    + intros Hformat.
      unfold WeChatParser.parse, WeChatParser.isValidJSON, WeChatParser.parseJSON.
      rewrite Hformat, Hdata, Hnotes. cbn [bind].
      destruct listed; try discriminate Harray; cbn [bind];
        intros H; do 2 bind_inv H; injection H as <-; reflexivity.
  - intros Hjson Hxml.
    unfold DuokanParser.parse, DuokanParser.isValidJSON.
    rewrite Hjson, Hxml. unfold DuokanParser.parseXML. cbv zeta.
    destruct (xml_notes_return
                (Regex.exec (DuokanParser.element "bookTitle") input)
                (Regex.exec (DuokanParser.element "author") input)
                (Regex.exec_all DuokanParser.note_element input) 0)
      as [notes E].
    rewrite E. cbn [bind]. eexists. split; [reflexivity|]. cbn [Parsed.notes].
    unfold Spec.xml_contents. rewrite map_flat_map.
    eapply each_flat_map; [|exact E].
    intros i x l Hl. rewrite (xml_note_content _ _ _ _ Hl).
    destruct (Regex.exec (DuokanParser.element "content") (Regex.text x));
      reflexivity.
Qed.

Lemma text_and_csv_paths_keep_only_nonempty_content_witness :
  (exists b, DuokanParser.parse (lit "多看 notes
a first long line") = Ok b
             /\ Forall Spec.has_content (Parsed.notes b))
  /\ (exists b, WeChatParser.parse (lit "《T》
划线：line one
想法：") = Ok b
                /\ Forall Spec.has_content (Parsed.notes b))
  /\ (exists b elems,
        DuokanParser.parse Examples.json_export = Ok b
        /\ Forall2 (fun e n => Spec.json_content e = Ok (Parsed.content n))
             elems (Parsed.notes b)
        /\ map Parsed.content (Parsed.notes b)
           = [VStr (lit "one"); VStr (lit "two")])
  /\ (exists b, DuokanParser.parse (Examples.quoted "{'notes':5}") = Ok b
                /\ Parsed.notes b = [])
  /\ (exists b, DuokanParser.parse Examples.empty_content_xml = Ok b
                /\ map Parsed.content (Parsed.notes b) = [VStr []]).
Proof.
  split; [|split; [|split; [|split]]].
  - apply (proj1 (text_and_csv_paths_keep_only_nonempty_content example_runtime
                    (lit "多看 notes
a first long line"))); vm_compute; reflexivity.
  - pose proof (text_and_csv_paths_keep_only_nonempty_content example_runtime
                  (lit "《T》
划线：line one
想法：")) as [_ [Hcontent [Hreturns _]]].
    destruct Hreturns as [b Hb].
    { right. split; vm_compute; reflexivity. }
    exists b. split; [exact Hb|].
    apply Hcontent; [right; vm_compute; reflexivity | exact Hb].
  - pose proof (text_and_csv_paths_keep_only_nonempty_content example_runtime
                  Examples.json_export) as [_ [_ [_ [Hjson _]]]].
    eexists. eexists. split; [vm_compute; reflexivity|].
    split; [|vm_compute; reflexivity].
    refine (proj1 (Hjson _ _ _ _ _) _); vm_compute; reflexivity.
  - pose proof (text_and_csv_paths_keep_only_nonempty_content example_runtime
                  (Examples.quoted "{'notes':5}")) as [_ [_ [_ [_ [Hnone _]]]]].
    eexists. split; [vm_compute; reflexivity|].
    refine (proj1 (Hnone _ _ _ _ _ _) _); vm_compute; reflexivity.
  - pose proof (text_and_csv_paths_keep_only_nonempty_content example_runtime
                  Examples.empty_content_xml) as [_ [_ [_ [_ [_ Hxml]]]]].
    destruct Hxml as [b [Hb Hcontents]]; [vm_compute; reflexivity ..|].
    exists b. split; [exact Hb|]. rewrite Hcontents. vm_compute. reflexivity.
Defined.

(** ** What the free-text fallbacks find *)

Lemma substring_trans (a b c : jsstring) :
  Spec.substring a b -> Spec.substring b c -> Spec.substring a c.
Proof.
  intros [p1 [q1 ->]] [p2 [q2 ->]]. exists (p2 ++ p1), (q1 ++ q2).
  now rewrite <- !app_assoc.
Qed.

Lemma substring_app_l (a b s : jsstring) :
  Spec.substring (a ++ b) s -> Spec.substring a s.
Proof. intros [p [q ->]]. exists p, (b ++ q). now rewrite <- app_assoc. Qed.

Lemma drop_spaces_suffix (s : jsstring) : exists pre, s = pre ++ drop_spaces s.
Proof.
  induction s as [|c s [pre IH]]; simpl.
  - now exists [].
  - destruct (is_space c).
    + exists (c :: pre). simpl. now rewrite <- IH.
    + now exists [].
Qed.

Lemma trim_substring (s : jsstring) : Spec.substring (trim s) s.
Proof.
  unfold trim. destruct (drop_spaces_suffix s) as [p1 H1].
  destruct (drop_spaces_suffix (rev (drop_spaces s))) as [p2 H2].
  exists p1, (rev p2).
  rewrite <- rev_app_distr, <- H2, rev_involutive. exact H1.
Qed.

Lemma substring_cons (c : N) (a s : jsstring) :
  Spec.substring a s -> Spec.substring a (c :: s).
Proof. intros [p [q ->]]. now exists (c :: p), q. Qed.

(** [split] returns a first piece, which starts the string, and more pieces,
    each of which occurs in it. *)
Lemma split_shape (sep : N) (s : jsstring) :
  exists first rest q,
    split sep s = first :: rest /\ s = first ++ q
    /\ forall piece, In piece rest -> Spec.substring piece s.
Proof.
  induction s as [|c s (first & rest & q & Hsplit & Hs & Hrest)]; simpl.
  - exists [], [], []. repeat split. intros piece [].
  - rewrite Hsplit. destruct (N.eqb c sep).
    + exists [], (first :: rest), (c :: s). repeat split.
      intros piece [<-|Hin].
      * exists [c], q. simpl. now rewrite Hs at 1.
      * now apply substring_cons, Hrest.
    + exists (c :: first), rest, q. repeat split.
      * simpl. now rewrite Hs at 1.
      * intros piece Hin. now apply substring_cons, Hrest.
Qed.

Lemma split_piece_substring (sep : N) (s piece : jsstring) :
  In piece (split sep s) -> Spec.substring piece s.
Proof.
  destruct (split_shape sep s) as (first & rest & q & -> & Hs & Hrest).
  intros [<-|Hin]; [now exists [], q | now apply Hrest].
Qed.

Lemma includes_cons_false (c : N) (s l : jsstring) :
  includes (c :: s) l = false -> startsWith (c :: s) l = false /\ includes s l = false.
Proof. cbn [includes]. intros H. now apply orb_false_iff in H. Qed.

Lemma includes_false_startsWith (s l : jsstring) :
  includes s l = false -> startsWith s l = false.
Proof.
  destruct s; cbn [includes]; intros H; now apply orb_false_iff in H.
Qed.

(** A pattern that begins with a literal finds nothing in a string that does
    not contain the literal. *)
Lemma search_literal_absent (l : jsstring) (r : Regex.re) (s : jsstring) :
  forall pos, includes s l = false ->
              Regex.search (Regex.Seq (Regex.Lit l) r) s pos = None.
Proof.
  induction s as [|c s IH]; intros pos H.
  - cbn [Regex.search Regex.at_pos Regex.run].
    now rewrite (includes_false_startsWith _ _ H).
  - apply includes_cons_false in H as [Hstart Hrest].
    cbn [Regex.search Regex.at_pos Regex.run]. rewrite Hstart.
    cbn [Regex.orelse]. now apply IH.
Qed.

Lemma includes_app_false (s a b : jsstring) :
  includes s a = false -> includes s (a ++ b) = false.
Proof.
  intros H. destruct (includes s (a ++ b)) eqn:E; [|reflexivity].
  apply includes_spec, substring_app_l, includes_spec in E. congruence.
Qed.

(** What a trimmed non-blank line contains, the input contains. *)
Lemma line_includes (input raw m : jsstring) :
  In raw (Parsed.nonblank_lines input) ->
  includes input m = false -> includes (trim raw) m = false.
Proof.
  unfold Parsed.nonblank_lines. intros Hin Hinput.
  apply filter_In in Hin as [Hin _].
  destruct (includes (trim raw) m) eqn:E; [|reflexivity].
  apply includes_spec in E.
  assert (Spec.substring m input) as Hsub.
  { eapply substring_trans; [exact E|].
    eapply substring_trans; [apply trim_substring|].
    eapply split_piece_substring; eassumption. }
  apply includes_spec in Hsub. congruence.
Qed.

Lemma line_at_In (lines : list jsstring) (i : nat) (line : jsstring) :
  WeChatParser.line_at lines i = Some line ->
  exists raw, In raw lines /\ line = trim raw.
Proof.
  unfold WeChatParser.line_at. destruct (nth_error lines i) as [raw|] eqn:E; [|discriminate].
  intros H. injection H as <-. exists raw. split; [|reflexivity].
  eapply nth_error_In; eassumption.
Qed.

Section FallbackFacts.
Context {rt : Runtime}.

Lemma duokan_scan_lines_nothing (title author : jsstring) (lines : list jsstring) :
  (forall raw, In raw lines -> DuokanParser.is_note_line (trim raw) = false) ->
  forall noteIndex, DuokanParser.scan_lines title author noteIndex lines = [].
Proof.
  induction lines as [|raw rest IH]; intros H noteIndex; simpl; [reflexivity|].
  rewrite (H raw (or_introl eq_refl)). apply IH.
  intros r Hr. apply H. now right.
Qed.

Lemma wechat_text_loop_nothing (lines : list jsstring) (title author : jsstring) :
  (forall raw, In raw lines ->
               includes (trim raw) (lit "划线") = false
               /\ includes (trim raw) (lit "想法") = false
               /\ includes (trim raw) (lit "书签") = false) ->
  forall fuel chapter i noteIndex,
    WeChatParser.text_loop fuel lines title author chapter i noteIndex = [].
Proof.
  intros H. induction fuel as [|fuel IH]; intros chapter i noteIndex;
    cbn [WeChatParser.text_loop]; [reflexivity|].
  destruct (WeChatParser.line_at lines i) as [line|] eqn:E; [|reflexivity].
  apply line_at_In in E as [raw [Hin ->]].
  destruct (H raw Hin) as (H1 & H2 & H3).
  destruct (includes (trim raw) (lit "章节：")
            || startsWith (trim raw) (lit "第") && includes (trim raw) (lit "章")).
  { cbn [app length]. apply IH. }
  change (lit "划线：") with (lit "划线" ++ lit "：").
  change (lit "想法：") with (lit "想法" ++ lit "：").
  change (lit "书签：") with (lit "书签" ++ lit "：").
  rewrite !includes_app_false by assumption.
  rewrite H1, H2, H3. cbn [orb app length]. apply IH.
Qed.

End FallbackFacts.

(** C2.  The code does not do what the claim, the comment in [parseJSON]
    and the repository's test of malformed input say.  [parseJSON] answers a
    text that [JSON.parse] rejects with the placeholder bundle, but [parse]
    calls [parseJSON] only after [isValidJSON] has accepted the text, so for
    every such text that branch is never taken: the text goes to the tagged
    or the free-text path instead.  [DuokanParser] accepts the truncated JSON
    text [{"duokan": [] (it contains "duokan"), and [parse] returns its only
    line as a highlight where [parseJSON] returns the placeholder.  The
    broken text of the test is answered with the placeholder only because
    the free-text scan skips a line that contains 作者; with the author "Ann"
    the same text gives one annotation.  [WeChatParser], which has no
    recovery at all, reads [{"WeChat":1,"notes":[] as a CSV row. *)
Theorem truncated_json_is_read_as_text :
  (forall (rt : Runtime) (content : jsstring),
      JSON_parse content = None ->
      DuokanParser.parseJSON content = Ok DuokanParser.empty_bundle
      /\ Spec.is_placeholder DuokanParser.empty_bundle
      /\ DuokanParser.parse content
         = (if DuokanParser.isValidXML content
            then DuokanParser.parseXML content
            else DuokanParser.parsePlainText content))
  /\ DuokanParser.validate (Examples.quoted "{'duokan': [") = true
  /\ JSON_parse (Examples.quoted "{'duokan': [") = None
  /\ (exists b n,
        DuokanParser.parse (Examples.quoted "{'duokan': [") = Ok b
        /\ Parsed.notes b = [n]
        /\ Parsed.content n = VStr (Examples.quoted "{'duokan': [")
        /\ ~ Spec.is_placeholder b)
  /\ JSON_parse Examples.broken_json = None
  /\ (exists b, DuokanParser.parse Examples.broken_json = Ok b
                /\ Spec.is_placeholder b)
  /\ JSON_parse Examples.broken_json_ann = None
  /\ (exists b n,
        DuokanParser.parse Examples.broken_json_ann = Ok b
        /\ Parsed.notes b = [n]
        /\ Parsed.content n = VStr Examples.broken_json_ann
        /\ ~ Spec.is_placeholder b)
  /\ WeChatParser.validate (Examples.quoted "{'WeChat':1,'notes':[") = true
  /\ JSON_parse (Examples.quoted "{'WeChat':1,'notes':[") = None
  /\ (exists b n,
        WeChatParser.parse (Examples.quoted "{'WeChat':1,'notes':[") = Ok b
        /\ Parsed.notes b = [n]
        /\ Parsed.content n = VStr (lit "{WeChat:1")
        /\ ~ Spec.is_placeholder b).
Proof.
  split.
  { intros rt content Hjson.
    unfold DuokanParser.parse, DuokanParser.parseJSON, DuokanParser.isValidJSON.
    rewrite Hjson. repeat split. }
  split; [vm_compute; reflexivity|]. split; [vm_compute; reflexivity|].
  split.
  { eexists. eexists. split; [vm_compute; reflexivity|].
    split; [reflexivity|]. split; [vm_compute; reflexivity|].
    intros [_ H]. discriminate H. }
  split; [vm_compute; reflexivity|].
  split.
  { eexists. split; [vm_compute; reflexivity|]. split; reflexivity. }
  split; [vm_compute; reflexivity|].
  split.
  { eexists. eexists. split; [vm_compute; reflexivity|].
    split; [reflexivity|]. split; [vm_compute; reflexivity|].
    intros [_ H]. discriminate H. }
  split; [vm_compute; reflexivity|]. split; [vm_compute; reflexivity|].
  eexists. eexists. split; [vm_compute; reflexivity|].
  split; [reflexivity|]. split; [vm_compute; reflexivity|].
  intros [_ H]. discriminate H.
Qed.

(** Where the fallback does answer with the placeholder: an input that
    [JSON.parse] rejects gives the placeholder bundle (title "Unknown Book",
    no annotation) when the sub-format that [parse] falls back to finds
    nothing in it: for [DuokanParser], when the input has no XML marker, does
    not contain 书名, and none of its non-blank lines passes the content-line
    test; for [WeChatParser], when the input contains no comma, no 《 and none
    of the markers 划线, 想法, 书签. *)
Lemma rejected_json_falls_back_to_text :
  forall (rt : Runtime) (input : jsstring),
    JSON_parse input = None ->
    (DuokanParser.isValidXML input = false ->
     includes input (lit "书名") = false ->
     (forall raw, In raw (Parsed.nonblank_lines input) ->
                  DuokanParser.is_note_line (trim raw) = false) ->
     exists b, DuokanParser.parse input = Ok b /\ Spec.is_placeholder b)
    /\ (includes input (lit ",") = false ->
        includes input (lit "《") = false ->
        includes input (lit "划线") = false ->
        includes input (lit "想法") = false ->
        includes input (lit "书签") = false ->
        exists b, WeChatParser.parse input = Ok b /\ Spec.is_placeholder b).
Proof.
  intros rt input Hjson. split.
  - intros Hxml Htitle Hlines.
    unfold DuokanParser.parse, DuokanParser.isValidJSON.
    rewrite Hjson, Hxml. unfold DuokanParser.parsePlainText. cbv zeta.
    eexists. split; [reflexivity|]. split; cbn [Parsed.metadata Parsed.title Parsed.notes].
    + unfold DuokanParser.labelled, DuokanParser.label, Regex.exec.
      now rewrite search_literal_absent.
    + now apply duokan_scan_lines_nothing.
  - intros Hcomma Htitle H1 H2 H3.
    unfold WeChatParser.parse, WeChatParser.isValidJSON.
    rewrite Hjson, Hcomma, H2, andb_false_r.
    unfold WeChatParser.parsePlainText. cbv zeta.
    eexists. split; [reflexivity|].
    split; cbn [WeChatParser.bundle Parsed.metadata Parsed.title Parsed.notes].
    + unfold WeChatParser.title_of, WeChatParser.quoted_title, Regex.exec.
      now rewrite search_literal_absent.
    + apply wechat_text_loop_nothing.
      intros raw Hin. repeat split; now apply line_includes with (input := input).
Qed.

Lemma rejected_json_falls_back_to_text_witness :
  JSON_parse (Examples.quoted "{'读书笔记': [") = None
  /\ DuokanParser.validate (Examples.quoted "{'读书笔记': [") = true
  /\ WeChatParser.validate (Examples.quoted "{'读书笔记': [") = true
  /\ (exists b, DuokanParser.parse (Examples.quoted "{'读书笔记': [") = Ok b
                /\ Spec.is_placeholder b)
  /\ (exists b, WeChatParser.parse (Examples.quoted "{'读书笔记': [") = Ok b
                /\ Spec.is_placeholder b).
Proof.
  split; [vm_compute; reflexivity|].
  split; [vm_compute; reflexivity|].
  split; [vm_compute; reflexivity|].
  pose proof (rejected_json_falls_back_to_text example_runtime
                (Examples.quoted "{'读书笔记': [")) as H.
  destruct H as [Hduokan Hwechat]; [vm_compute; reflexivity|].
  split.
  - apply Hduokan; try (vm_compute; reflexivity).
    intros raw Hin. vm_compute in Hin. destruct Hin as [<-|[]].
    vm_compute. reflexivity.
  - apply Hwechat; vm_compute; reflexivity.
Defined.

(** ** Collision suffixing *)

Lemma digits_inj (u v : Decimal.uint) : digits u = digits v -> u = v.
Proof.
  revert v. induction u; destruct v; simpl; intros H;
    try discriminate H; try reflexivity;
    injection H as H; f_equal; auto.
Qed.

Lemma dec_inj (a b : nat) : dec a = dec b -> a = b.
Proof.
  unfold dec. intros H. now apply DecimalNat.Unsigned.to_uint_inj, digits_inj.
Qed.

Lemma candidate_inj (base : jsstring) (j k : nat) :
  Spec.candidate base j = Spec.candidate base k -> j = k.
Proof.
  destruct j as [|j], k as [|k]; cbn [Spec.candidate]; intros H.
  - reflexivity.
  - apply (f_equal (@length N)) in H. rewrite !length_app in H.
    change (length (lit "_")) with 1 in H. lia.
  - apply (f_equal (@length N)) in H. rewrite !length_app in H.
    change (length (lit "_")) with 1 in H. lia.
  - apply app_inv_head, app_inv_head in H. now apply dec_inj.
Qed.

(** The loop started at candidate [k] stops at the first free candidate. *)
Lemma suffix_loop_first_free (taken : jsstring -> bool) (base : jsstring) :
  forall d fuel k,
    d <= fuel ->
    (forall j, k <= j < k + d -> taken (Spec.candidate base j) = true) ->
    taken (Spec.candidate base (k + d)) = false ->
    NotesManager.suffix_loop fuel taken base (Spec.candidate base k) (S k)
    = Some (Spec.candidate base (k + d)).
Proof.
  induction d as [|d IH]; intros fuel k Hd Htaken Hfree.
  - rewrite Nat.add_0_r in *.
    destruct fuel; cbn [NotesManager.suffix_loop]; now rewrite Hfree.
  - destruct fuel as [|fuel]; [lia|].
    cbn [NotesManager.suffix_loop]. rewrite Htaken by lia.
    change (base ++ lit "_" ++ dec (S k)) with (Spec.candidate base (S k)).
    replace (k + S d) with (S k + d) in * by lia.
    apply IH; [lia | | assumption].
    intros j Hj. apply Htaken. lia.
Qed.

Lemma NoDup_map_injective {A B} (f : A -> B) (l : list A) :
  (forall a b, f a = f b -> a = b) -> NoDup l -> NoDup (map f l).
Proof.
  intros Hf. induction 1 as [|x l Hx Hl IH]; simpl; constructor; [|assumption].
  intros Hin. apply in_map_iff in Hin as [y [Hy Hin]].
  apply Hf in Hy. now subst.
Qed.

Lemma forallb_false_witness {A} (p : A -> bool) (l : list A) :
  forallb p l = false -> exists x, In x l /\ p x = false.
Proof.
  induction l as [|x l IH]; simpl; [discriminate|].
  destruct (p x) eqn:E; simpl.
  - intros H. destruct (IH H) as [y [Hy Hp]]. exists y. auto.
  - intros _. exists x. auto.
Qed.

(** Among [n + 1] candidates one is not a key of a map of [n] entries. *)
Lemma some_candidate_is_free {V} (m : JsMap.t V) (base : jsstring) :
  exists j, j <= JsMap.size m /\ JsMap.has (Spec.candidate base j) m = false.
Proof.
  set (n := JsMap.size m).
  destruct (forallb (fun j => JsMap.has (Spec.candidate base j) m) (seq 0 (S n)))
    eqn:E.
  - exfalso. rewrite forallb_forall in E.
    assert (Hincl : incl (map (Spec.candidate base) (seq 0 (S n))) (JsMap.keys m)).
    { intros k Hk. apply in_map_iff in Hk as [j [<- Hj]].
      apply has_keys, E, Hj. }
    apply NoDup_incl_length in Hincl.
    + rewrite length_map, length_seq in Hincl.
      unfold JsMap.keys in Hincl. rewrite length_map in Hincl.
      unfold n, JsMap.size in Hincl. lia.
    + apply NoDup_map_injective; [apply candidate_inj | apply seq_NoDup].
  - apply forallb_false_witness in E as [j [Hj Hfree]].
    apply in_seq in Hj. exists j. split; [lia | assumption].
Qed.

Lemma least_free (p : nat -> bool) (n : nat) :
  (exists j, j <= n /\ p j = false) ->
  exists d, d <= n /\ p d = false /\ forall j, j < d -> p j = true.
Proof.
  induction n as [|n IH]; intros [j [Hj Hp]].
  - assert (j = 0) by lia. subst. exists 0. repeat split; auto. lia.
  - destruct (forallb p (seq 0 (S n))) eqn:E.
    + rewrite forallb_forall in E.
      assert (j = S n).
      { destruct (Nat.eq_dec j (S n)); [assumption|].
        rewrite E in Hp; [discriminate | apply in_seq; lia]. }
      subst. exists (S n). repeat split; auto.
      intros i Hi. apply E, in_seq. lia.
    + apply forallb_false_witness in E as [i [Hi Hpi]]. apply in_seq in Hi.
      destruct IH as [d (Hd & Hpd & Hleast)]; [exists i; split; [lia | assumption]|].
      exists d. repeat split; auto.
Qed.

(** [unique] always returns: the first candidate that is not a key. *)
Lemma unique_spec {V} (m : JsMap.t V) (base : jsstring) :
  exists d,
    NotesManager.unique m base = Some (Spec.candidate base d)
    /\ JsMap.has (Spec.candidate base d) m = false
    /\ forall j, j < d -> JsMap.has (Spec.candidate base j) m = true.
Proof.
  destruct (least_free (fun j => JsMap.has (Spec.candidate base j) m)
              (some_candidate_is_free m base)) as [d (Hd & Hfree & Hleast)].
  exists d. split; [|split; assumption].
  unfold NotesManager.unique.
  apply (suffix_loop_first_free (fun k => JsMap.has k m) base (d := d) (k := 0));
    [assumption | | assumption].
  intros j Hj. apply Hleast. lia.
Qed.

(** ** Ingestion *)

Lemma has_false_get {V} (m : JsMap.t V) (k : jsstring) :
  JsMap.has k m = false <-> JsMap.get k m = None.
Proof. unfold JsMap.has. destruct (JsMap.get k m); split; congruence. Qed.

Lemma has_true_get {V} (m : JsMap.t V) (k : jsstring) (v : V) :
  JsMap.get k m = Some v -> JsMap.has k m = true.
Proof. unfold JsMap.has. now intros ->. Qed.

Lemma assign_length {A} (l : list A) (i : nat) (x : A) :
  length (assign l i x) = length l.
Proof.
  revert i; induction l as [|y l IH]; intros [|i]; simpl; auto.
Qed.

Lemma assign_Forall {A} (P : A -> Prop) (l : list A) (i : nat) (x : A) :
  Forall P l -> P x -> Forall P (assign l i x).
Proof.
  intros Hl Hx. revert i. induction Hl as [|y l Hy Hl IH]; intros [|i]; simpl;
    constructor; auto.
Qed.

(** The bundle under [bookTitle] after a write into its notes list. *)
Lemma put_note_bundle (bookTitle : jsstring) (same : Notes.BookNote -> bool)
  (note : Notes.BookNote) (bs : JsMap.t Notes.ParsedBookData)
  (b : Notes.ParsedBookData) :
  JsMap.get bookTitle bs = Some b ->
  Notes.bookTitle note = bookTitle ->
  Spec.stamped bookTitle b ->
  exists b',
    JsMap.get bookTitle (NotesManager.put_note bookTitle same note bs) = Some b'
    /\ Spec.stamped bookTitle b'
    /\ length (Notes.notes b') = length (Notes.notes b).
Proof.
  intros Hget Hnote [Htitle Hnotes]. unfold NotesManager.put_note. rewrite Hget.
  destruct (findIndex same (Notes.notes b)) as [noteIndex|].
  - rewrite get_set_same. eexists. split; [reflexivity|].
    cbn [Notes.with_notes Notes.notes Notes.metadata]. split; [split|].
    + exact Htitle.
    + now apply assign_Forall.
    + apply assign_length.
  - exists b. repeat split; assumption.
Qed.

Lemma put_note_keys (bookTitle : jsstring) (same : Notes.BookNote -> bool)
  (note : Notes.BookNote) (bs : JsMap.t Notes.ParsedBookData) :
  JsMap.keys (NotesManager.put_note bookTitle same note bs) = JsMap.keys bs.
Proof.
  unfold NotesManager.put_note.
  destruct (JsMap.get bookTitle bs) as [b|] eqn:E; [|reflexivity].
  destruct (findIndex same (Notes.notes b)); [|reflexivity].
  apply keys_set_old. eapply has_true_get; eassumption.
Qed.

Lemma put_note_other (bookTitle other : jsstring) (same : Notes.BookNote -> bool)
  (note : Notes.BookNote) (bs : JsMap.t Notes.ParsedBookData) :
  other <> bookTitle ->
  JsMap.get other (NotesManager.put_note bookTitle same note bs) = JsMap.get other bs.
Proof.
  intros Hne. unfold NotesManager.put_note.
  destruct (JsMap.get bookTitle bs) as [b|]; [|reflexivity].
  destruct (findIndex same (Notes.notes b)); [|reflexivity].
  apply get_set_other. congruence.
Qed.

Lemma store_note_spec (bookTitle : jsstring) (st : NotesManager.Store) (i : nat)
  (b : Notes.ParsedBookData) :
  JsMap.get bookTitle (NotesManager.books st) = Some b ->
  Spec.stamped bookTitle b ->
  exists st',
    NotesManager.store_note bookTitle st i = Some st'
    /\ Spec.same_books_but bookTitle (length (Notes.notes b)) st st'.
Proof.
  intros Hget Hst. unfold NotesManager.store_note. rewrite Hget.
  destruct (nth_error (Notes.notes b) i) as [note|] eqn:Hnth.
  - destruct (unique_spec (NotesManager.notes st) (Notes.id note))
      as [d (Hunique & _ & _)].
    rewrite Hunique. eexists. split; [reflexivity|].
    cbn [NotesManager.books]. split; [apply put_note_keys|].
    split; [intros other Hne; now apply put_note_other|].
    apply put_note_bundle; [assumption | | assumption].
    cbn [Notes.with_id Notes.bookTitle].
    destruct Hst as [_ Hnotes]. rewrite Forall_forall in Hnotes.
    apply Hnotes. eapply nth_error_In; eassumption.
  - exists st. split; [reflexivity|]. split; [reflexivity|].
    split; [reflexivity|]. now exists b.
Qed.

Lemma for_each_store_note (bookTitle : jsstring) (indices : list nat) :
  forall (st : NotesManager.Store) (b : Notes.ParsedBookData),
    JsMap.get bookTitle (NotesManager.books st) = Some b ->
    Spec.stamped bookTitle b ->
    exists st',
      NotesManager.for_each (NotesManager.store_note bookTitle) indices st = Some st'
      /\ Spec.same_books_but bookTitle (length (Notes.notes b)) st st'.
Proof.
  induction indices as [|i rest IH]; intros st b Hget Hst.
  - exists st. split; [reflexivity|]. split; [reflexivity|].
    split; [reflexivity|]. now exists b.
  - destruct (store_note_spec st i Hget Hst)
      as [st1 (Hstep & Hkeys1 & Hother1 & b1 & Hget1 & Hst1 & Hlen1)].
    destruct (IH st1 b1 Hget1 Hst1)
      as [st' (Hrest & Hkeys & Hother & b' & Hget' & Hst' & Hlen')].
    exists st'. cbn [NotesManager.for_each]. rewrite Hstep.
    split; [exact Hrest|]. split; [congruence|].
    split; [intros other Hne; rewrite Hother, Hother1; auto|].
    exists b'. repeat split; try apply Hst'; try assumption. congruence.
Qed.

(** Ingestion always returns.  The bundle is stored under the first
    candidate title that the book index does not hold, appended after the
    titles already there; the other bundles stay as they were; the stored
    bundle and every annotation of it carry the resolved title. *)
Lemma storeParsedData_spec (st : NotesManager.Store) (data : Notes.ParsedBookData) :
  exists d st',
    let title := Spec.candidate (Notes.title (Notes.metadata data)) d in
    NotesManager.storeParsedData st data = Some st'
    /\ JsMap.has title (NotesManager.books st) = false
    /\ (forall j, j < d ->
          JsMap.has (Spec.candidate (Notes.title (Notes.metadata data)) j)
            (NotesManager.books st) = true)
    /\ JsMap.keys (NotesManager.books st')
       = JsMap.keys (NotesManager.books st) ++ [title]
    /\ (forall other, other <> title ->
          JsMap.get other (NotesManager.books st')
          = JsMap.get other (NotesManager.books st))
    /\ exists b, JsMap.get title (NotesManager.books st') = Some b
                 /\ Spec.stamped title b
                 /\ length (Notes.notes b) = length (Notes.notes data).
Proof.
  destruct (unique_spec (NotesManager.books st) (Notes.title (Notes.metadata data)))
    as [d (Hunique & Hfree & Hleast)].
  set (title := Spec.candidate (Notes.title (Notes.metadata data)) d) in *.
  set (updatedData :=
         {| Notes.metadata := Notes.with_title (Notes.metadata data) title;
            Notes.notes := map (fun note => Notes.with_bookTitle note title)
                             (Notes.notes data) |}).
  set (st0 := {| NotesManager.notes := NotesManager.notes st;
                 NotesManager.books :=
                   JsMap.set title updatedData (NotesManager.books st) |}).
  assert (Hget0 : JsMap.get title (NotesManager.books st0) = Some updatedData)
    by apply get_set_same.
  assert (Hst0 : Spec.stamped title updatedData).
  { split; [reflexivity|]. cbn [updatedData Notes.notes].
    apply Forall_map, Forall_forall. reflexivity. }
  destruct (for_each_store_note (seq 0 (length (Notes.notes data))) st0 Hget0 Hst0)
    as [st' (Hloop & Hkeys & Hother & b & Hget & Hst & Hlen)].
  exists d, st'. cbv zeta. fold title.
  split.
  { unfold NotesManager.storeParsedData. rewrite Hunique. exact Hloop. }
  split; [exact Hfree|]. split; [exact Hleast|].
  split.
  { rewrite Hkeys. cbn [st0 NotesManager.books]. now apply keys_set_new. }
  split.
  { intros other Hne. rewrite Hother by assumption.
    cbn [st0 NotesManager.books]. apply get_set_other. congruence. }
  exists b. split; [exact Hget|]. split; [exact Hst|].
  rewrite Hlen. cbn [updatedData Notes.notes]. apply length_map.
Qed.

(** C4, as stated, fails when the store, though it does not hold the title
    X, already holds X_1: the three bundles are stored under X, X_2 and X_3. *)
Lemma a_taken_suffix_is_skipped :
  JsMap.has (lit "X") (NotesManager.books Examples.holds_X_1) = false
  /\ exists st1 st2 st3,
       NotesManager.storeParsedData Examples.holds_X_1 (Examples.titled_X "c1") = Some st1
       /\ NotesManager.storeParsedData st1 (Examples.titled_X "c2") = Some st2
       /\ NotesManager.storeParsedData st2 (Examples.titled_X "c3") = Some st3
       /\ JsMap.keys (NotesManager.books st3)
          = [lit "X_1"; lit "X"; lit "X_2"; lit "X_3"].
Proof.
  split; [reflexivity|].
  eexists. eexists. eexists.
  split; [vm_compute; reflexivity|].
  split; [vm_compute; reflexivity|].
  split; [vm_compute; reflexivity|].
  vm_compute. reflexivity.
Qed.

Lemma candidate_0 (base : jsstring) : Spec.candidate base 0 = base.
Proof. reflexivity. Qed.

Lemma candidate_1 (base : jsstring) : Spec.candidate base 1 = base ++ lit "_1".
Proof. reflexivity. Qed.

Lemma candidate_2 (base : jsstring) : Spec.candidate base 2 = base ++ lit "_2".
Proof. reflexivity. Qed.

(** C4, amended. For every title X and every store that holds none of X,
    X_1 and X_2, ingesting three bundles parsed with the title X, one after the
    other, succeeds each time and stores them under X, X_1 and X_2, in that
    order after the titles already there (none is merged: each stored bundle
    has the length of the bundle it came from); each stored bundle and every
    annotation of it carry the resolved title. *)
Theorem three_bundles_of_one_title :
  forall (st : NotesManager.Store) (X : jsstring) (b1 b2 b3 : Notes.ParsedBookData),
    Notes.title (Notes.metadata b1) = X ->
    Notes.title (Notes.metadata b2) = X ->
    Notes.title (Notes.metadata b3) = X ->
    JsMap.has X (NotesManager.books st) = false ->
    JsMap.has (X ++ lit "_1") (NotesManager.books st) = false ->
    JsMap.has (X ++ lit "_2") (NotesManager.books st) = false ->
    exists st1 st2 st3,
      NotesManager.storeParsedData st b1 = Some st1
      /\ NotesManager.storeParsedData st1 b2 = Some st2
      /\ NotesManager.storeParsedData st2 b3 = Some st3
      /\ JsMap.keys (NotesManager.books st3)
         = JsMap.keys (NotesManager.books st) ++ [X; X ++ lit "_1"; X ++ lit "_2"]
      /\ (exists s1, NotesManager.getBook st3 X = Some s1
                     /\ Spec.stamped X s1
                     /\ length (Notes.notes s1) = length (Notes.notes b1))
      /\ (exists s2, NotesManager.getBook st3 (X ++ lit "_1") = Some s2
                     /\ Spec.stamped (X ++ lit "_1") s2
                     /\ length (Notes.notes s2) = length (Notes.notes b2))
      /\ (exists s3, NotesManager.getBook st3 (X ++ lit "_2") = Some s3
                     /\ Spec.stamped (X ++ lit "_2") s3
                     /\ length (Notes.notes s3) = length (Notes.notes b3)).
Proof.
  intros st X b1 b2 b3 H1 H2 H3 HX HX1 HX2.
  assert (N01 : X <> X ++ lit "_1").
  { rewrite <- candidate_1. intros E. now apply (candidate_inj X 0 1) in E. }
  assert (N02 : X <> X ++ lit "_2").
  { rewrite <- candidate_2. intros E. now apply (candidate_inj X 0 2) in E. }
  assert (N12 : X ++ lit "_1" <> X ++ lit "_2").
  { rewrite <- candidate_1, <- candidate_2. intros E.
    now apply (candidate_inj X 1 2) in E. }
  (* first bundle: X is free *)
  destruct (storeParsedData_spec st b1)
    as (d1 & st1 & Hs1 & Hfree1 & Hleast1 & Hkeys1 & Hother1 & s1 & Hget1 & Hst1 & Hlen1).
  rewrite H1 in *.
  assert (d1 = 0).
  { destruct d1; [reflexivity|].
    pose proof (Hleast1 0 ltac:(lia)) as E. rewrite candidate_0 in E. congruence. }
  subst d1. rewrite candidate_0 in *.
  (* second bundle: X is taken, X_1 is free *)
  destruct (storeParsedData_spec st1 b2)
    as (d2 & st2 & Hs2 & Hfree2 & Hleast2 & Hkeys2 & Hother2 & s2 & Hget2 & Hst2 & Hlen2).
  rewrite H2 in *.
  assert (HX1' : JsMap.has (X ++ lit "_1") (NotesManager.books st1) = false).
  { apply has_false_get. rewrite Hother1 by congruence. now apply has_false_get. }
  assert (d2 = 1).
  { destruct d2 as [|[|d2]]; [|reflexivity|].
    - rewrite candidate_0, (has_true_get _ _ Hget1) in Hfree2. discriminate.
    - pose proof (Hleast2 1 ltac:(lia)) as E. rewrite candidate_1 in E.
      congruence. }
  subst d2. rewrite candidate_1 in *.
  (* third bundle: X and X_1 are taken, X_2 is free *)
  destruct (storeParsedData_spec st2 b3)
    as (d3 & st3 & Hs3 & Hfree3 & Hleast3 & Hkeys3 & Hother3 & s3 & Hget3 & Hst3 & Hlen3).
  rewrite H3 in *.
  assert (HX2' : JsMap.has (X ++ lit "_2") (NotesManager.books st2) = false).
  { apply has_false_get. rewrite Hother2, Hother1 by congruence.
    now apply has_false_get. }
  assert (HgetX2 : JsMap.get X (NotesManager.books st2) = Some s1).
  { rewrite Hother2 by congruence. exact Hget1. }
  assert (d3 = 2).
  { destruct d3 as [|[|[|d3]]]; [| |reflexivity|].
    - rewrite candidate_0, (has_true_get _ _ HgetX2) in Hfree3. discriminate.
    - rewrite candidate_1, (has_true_get _ _ Hget2) in Hfree3. discriminate.
    - pose proof (Hleast3 2 ltac:(lia)) as E. rewrite candidate_2 in E.
      congruence. }
  subst d3. rewrite candidate_2 in *.
  exists st1, st2, st3. unfold NotesManager.getBook.
  split; [exact Hs1|]. split; [exact Hs2|]. split; [exact Hs3|].
  split.
  { rewrite Hkeys3, Hkeys2, Hkeys1, <- !app_assoc. reflexivity. }
  split.
  { exists s1. rewrite Hother3 by congruence. auto. }
  split.
  { exists s2. rewrite Hother3 by congruence. auto. }
  exists s3. auto.
Qed.

Lemma three_bundles_of_one_title_witness :
  exists st1 st2 st3,
    NotesManager.storeParsedData NotesManager.empty (Examples.titled_X "c1") = Some st1
    /\ NotesManager.storeParsedData st1 (Examples.titled_X "c2") = Some st2
    /\ NotesManager.storeParsedData st2 (Examples.titled_X "c3") = Some st3
    /\ JsMap.keys (NotesManager.books st3) = [lit "X"; lit "X_1"; lit "X_2"].
Proof.
  destruct (@three_bundles_of_one_title NotesManager.empty (lit "X")
              (Examples.titled_X "c1") (Examples.titled_X "c2")
              (Examples.titled_X "c3")
              eq_refl eq_refl eq_refl eq_refl eq_refl eq_refl)
    as (st1 & st2 & st3 & H1 & H2 & H3 & Hkeys & _).
  exists st1, st2, st3. repeat split; assumption.
Defined.

(** ** The bounded loops run to their end

    [exec_all], [parseWeChatFormat] and [parsePlainText] give their loops as
    many rounds as the input has units or lines; more rounds change nothing. *)

Lemma scan_enough (r : Regex.re) :
  forall fuel1 fuel2 s pos,
    length s < fuel1 -> length s < fuel2 ->
    Regex.scan fuel1 r s pos = Regex.scan fuel2 r s pos.
Proof.
  induction fuel1 as [|fuel1 IH]; intros fuel2 s pos H1 H2; [lia|].
  destruct fuel2 as [|fuel2]; [lia|].
  cbn [Regex.scan]. destruct (Regex.search r s pos) as [m|]; [|reflexivity].
  cbv zeta. f_equal.
  set (step := Regex.index m - pos + Nat.max 1 (length (Regex.text m))).
  destruct (length s <? step) eqn:E; [reflexivity|].
  apply Nat.ltb_ge in E.
  assert (1 <= step) by (unfold step; lia).
  apply IH; rewrite length_skipn; lia.
Qed.

Section LoopFacts.
Context {rt : Runtime}.

Lemma line_at_beyond (lines : list jsstring) (i : nat) :
  length lines <= i -> WeChatParser.line_at lines i = None.
Proof.
  intros H. unfold WeChatParser.line_at.
  now rewrite (proj2 (nth_error_None lines i) H).
Qed.

Lemma marker_block_advances lines title author chapter line marked ok kind location c :
  WeChatParser.cur_i c
  <= WeChatParser.cur_i
       (WeChatParser.marker_block lines title author chapter line marked ok kind
          location c).
Proof.
  unfold WeChatParser.marker_block. destruct marked; [|lia].
  destruct (WeChatParser.present _ ok); cbn [WeChatParser.cur_i]; lia.
Qed.

Lemma format_loop_enough (lines : list jsstring) (title author : jsstring) :
  forall fuel1 fuel2 chapter i noteIndex,
    length lines <= i + fuel1 -> length lines <= i + fuel2 ->
    WeChatParser.format_loop fuel1 lines title author chapter i noteIndex
    = WeChatParser.format_loop fuel2 lines title author chapter i noteIndex.
Proof.
  induction fuel1 as [|fuel1 IH]; intros fuel2 chapter i noteIndex H1 H2.
  - destruct fuel2; cbn [WeChatParser.format_loop]; [reflexivity|].
    now rewrite line_at_beyond by lia.
  - destruct fuel2 as [|fuel2]; cbn [WeChatParser.format_loop].
    + now rewrite line_at_beyond by lia.
    + destruct (WeChatParser.line_at lines i) as [line|]; [|reflexivity].
      destruct (includes line (lit "章节")
                || includes line (lit "第") && includes line (lit "章")).
      * apply IH; lia.
      * cbv zeta. f_equal.
        match goal with
        | |- context [WeChatParser.cur_i ?c] =>
          assert (i <= WeChatParser.cur_i c) as Hadv
        end.
        { eapply Nat.le_trans; [|apply marker_block_advances].
          eapply Nat.le_trans; [|apply marker_block_advances].
          eapply Nat.le_trans; [|apply marker_block_advances].
          cbn [WeChatParser.cur_i]. lia. }
        apply IH; lia.
Qed.

Lemma text_loop_enough (lines : list jsstring) (title author : jsstring) :
  forall fuel1 fuel2 chapter i noteIndex,
    length lines <= i + fuel1 -> length lines <= i + fuel2 ->
    WeChatParser.text_loop fuel1 lines title author chapter i noteIndex
    = WeChatParser.text_loop fuel2 lines title author chapter i noteIndex.
Proof.
  induction fuel1 as [|fuel1 IH]; intros fuel2 chapter i noteIndex H1 H2.
  - destruct fuel2; cbn [WeChatParser.text_loop]; [reflexivity|].
    now rewrite line_at_beyond by lia.
  - destruct fuel2 as [|fuel2]; cbn [WeChatParser.text_loop].
    + now rewrite line_at_beyond by lia.
    + destruct (WeChatParser.line_at lines i) as [line|]; [|reflexivity].
      repeat match goal with
             | |- (if ?c then _ else _) = (if ?c then _ else _) => destruct c
             | |- match ?c with Some _ => _ | None => _ end
                  = match ?c with Some _ => _ | None => _ end => destruct c
             end;
        f_equal; apply IH; lia.
Qed.

End LoopFacts.

(** ** Where [parse] returns

    [DuokanParser.parse] throws only on the JSON path: when the decoded
    value or an element of its [notes] array is [null], or when what an
    element holds under [type], [createdAt] or [date] has no primitive
    value. *)

Lemma bind_returns {A B} (m : Result A) (f : A -> Result B) :
  (exists a, m = Ok a) -> (forall a, exists b, f a = Ok b) ->
  exists b, bind m f = Ok b.
Proof. intros [a ->] Hf. exact (Hf a). Qed.

Lemma prop_returns (v : JsVal) (key : jsstring) :
  nullish v = false -> exists x, prop v key = Ok x.
Proof. destruct v; simpl; try discriminate; intros _; eexists; reflexivity. Qed.

Lemma or_returns (a b : Result JsVal) :
  (exists x, a = Ok x) -> (exists y, b = Ok y) -> exists z, (a <||> b) = Ok z.
Proof.
  intros [x ->] [y ->]. cbn [bind]. destruct (truthy x); eexists; reflexivity.
Qed.

Lemma each_returns {A B} (P : A -> Prop) (f : nat -> A -> Result (list B)) :
  (forall i x, P x -> exists l, f i x = Ok l) ->
  forall xs i, Forall P xs -> exists l, Parsed.each f i xs = Ok l.
Proof.
  intros Hf. induction xs as [|x xs IH]; intros i Hxs; simpl.
  - eexists; reflexivity.
  - inversion Hxs as [|? ? Hx Hrest]; subst.
    destruct (Hf i x Hx) as [l ->]. destruct (IH (S i) Hrest) as [l' ->].
    eexists; reflexivity.
Qed.

Ltac returns :=
  repeat first
    [ apply or_returns
    | apply prop_returns; assumption
    | eexists; reflexivity
    | apply bind_returns; [|intros ?] ].

Lemma bind_returns_from {A B} (m : Result A) (f : A -> Result B) :
  (exists a, m = Ok a) -> (forall a, m = Ok a -> exists b, f a = Ok b) ->
  exists b, bind m f = Ok b.
Proof. intros [a Ha] Hf. rewrite Ha. exact (Hf a Ha). Qed.

(** What [a || b] gives is what [a] gave or what [b] gave. *)
Lemma or_converts (a b : Result JsVal) (z : JsVal) :
  (a <||> b) = Ok z ->
  (forall x, a = Ok x -> ToPrimitive_returns x = true) ->
  (forall y, b = Ok y -> ToPrimitive_returns y = true) ->
  ToPrimitive_returns z = true.
Proof.
  destruct a as [x|e]; cbn [bind]; [|discriminate].
  intros H Ha Hb. destruct (truthy x).
  - injection H as <-. now apply Ha.
  - now apply Hb.
Qed.

Section ReturnFacts.
Context {rt : Runtime}.

Lemma map_type_returns (typeMap : list (jsstring * jsstring)) (type : JsVal) :
  ToPrimitive_returns type = true ->
  exists kind, Parsed.map_type typeMap type = Ok kind.
Proof.
  intros H. unfold Parsed.map_type, ToPropertyKey.
  destruct type; try rewrite H; cbn [bind]; eexists; reflexivity.
Qed.

Lemma Date_new_returns (value : JsVal) :
  ToPrimitive_returns value = true -> exists d, Date_new value = Ok d.
Proof. intros H. unfold Date_new. rewrite H. eexists; reflexivity. Qed.

(** The value handed to [mapNoteType]: [note.type || 'highlight']. *)
Lemma type_converts (note type : JsVal) :
  Spec.element_ok note ->
  (prop note (lit "type") <||> Ok (Parsed.str "highlight")) = Ok type ->
  ToPrimitive_returns type = true.
Proof.
  intros [_ Hconv] H. eapply or_converts; [exact H| |].
  - intros x Hx. apply (Hconv (lit "type") x); [now left | exact Hx].
  - intros y Hy. injection Hy as <-. reflexivity.
Qed.

(** The value handed to [new Date]:
    [note.createdAt || note.date || Date.now()]. *)
Lemma created_converts (note created : JsVal) (z : Z) :
  Spec.element_ok note ->
  (prop note (lit "createdAt") <||> prop note (lit "date")
   <||> Ok (VNum (num_of_Z z))) = Ok created ->
  ToPrimitive_returns created = true.
Proof.
  intros [_ Hconv] H. eapply or_converts; [exact H| |].
  - intros x Hx. apply (Hconv (lit "createdAt") x); [right; now left | exact Hx].
  - intros y Hy. eapply or_converts; [exact Hy| |].
    + intros x Hx. apply (Hconv (lit "date") x); [right; right; now left | exact Hx].
    + intros x Hx. injection Hx as <-. reflexivity.
Qed.

Ltac json_note_returns :=
  match goal with
  | Hnote : Spec.element_ok ?note |- _ =>
    pose proof (proj1 Hnote);
    cbv zeta;
    apply bind_returns; [returns|intros ?];
    apply bind_returns; [returns|intros ?];
    apply bind_returns_from; [returns|intros ? ?];
    apply bind_returns;
      [apply map_type_returns; eapply type_converts; eassumption|intros ?];
    apply bind_returns; [returns|intros ?];
    apply bind_returns; [returns|intros ?];
    apply bind_returns; [returns|intros ?];
    apply bind_returns; [returns|intros ?];
    apply bind_returns_from; [returns|intros ? ?];
    apply bind_returns;
      [apply Date_new_returns; eapply created_converts; eassumption|intros ?];
    returns
  end.


Lemma wechat_json_note_returns (data : JsVal) (i : nat) (note : JsVal) :
  nullish data = false -> Spec.element_ok note ->
  exists l, WeChatParser.json_note data i note = Ok l.
Proof.
  intros Hdata Hnote. unfold WeChatParser.json_note, WeChatParser.mapNoteType.
  json_note_returns.
Qed.



Lemma split_keeps (sep c : N) (s : jsstring) :
  In c s -> c <> sep -> exists piece, In piece (split sep s) /\ In c piece.
Proof.
  intros Hin Hsep. induction s as [|x s IH]; [destruct Hin|].
  cbn [split]. destruct (N.eqb_spec x sep) as [->|Hx].
  - destruct Hin as [->|Hin]; [congruence|].
    destruct (IH Hin) as (piece & Hp & Hc). exists piece. split; [now right|easy].
  - destruct Hin as [->|Hin].
    + destruct (split sep s) as [|piece pieces].
      * exists [c]. split; now left.
      * exists (c :: piece). split; now left.
    + destruct (IH Hin) as (piece & Hp & Hc).
      destruct (split sep s) as [|first pieces]; [destruct Hp|].
      destruct Hp as [->|Hp].
      * exists (x :: piece). split; [now left | now right].
      * exists piece. split; [now right | easy].
Qed.

Lemma drop_spaces_keeps (c : N) (s : jsstring) :
  In c s -> is_space c = false -> In c (drop_spaces s).
Proof.
  intros Hin Hc. induction s as [|x s IH]; [destruct Hin|].
  cbn [drop_spaces]. destruct (is_space x) eqn:Hx; [|exact Hin].
  destruct Hin as [->|Hin]; [congruence | now apply IH].
Qed.

Lemma trim_keeps (c : N) (s : jsstring) :
  In c s -> is_space c = false -> In c (trim s).
Proof.
  intros Hin Hc. unfold trim.
  apply in_rev. rewrite rev_involutive.
  apply drop_spaces_keeps; [|exact Hc].
  apply -> in_rev. now apply drop_spaces_keeps.
Qed.

(** A text with a comma has a line that is not blank. *)
Lemma comma_line_is_not_blank (input : jsstring) :
  includes input (lit ",") = true -> Parsed.nonblank_lines input <> [].
Proof.
  intros H. apply includes_spec in H as (pre & post & ->).
  destruct (@split_keeps LF COMMA (pre ++ lit "," ++ post)) as (piece & Hp & Hc).
  { apply in_or_app. right. now left. }
  { discriminate. }
  intros Hnone.
  assert (Hin : In piece (Parsed.nonblank_lines (pre ++ lit "," ++ post))).
  { apply filter_In. split; [exact Hp|].
    pose proof (@trim_keeps COMMA piece Hc eq_refl) as Ht.
    destruct (trim piece); [destruct Ht | reflexivity]. }
  rewrite Hnone in Hin. destruct Hin.
Qed.

Lemma findIndex_lt {A} (p : A -> bool) (l : list A) (k : nat) :
  findIndex p l = Some k -> k < length l.
Proof.
  revert k. induction l as [|x l IH]; intros k; simpl; [discriminate|].
  destruct (p x).
  - intros H. injection H as <-. lia.
  - destruct (findIndex p l) as [j|]; simpl; [|discriminate].
    intros H. injection H as <-. specialize (IH j eq_refl). lia.
Qed.

Lemma column_returns (columns : list jsstring) (k : nat) :
  k < length columns -> exists c, WeChatParser.column columns k = Ok c.
Proof.
  intros Hk. unfold WeChatParser.column.
  destruct (nth_error columns k) eqn:E; [eexists; reflexivity|].
  apply nth_error_None in E. lia.
Qed.

Lemma header_column_returns (headers columns : list jsstring) (a b : string) (k : nat) :
  length headers <= length columns ->
  WeChatParser.header_index headers a b = Some k ->
  exists c, WeChatParser.column columns k = Ok c.
Proof.
  intros Hlen Hk. apply column_returns.
  apply findIndex_lt in Hk. lia.
Qed.

(** A row that has the columns of the header is read without a throw. *)
Lemma csv_row_returns (headers : list jsstring) (i : nat) (line : jsstring) :
  (2 <= length (WeChatParser.columns_of line [] false []) ->
   length headers <= length (WeChatParser.columns_of line [] false [])) ->
  exists l, WeChatParser.csv_row headers i line = Ok l.
Proof.
  intros Hrow. unfold WeChatParser.csv_row. cbv zeta.
  destruct (2 <=? length (WeChatParser.columns_of line [] false [])) eqn:E;
    [|eexists; reflexivity].
  apply Nat.leb_le in E. specialize (Hrow E).
  apply bind_returns.
  { destruct (WeChatParser.header_index headers "内容" "content") eqn:Ek.
    - eapply header_column_returns; eassumption.
    - apply column_returns. lia. }
  intros noteContent. apply bind_returns.
  { destruct (WeChatParser.header_index headers "章节" "chapter") eqn:Ek.
    - eapply header_column_returns; eassumption.
    - eexists; reflexivity. }
  intros chapter. apply bind_returns.
  { destruct (WeChatParser.header_index headers "类型" "type") eqn:Ek.
    - apply bind_returns; [|intros t; eexists; reflexivity].
      eapply header_column_returns; eassumption.
    - eexists; reflexivity. }
  intros noteType. destruct (truthy_str noteContent); eexists; reflexivity.
Qed.

Lemma In_skipn {A} (k : nat) (l : list A) (x : A) : In x (skipn k l) -> In x l.
Proof.
  revert l. induction k as [|k IH]; intros [|y l]; simpl; auto.
Qed.

(** [WeChatParser.parse] returns on the two free-text paths, on JSON whose
    decoded value is not [null] and whose [notes] elements are read without
    a throw, and on CSV whose rows have the columns of the header. *)
Lemma wechat_parse_returns (input : jsstring) :
  Spec.json_shape_ok input -> Spec.csv_rows_ok input ->
  exists b, WeChatParser.parse input = Ok b.
Proof.
  intros Hjson Hcsv. unfold WeChatParser.parse, WeChatParser.isValidJSON.
  destruct (includes input (lit "微信读书") && includes input (lit "想法")).
  { eexists; reflexivity. }
  destruct (JSON_parse input) as [data|] eqn:E.
  - destruct (Hjson data E) as [Hdata Helems].
    unfold WeChatParser.parseJSON. rewrite E.
    destruct (prop_returns data (lit "notes") Hdata) as [listed Hlisted].
    rewrite Hlisted. cbn [bind].
    apply bind_returns.
    + destruct listed; try (eexists; reflexivity).
      apply each_returns with (P := Spec.element_ok).
      * intros i x Hx. now apply wechat_json_note_returns.
      * now apply Helems.
    + intros notes. returns.
  - destruct (includes input (lit ",")) eqn:Hcomma; [|eexists; reflexivity].
    unfold WeChatParser.parseCSV.
    destruct (Parsed.nonblank_lines input) as [|first rest] eqn:Hlines.
    + now apply comma_line_is_not_blank in Hcomma.
    + cbv zeta. apply bind_returns; [|intros notes; eexists; reflexivity].
      apply each_returns
        with (P := fun line => In line (first :: rest)).
      * intros i line Hin. apply csv_row_returns. intros H2.
        rewrite length_map. eapply Hcsv; eassumption.
      * apply Forall_forall. intros line Hin. eapply In_skipn; eassumption.
Qed.

End ReturnFacts.



(** ** The two sorts that do run

    With [sortBy = 'position'] (and with [sortBy = 'date'] when every date is
    valid) the rendered order is the given list sorted by the key, notes of
    equal key keeping their order. *)

Section SortFacts.
Variable A : Type.
Variable key : A -> Z.
Variable cmp : A -> A -> option Z.
Hypothesis cmp_key : forall a b, cmp a b = Some (key a - key b)%Z.

Lemma before_key (a b : A) :
  MarkdownFormatter.before cmp a b = true <-> (key a < key b)%Z.
Proof.
  unfold MarkdownFormatter.before. rewrite cmp_key.
  rewrite Z.ltb_lt. lia.
Qed.

Lemma insert_permutation (x : A) (l : list A) :
  Permutation (x :: l) (MarkdownFormatter.insert cmp x l).
Proof.
  induction l as [|y l IH]; simpl; [reflexivity|].
  destruct (MarkdownFormatter.before cmp y x); [|reflexivity].
  rewrite perm_swap. now apply perm_skip.
Qed.

Lemma sort_permutation (l : list A) :
  Permutation l (MarkdownFormatter.sort cmp l).
Proof.
  induction l as [|x l IH]; simpl; [reflexivity|].
  rewrite <- insert_permutation. now apply perm_skip.
Qed.

Lemma insert_hd (x y : A) (l : list A) :
  Spec.key_le key y x -> HdRel (Spec.key_le key) y l ->
  HdRel (Spec.key_le key) y (MarkdownFormatter.insert cmp x l).
Proof.
  intros Hyx Hl. destruct l as [|z l]; simpl.
  - now constructor.
  - destruct (MarkdownFormatter.before cmp z x); constructor;
      [now inversion Hl | assumption].
Qed.

Lemma insert_sorted (x : A) (l : list A) :
  Sorted (Spec.key_le key) l ->
  Sorted (Spec.key_le key) (MarkdownFormatter.insert cmp x l).
Proof.
  induction 1 as [|y l Hl IH Hhd]; simpl.
  - repeat constructor.
  - destruct (MarkdownFormatter.before cmp y x) eqn:E.
    + apply before_key in E. constructor; [assumption|].
      apply insert_hd; [unfold Spec.key_le; lia | assumption].
    + assert (key x <= key y)%Z as Hxy.
      { destruct (Z.lt_ge_cases (key y) (key x)) as [Hlt|Hge]; [|lia].
        apply before_key in Hlt. congruence. }
      constructor; [now constructor | now constructor].
Qed.

Lemma sort_sorted (l : list A) : Sorted (Spec.key_le key) (MarkdownFormatter.sort cmp l).
Proof.
  induction l as [|x l IH]; simpl; [constructor | now apply insert_sorted].
Qed.

End SortFacts.

Lemma sorted_by_position (notes : list Notes.BookNote) :
  Permutation notes (MarkdownFormatter.sortedNotes MarkdownFormatter.position notes)
  /\ Sorted (Spec.key_le MarkdownFormatter.position_or_0)
       (MarkdownFormatter.sortedNotes MarkdownFormatter.position notes).
Proof.
  split; [apply sort_permutation|].
  apply sort_sorted. reflexivity.
Qed.

(** ** Ingestion of fresh, distinct ids

    When the ids of the incoming annotations are pairwise distinct and none
    of them is in the flat index, no id is suffixed, every write-back lands on
    the slot of the annotation itself, and the two indexes stay in step. *)

Lemma with_id_same (n : Notes.BookNote) : Notes.with_id n (Notes.id n) = n.
Proof. destruct n; reflexivity. Qed.

Lemma with_notes_same (b : Notes.ParsedBookData) :
  Notes.with_notes b (Notes.notes b) = b.
Proof. destruct b; reflexivity. Qed.

Lemma set_same {V} (m : JsMap.t V) (k : jsstring) (v : V) :
  JsMap.get k m = Some v -> JsMap.set k v m = m.
Proof.
  induction m as [|[k' v'] m IH]; simpl; [discriminate|].
  destruct (str_eqb k' k) eqn:E.
  - intros H. injection H as ->. apply str_eqb_eq in E. now subst.
  - intros H. now rewrite IH.
Qed.

Lemma assign_same {A} (done todo : list A) (x : A) :
  assign (done ++ x :: todo) (length done) x = done ++ x :: todo.
Proof. induction done as [|y done IH]; simpl; [reflexivity | now rewrite IH]. Qed.

Lemma findIndex_first {A} (p : A -> bool) (done todo : list A) (x : A) :
  Forall (fun y => p y = false) done -> p x = true ->
  findIndex p (done ++ x :: todo) = Some (length done).
Proof.
  intros Hdone Hx. induction Hdone as [|y done Hy Hdone IH]; simpl.
  - now rewrite Hx.
  - now rewrite Hy, IH.
Qed.

Lemma unique_of_free {V} (m : JsMap.t V) (base : jsstring) :
  JsMap.has base m = false -> NotesManager.unique m base = Some base.
Proof.
  intros Hfree. destruct (unique_spec m base) as [d (Hunique & _ & Hleast)].
  destruct d as [|d]; [exact Hunique|].
  pose proof (Hleast 0 ltac:(lia)) as E. rewrite candidate_0 in E. congruence.
Qed.

Lemma loop_over_fresh_ids (bookTitle : jsstring) (b : Notes.ParsedBookData) :
  forall (todo done : list Notes.BookNote) (st : NotesManager.Store),
    Notes.notes b = done ++ todo ->
    JsMap.get bookTitle (NotesManager.books st) = Some b ->
    NoDup (map Notes.id (done ++ todo)) ->
    (forall n, In n todo -> JsMap.has (Notes.id n) (NotesManager.notes st) = false) ->
    NotesManager.for_each (NotesManager.store_note bookTitle)
      (seq (length done) (length todo)) st
    = Some {| NotesManager.notes := Spec.add_all todo (NotesManager.notes st);
              NotesManager.books := NotesManager.books st |}.
Proof.
  induction todo as [|n todo IH]; intros done st Hb Hget Hnodup Hfresh.
  - destruct st; reflexivity.
  - cbn [length seq NotesManager.for_each].
    assert (Hstep : NotesManager.store_note bookTitle st (length done)
                    = Some {| NotesManager.notes :=
                                JsMap.set (Notes.id n) n (NotesManager.notes st);
                              NotesManager.books := NotesManager.books st |}).
    { unfold NotesManager.store_note. rewrite Hget, Hb.
      rewrite nth_error_app2, Nat.sub_diag by lia. cbn [nth_error].
      rewrite unique_of_free by (apply Hfresh; now left).
      rewrite with_id_same. f_equal. f_equal.
      unfold NotesManager.put_note. rewrite Hget, Hb.
      rewrite findIndex_first.
      - rewrite assign_same, <- Hb, with_notes_same. now apply set_same.
      - apply Forall_forall. intros y Hy. apply str_eqb_neq. intros E.
        rewrite map_app in Hnodup. cbn [map] in Hnodup.
        apply NoDup_remove_2 in Hnodup. apply Hnodup.
        apply in_or_app. left. rewrite <- E. now apply in_map.
      - apply str_eqb_refl. }
    rewrite Hstep.
    replace (S (length done)) with (length (done ++ [n]))
      by (rewrite length_app; simpl; lia).
    rewrite (IH (done ++ [n])).
    + reflexivity.
    + now rewrite <- app_assoc.
    + assumption.
    + now rewrite <- app_assoc.
    + intros m Hm. cbn [NotesManager.notes].
      rewrite has_set_other; [apply Hfresh; now right|].
      intros E. rewrite map_app in Hnodup. cbn [map] in Hnodup.
      apply NoDup_remove_2 in Hnodup. apply Hnodup.
      apply in_or_app. right. rewrite E. now apply in_map.
Qed.

Lemma add_all_other (l : list Notes.BookNote) (m : JsMap.t Notes.BookNote)
  (k : jsstring) :
  ~ In k (map Notes.id l) -> JsMap.get k (Spec.add_all l m) = JsMap.get k m.
Proof.
  revert m. induction l as [|n l IH]; intros m Hk; [reflexivity|].
  unfold Spec.add_all; cbn [fold_left].
  fold (Spec.add_all l (JsMap.set (Notes.id n) n m)).
  rewrite IH by (intros H; apply Hk; now right).
  apply get_set_other. intros E. apply Hk. now left.
Qed.

Lemma add_all_holds (l : list Notes.BookNote) (m : JsMap.t Notes.BookNote)
  (n : Notes.BookNote) :
  NoDup (map Notes.id l) -> In n l ->
  JsMap.get (Notes.id n) (Spec.add_all l m) = Some n.
Proof.
  revert m. induction l as [|x l IH]; intros m Hnodup Hin; [contradiction|].
  unfold Spec.add_all; cbn [fold_left].
  fold (Spec.add_all l (JsMap.set (Notes.id x) x m)).
  cbn [map] in Hnodup. inversion Hnodup as [|? ? Hx Hl]; subst.
  destruct Hin as [->|Hin].
  - rewrite add_all_other by assumption. apply get_set_same.
  - now apply IH.
Qed.

Lemma fresh_distinct_ids_keep_the_indexes_in_step
  (st : NotesManager.Store) (data : Notes.ParsedBookData) :
  Spec.indexes_agree st ->
  NoDup (map Notes.id (Notes.notes data)) ->
  (forall n, In n (Notes.notes data) ->
             JsMap.has (Notes.id n) (NotesManager.notes st) = false) ->
  exists st',
    NotesManager.storeParsedData st data = Some st' /\ Spec.indexes_agree st'.
Proof.
  intros Hagree Hnodup Hfresh.
  destruct (unique_spec (NotesManager.books st) (Notes.title (Notes.metadata data)))
    as [d (Hunique & Hfree & _)].
  set (title := Spec.candidate (Notes.title (Notes.metadata data)) d) in *.
  set (stampedNotes := map (fun note => Notes.with_bookTitle note title)
                         (Notes.notes data)).
  set (updatedData :=
         {| Notes.metadata := Notes.with_title (Notes.metadata data) title;
            Notes.notes := stampedNotes |}).
  assert (Hids : map Notes.id stampedNotes = map Notes.id (Notes.notes data)).
  { unfold stampedNotes. rewrite map_map. reflexivity. }
  eexists. split.
  - unfold NotesManager.storeParsedData. rewrite Hunique.
    fold title. fold stampedNotes. fold updatedData.
    replace (length (Notes.notes data)) with (length stampedNotes)
      by apply length_map.
    apply (@loop_over_fresh_ids title updatedData stampedNotes []).
    + reflexivity.
    + apply get_set_same.
    + cbn [app]. now rewrite Hids.
    + intros n Hn. cbn [NotesManager.notes].
      apply in_map_iff in Hn as [n0 [<- Hn0]].
      cbn [Notes.with_bookTitle Notes.id]. now apply Hfresh.
  - intros t b n Hb Hn. cbn [NotesManager.notes NotesManager.books] in *.
    destruct (str_eq_dec title t) as [<-|Hne].
    + rewrite get_set_same in Hb. injection Hb as <-.
      change (In n stampedNotes) in Hn.
      apply add_all_holds; [now rewrite Hids | exact Hn].
    + rewrite get_set_other in Hb by assumption.
      pose proof (Hagree t b n Hb Hn) as Hheld.
      rewrite add_all_other; [exact Hheld|].
      rewrite Hids. intros Hin. apply in_map_iff in Hin as [n0 [E Hn0]].
      apply Hfresh in Hn0. rewrite E in Hn0.
      apply has_false_get in Hn0. congruence.
Qed.

(* ===================================================================== *)
(** * Further properties of the notes manager *)
(* ===================================================================== *)

Section MoreMapFacts.
Variable V : Type.
Implicit Types (m : JsMap.t V) (k : jsstring) (v : V).

Lemma get_delete_other m k k' :
  k <> k' -> JsMap.get k' (JsMap.delete k m) = JsMap.get k' m.
Proof.
  intros Hne. induction m as [|[k0 v0] m IH]; simpl; [reflexivity|].
  destruct (str_eqb k0 k) eqn:E; simpl.
  - apply str_eqb_eq in E. subst k0.
    apply str_eqb_neq in Hne. now rewrite Hne.
  - destruct (str_eqb k0 k'); [reflexivity | exact IH].
Qed.

Lemma get_delete_some m k k' v :
  JsMap.get k' (JsMap.delete k m) = Some v -> k <> k' /\ JsMap.get k' m = Some v.
Proof.
  intros H. destruct (str_eq_dec k k') as [->|Hne].
  - rewrite get_delete_same in H. discriminate.
  - split; [assumption|]. now rewrite get_delete_other in H.
Qed.

Lemma values_set_new m k v :
  JsMap.has k m = false -> JsMap.values (JsMap.set k v m) = JsMap.values m ++ [v].
Proof.
  unfold JsMap.has. induction m as [|[k' v'] m IH]; simpl; [reflexivity|].
  destruct (str_eqb k' k) eqn:E; [discriminate|].
  intros H. simpl. now rewrite IH.
Qed.

Lemma has_set_false m k k' v :
  JsMap.has k' (JsMap.set k v m) = false -> JsMap.has k' m = false.
Proof.
  intros H. destruct (str_eq_dec k k') as [->|Hne].
  - now rewrite has_set_same in H.
  - now rewrite has_set_other in H.
Qed.

End MoreMapFacts.

(** ** Ingestion: what the two indexes receive *)

(** X1. [storeParsedData] always returns: each of its suffix loops stops,
    because a map of [n] entries cannot hold all of [n + 1] candidate names.
    The bundle is stored under the first of [title], [title_1], [title_2],
    ... that the book index does not hold, after the titles already there;
    no other bundle changes; the stored bundle has as many annotations as the
    incoming one, and it and every annotation of it carry the resolved
    title. *)
Theorem ingestion_stores_under_the_first_free_title
  (st : NotesManager.Store) (data : Notes.ParsedBookData) :
  exists d st',
    let title := Spec.candidate (Notes.title (Notes.metadata data)) d in
    NotesManager.storeParsedData st data = Some st'
    /\ JsMap.has title (NotesManager.books st) = false
    /\ (forall j, j < d ->
          JsMap.has (Spec.candidate (Notes.title (Notes.metadata data)) j)
            (NotesManager.books st) = true)
    /\ JsMap.keys (NotesManager.books st')
       = JsMap.keys (NotesManager.books st) ++ [title]
    /\ (forall other, other <> title ->
          NotesManager.getBook st' other = NotesManager.getBook st other)
    /\ exists b, NotesManager.getBook st' title = Some b
                 /\ Spec.stamped title b
                 /\ length (Notes.notes b) = length (Notes.notes data).
Proof. exact (storeParsedData_spec st data). Qed.

Lemma findIndex_le {A} (p : A -> bool) (l : list A) (i : nat) (x : A) :
  nth_error l i = Some x -> p x = true ->
  exists idx, findIndex p l = Some idx /\ idx <= i.
Proof.
  revert i. induction l as [|y l IH]; intros [|i] Hnth Hx; simpl in *;
    try discriminate.
  - injection Hnth as ->. rewrite Hx. exists 0. auto.
  - destruct (p y); [exists 0; split; [reflexivity | lia]|].
    destruct (IH i Hnth Hx) as [idx [-> Hle]]. exists (S idx). simpl.
    split; [reflexivity | lia].
Qed.

Lemma nth_error_assign_other {A} (l : list A) (idx k : nat) (x : A) :
  k <> idx -> nth_error (assign l idx x) k = nth_error l k.
Proof.
  revert idx k. induction l as [|y l IH]; intros [|idx] [|k] Hne; simpl;
    try reflexivity; try lia.
  apply IH. lia.
Qed.

(** The bundle under [bookTitle] after a write-back: the slots after the one
    the loop is visiting are as they were. *)
Lemma put_note_later_slots (bookTitle : jsstring) (note updated : Notes.BookNote)
  (bs : JsMap.t Notes.ParsedBookData) (b : Notes.ParsedBookData) (i : nat) :
  JsMap.get bookTitle bs = Some b ->
  nth_error (Notes.notes b) i = Some note ->
  exists b',
    JsMap.get bookTitle
      (NotesManager.put_note bookTitle
         (fun n => str_eqb (Notes.id n) (Notes.id note)) updated bs) = Some b'
    /\ forall k, i < k -> nth_error (Notes.notes b') k = nth_error (Notes.notes b) k.
Proof.
  intros Hget Hnth. unfold NotesManager.put_note. rewrite Hget.
  destruct (findIndex_le (fun n => str_eqb (Notes.id n) (Notes.id note))
              (Notes.notes b) i Hnth (str_eqb_refl _)) as [idx [-> Hle]].
  rewrite get_set_same. eexists. split; [reflexivity|].
  intros k Hk. cbn [Notes.with_notes Notes.notes].
  apply nth_error_assign_other. lia.
Qed.

(** The loop over the annotations of the stored bundle, from slot [i] on. *)
Lemma loop_fills_the_flat_index (bookTitle : jsstring) :
  forall (todo : list Notes.BookNote) (i : nat) (st : NotesManager.Store)
         (b : Notes.ParsedBookData),
    JsMap.get bookTitle (NotesManager.books st) = Some b ->
    (forall k, k < length todo ->
               nth_error (Notes.notes b) (i + k) = nth_error todo k) ->
    exists st' ids,
      NotesManager.for_each (NotesManager.store_note bookTitle)
        (seq i (length todo)) st = Some st'
      /\ JsMap.keys (NotesManager.notes st')
         = JsMap.keys (NotesManager.notes st) ++ ids
      /\ JsMap.values (NotesManager.notes st')
         = JsMap.values (NotesManager.notes st)
           ++ map (fun p => Notes.with_id (fst p) (snd p)) (combine todo ids)
      /\ Forall2 (fun n k => exists d, k = Spec.candidate (Notes.id n) d) todo ids
      /\ NoDup ids
      /\ (forall k, In k ids -> JsMap.has k (NotesManager.notes st) = false)
      /\ exists b', JsMap.get bookTitle (NotesManager.books st') = Some b'.
Proof.
  induction todo as [|n todo IH]; intros i st b Hget Hslots.
  - exists st, []. cbn [length seq NotesManager.for_each combine map].
    rewrite !app_nil_r. repeat split; try constructor; [intros k []|].
    now exists b.
  - cbn [length seq NotesManager.for_each].
    pose proof (Hslots 0 ltac:(simpl; lia)) as Hnth.
    rewrite Nat.add_0_r in Hnth. cbn [nth_error] in Hnth.
    destruct (unique_spec (NotesManager.notes st) (Notes.id n))
      as [d (Hunique & Hfree & _)].
    set (noteId := Spec.candidate (Notes.id n) d) in *.
    unfold NotesManager.store_note at 1. rewrite Hget, Hnth, Hunique.
    destruct (@put_note_later_slots bookTitle n (Notes.with_id n noteId)
                (NotesManager.books st) b i Hget Hnth) as [b1 [Hget1 Hlater]].
    match goal with
    | |- context [NotesManager.for_each _ _ ?s] => set (st1 := s)
    end.
    destruct (IH (S i) st1 b1 Hget1) as [st' [ids H]].
    { intros k Hk. rewrite Hlater by lia.
      replace (S i + k) with (i + S k) by lia.
      now rewrite Hslots by (simpl; lia). }
    destruct H as (Hloop & Hkeys & Hvalues & Hcand & Hnodup & Hnew & Hheld).
    exists st', (noteId :: ids).
    split; [exact Hloop|].
    cbn [st1 NotesManager.notes] in Hkeys, Hvalues, Hnew.
    rewrite keys_set_new in Hkeys by assumption.
    rewrite values_set_new in Hvalues by assumption.
    rewrite <- app_assoc in Hkeys, Hvalues.
    split; [exact Hkeys|]. split; [exact Hvalues|].
    split; [constructor; [now exists d | exact Hcand]|].
    split.
    { constructor; [|exact Hnodup].
      intros Hin. apply Hnew in Hin. now rewrite has_set_same in Hin. }
    split; [|exact Hheld].
    intros k [<-|Hin]; [exact Hfree|].
    eapply has_set_false. apply Hnew, Hin.
Qed.

Lemma combine_map_l {A B C} (f : A -> B) (l : list A) (l' : list C) :
  combine (map f l) l' = map (fun p => (f (fst p), snd p)) (combine l l').
Proof.
  revert l'. induction l as [|x l IH]; intros [|y l']; simpl;
    try reflexivity. now rewrite IH.
Qed.

Lemma Forall2_map_l {A B C} (R : B -> C -> Prop) (f : A -> B) (l : list A)
  (l' : list C) :
  Forall2 R (map f l) l' -> Forall2 (fun a c => R (f a) c) l l'.
Proof.
  revert l'. induction l as [|x l IH]; intros l' H; inversion H; subst;
    constructor; auto.
Qed.

(** What ingestion does to the flat index. *)
Lemma storeParsedData_flat_index
  (st : NotesManager.Store) (data : Notes.ParsedBookData) :
  exists st' title ids,
    NotesManager.storeParsedData st data = Some st'
    /\ NotesManager.getBook st title = None
    /\ (exists b, NotesManager.getBook st' title = Some b)
    /\ JsMap.keys (NotesManager.notes st')
       = JsMap.keys (NotesManager.notes st) ++ ids
    /\ NotesManager.getAllNotes st'
       = NotesManager.getAllNotes st
         ++ map (fun p => Spec.received title (fst p) (snd p))
              (combine (Notes.notes data) ids)
    /\ Forall2 (fun n k => exists d, k = Spec.candidate (Notes.id n) d)
         (Notes.notes data) ids
    /\ NoDup ids
    /\ forall k, In k ids -> NotesManager.getNoteById st k = None.
Proof.
  destruct (unique_spec (NotesManager.books st) (Notes.title (Notes.metadata data)))
    as [d (Hunique & Hfree & _)].
  set (title := Spec.candidate (Notes.title (Notes.metadata data)) d) in *.
  set (stampedNotes := map (fun note => Notes.with_bookTitle note title)
                         (Notes.notes data)).
  set (updatedData :=
         {| Notes.metadata := Notes.with_title (Notes.metadata data) title;
            Notes.notes := stampedNotes |}).
  set (st0 := {| NotesManager.notes := NotesManager.notes st;
                 NotesManager.books :=
                   JsMap.set title updatedData (NotesManager.books st) |}).
  destruct (@loop_fills_the_flat_index title stampedNotes 0 st0 updatedData)
    as [st' [ids (Hloop & Hkeys & Hvalues & Hcand & Hnodup & Hnew & Hheld)]].
  { apply get_set_same. }
  { intros k _. reflexivity. }
  exists st', title, ids.
  split.
  { unfold NotesManager.storeParsedData. rewrite Hunique.
    fold title. fold stampedNotes. fold updatedData. fold st0.
    replace (length (Notes.notes data)) with (length stampedNotes)
      by apply length_map.
    exact Hloop. }
  split; [now apply has_false_get|].
  split; [exact Hheld|].
  split; [exact Hkeys|].
  split.
  { unfold NotesManager.getAllNotes. rewrite Hvalues.
    cbn [st0 NotesManager.notes]. f_equal.
    unfold stampedNotes. rewrite combine_map_l, map_map. reflexivity. }
  split.
  { apply Forall2_map_l in Hcand. exact Hcand. }
  split; [exact Hnodup|].
  intros k Hk. apply has_false_get. now apply Hnew.
Qed.

(** X2. Whatever ids the incoming annotations carry, the flat index
    receives every one of them, in the order of the bundle, after the entries
    it already has: the [i]-th annotation with the resolved title, under an
    id that is its own id or that id with a suffix [_k], that the flat index
    did not hold, and that differs from the ids given to the others. *)
Theorem ingestion_adds_every_annotation_to_the_flat_index
  (st : NotesManager.Store) (data : Notes.ParsedBookData) :
  exists st' title ids,
    NotesManager.storeParsedData st data = Some st'
    /\ NotesManager.getBook st title = None
    /\ (exists b, NotesManager.getBook st' title = Some b)
    /\ JsMap.keys (NotesManager.notes st')
       = JsMap.keys (NotesManager.notes st) ++ ids
    /\ NotesManager.getAllNotes st'
       = NotesManager.getAllNotes st
         ++ map (fun p => Spec.received title (fst p) (snd p))
              (combine (Notes.notes data) ids)
    /\ Forall2 (fun n k => exists d, k = Spec.candidate (Notes.id n) d)
         (Notes.notes data) ids
    /\ NoDup ids
    /\ forall k, In k ids -> NotesManager.getNoteById st k = None.
Proof. exact (storeParsedData_flat_index st data). Qed.

(** ** The two indexes stay consistent *)

Lemma a_store_consistent : Spec.consistent Examples.a_store.
Proof.
  split.
  - intros k n H. unfold Examples.a_store in *.
    cbn [NotesManager.notes NotesManager.books JsMap.get] in *.
    destruct (str_eqb (lit "n1") k) eqn:E1.
    + injection H as <-. apply str_eqb_eq in E1. split; [exact E1|].
      eexists. split; [reflexivity|]. now left.
    + destruct (str_eqb (lit "n2") k) eqn:E2; [|discriminate].
      injection H as <-. apply str_eqb_eq in E2. split; [exact E2|].
      eexists. split; [reflexivity|]. right. now left.
  - intros title book H. unfold Examples.a_store in *.
    cbn [NotesManager.notes NotesManager.books JsMap.get] in *.
    destruct (str_eqb (lit "Book") title) eqn:E; [|discriminate].
    injection H as <-. apply str_eqb_eq in E. subst title.
    split; [split; [reflexivity | repeat constructor]|].
    split.
    + repeat constructor; cbn; intuition discriminate.
    + intros n [<-|[<-|[]]]; reflexivity.
Qed.

Lemma add_all_get (l : list Notes.BookNote) (m : JsMap.t Notes.BookNote)
  (k : jsstring) (n : Notes.BookNote) :
  JsMap.get k (Spec.add_all l m) = Some n ->
  (In n l /\ Notes.id n = k) \/ JsMap.get k m = Some n.
Proof.
  revert m. induction l as [|x l IH]; intros m H; [now right|].
  unfold Spec.add_all in H; cbn [fold_left] in H.
  fold (Spec.add_all l (JsMap.set (Notes.id x) x m)) in H.
  destruct (IH _ H) as [[Hin Hid]|Hget].
  - left. split; [now right | exact Hid].
  - destruct (str_eq_dec (Notes.id x) k) as [E|Hne].
    + subst k. rewrite get_set_same in Hget. injection Hget as <-.
      left. split; [now left | reflexivity].
    + right. now rewrite get_set_other in Hget.
Qed.

(** With distinct ids that the flat index does not hold, no id is suffixed
    and no write-back moves anything: the store after ingestion. *)
Lemma storeParsedData_fresh (st : NotesManager.Store) (data : Notes.ParsedBookData) :
  NoDup (map Notes.id (Notes.notes data)) ->
  (forall n, In n (Notes.notes data) ->
             JsMap.has (Notes.id n) (NotesManager.notes st) = false) ->
  exists d,
    let title := Spec.candidate (Notes.title (Notes.metadata data)) d in
    let stampedNotes :=
      map (fun note => Notes.with_bookTitle note title) (Notes.notes data) in
    JsMap.has title (NotesManager.books st) = false
    /\ NotesManager.storeParsedData st data
       = Some {| NotesManager.notes := Spec.add_all stampedNotes (NotesManager.notes st);
                 NotesManager.books :=
                   JsMap.set title
                     {| Notes.metadata := Notes.with_title (Notes.metadata data) title;
                        Notes.notes := stampedNotes |}
                     (NotesManager.books st) |}.
Proof.
  intros Hnodup Hfresh.
  destruct (unique_spec (NotesManager.books st) (Notes.title (Notes.metadata data)))
    as [d (Hunique & Hfree & _)].
  exists d. cbv zeta.
  set (title := Spec.candidate (Notes.title (Notes.metadata data)) d) in *.
  set (stampedNotes := map (fun note => Notes.with_bookTitle note title)
                         (Notes.notes data)).
  set (updatedData :=
         {| Notes.metadata := Notes.with_title (Notes.metadata data) title;
            Notes.notes := stampedNotes |}).
  split; [exact Hfree|].
  unfold NotesManager.storeParsedData. rewrite Hunique.
  fold title. fold stampedNotes. fold updatedData.
  replace (length (Notes.notes data)) with (length stampedNotes)
    by apply length_map.
  apply (@loop_over_fresh_ids title updatedData stampedNotes []).
  - reflexivity.
  - apply get_set_same.
  - cbn [app]. unfold stampedNotes. now rewrite map_map.
  - intros n Hn. cbn [NotesManager.notes].
    apply in_map_iff in Hn as [n0 [<- Hn0]].
    cbn [Notes.with_bookTitle Notes.id]. now apply Hfresh.
Qed.

(** X3. Ingesting a bundle whose ids are pairwise distinct and new to the
    flat index keeps the two indexes consistent: the bundle is stored with its
    annotations in their order, each with the resolved title and its own id,
    and the flat index holds exactly these under their ids. *)
Theorem ingestion_of_fresh_ids_keeps_the_indexes_consistent
  (st : NotesManager.Store) (data : Notes.ParsedBookData) :
  Spec.consistent st ->
  NoDup (map Notes.id (Notes.notes data)) ->
  (forall n, In n (Notes.notes data) ->
             NotesManager.getNoteById st (Notes.id n) = None) ->
  exists st' title,
    NotesManager.storeParsedData st data = Some st'
    /\ Spec.consistent st'
    /\ NotesManager.getBook st title = None
    /\ NotesManager.getNotesByBook st' title
       = map (fun n => Notes.with_bookTitle n title) (Notes.notes data).
Proof.
  intros [Hflat Hbooks] Hnodup Hfresh.
  assert (Hfresh' : forall n, In n (Notes.notes data) ->
                      JsMap.has (Notes.id n) (NotesManager.notes st) = false).
  { intros n Hn. apply has_false_get. now apply Hfresh. }
  destruct (storeParsedData_fresh st data Hnodup Hfresh') as [d H].
  cbv zeta in H. destruct H as [Hfree Hstore].
  set (title := Spec.candidate (Notes.title (Notes.metadata data)) d) in *.
  set (stampedNotes := map (fun note => Notes.with_bookTitle note title)
                         (Notes.notes data)) in *.
  assert (Hids : map Notes.id stampedNotes = map Notes.id (Notes.notes data)).
  { unfold stampedNotes. now rewrite map_map. }
  assert (Hstamped : Forall (fun n => Notes.bookTitle n = title) stampedNotes).
  { apply Forall_map, Forall_forall. reflexivity. }
  eexists. exists title. split; [exact Hstore|].
  split; [|split].
  - split.
    + intros k n Hget. cbn [NotesManager.notes NotesManager.books] in *.
      apply add_all_get in Hget as [[Hin Hid]|Hold].
      * split; [exact Hid|]. eexists. split.
        -- rewrite Forall_forall in Hstamped. rewrite (Hstamped n Hin).
           apply get_set_same.
        -- exact Hin.
      * destruct (Hflat k n Hold) as [Hid [book [Hbook Hin]]].
        split; [exact Hid|]. exists book. split; [|exact Hin].
        rewrite get_set_other; [exact Hbook|].
        intros E. rewrite <- E in Hbook. apply has_false_get in Hfree.
        congruence.
    + intros t b Hb. cbn [NotesManager.notes NotesManager.books] in *.
      destruct (str_eq_dec title t) as [<-|Hne].
      * rewrite get_set_same in Hb. injection Hb as <-.
        cbn [Notes.notes]. split; [split; [reflexivity | exact Hstamped]|].
        split; [now rewrite Hids|].
        intros n Hn. apply add_all_holds; [now rewrite Hids | exact Hn].
      * rewrite get_set_other in Hb by assumption.
        destruct (Hbooks t b Hb) as (Hst & Hnd & Hagree).
        split; [exact Hst|]. split; [exact Hnd|].
        intros n Hn. rewrite add_all_other; [now apply Hagree|].
        rewrite Hids. intros Hin. apply in_map_iff in Hin as [n0 [E Hn0]].
        apply Hfresh in Hn0. unfold NotesManager.getNoteById in Hn0.
        rewrite E, (Hagree n Hn) in Hn0. discriminate.
  - now apply has_false_get.
  - unfold NotesManager.getNotesByBook. cbn [NotesManager.books].
    now rewrite get_set_same.
Qed.

Lemma ingestion_of_fresh_ids_keeps_the_indexes_consistent_witness :
  exists st' title,
    NotesManager.storeParsedData Examples.a_store (Examples.titled_X "c1") = Some st'
    /\ Spec.consistent st'
    /\ NotesManager.getBook Examples.a_store title = None
    /\ NotesManager.getNotesByBook st' title
       = map (fun n => Notes.with_bookTitle n title)
           (Notes.notes (Examples.titled_X "c1")).
Proof.
  apply (@ingestion_of_fresh_ids_keeps_the_indexes_consistent
           Examples.a_store (Examples.titled_X "c1")).
  - exact a_store_consistent.
  - repeat constructor. intros [].
  - intros n [<-|[]]. reflexivity.
Defined.

(** ** [updateNote] *)

(** X4. [updateNote] of a stored id returns [true]; afterwards the flat
    index answers that id with the merge of the stored annotation and the
    updates, stamped with the time of the call, and every other id as before;
    neither index gains or loses a key, and every bundle other than the one
    named by the annotation's [bookTitle] is left alone. *)
Theorem updateNote_stores_the_merged_annotation
  (st : NotesManager.Store) (noteId : jsstring) (updates : Notes.Updates)
  (stamp : Date) (note : Notes.BookNote) :
  NotesManager.getNoteById st noteId = Some note ->
  exists st',
    NotesManager.updateNote st noteId updates stamp = (st', true)
    /\ NotesManager.getNoteById st' noteId = Some (Notes.merge note updates stamp)
    /\ Notes.updatedAt (Notes.merge note updates stamp) = Some stamp
    /\ (forall other, other <> noteId ->
          NotesManager.getNoteById st' other = NotesManager.getNoteById st other)
    /\ JsMap.keys (NotesManager.notes st') = JsMap.keys (NotesManager.notes st)
    /\ JsMap.keys (NotesManager.books st') = JsMap.keys (NotesManager.books st)
    /\ (forall title, title <> Notes.bookTitle note ->
          NotesManager.getBook st' title = NotesManager.getBook st title).
Proof.
  unfold NotesManager.getNoteById, NotesManager.getBook, NotesManager.updateNote.
  intros Hget. rewrite Hget. eexists. split; [reflexivity|].
  cbn [NotesManager.notes NotesManager.books].
  split; [apply get_set_same|]. split; [reflexivity|].
  split; [intros other Hne; apply get_set_other; congruence|].
  split; [apply keys_set_old; eapply has_true_get; eassumption|].
  split; [apply put_note_keys|].
  intros title Hne. now apply put_note_other.
Qed.

Lemma updateNote_stores_the_merged_annotation_witness :
  exists st',
    NotesManager.updateNote Examples.a_store (lit "n1") Examples.no_updates
      (TimeValue 5) = (st', true)
    /\ NotesManager.getNoteById st' (lit "n1")
       = Some (Notes.merge Examples.js_tips Examples.no_updates (TimeValue 5))
    /\ NotesManager.getNoteById st' (lit "n2") = Some Examples.py_tips.
Proof.
  destruct (@updateNote_stores_the_merged_annotation Examples.a_store (lit "n1")
              Examples.no_updates (TimeValue 5) Examples.js_tips eq_refl)
    as (st' & Hupdate & Hheld & _ & Hother & _).
  exists st'. split; [exact Hupdate|]. split; [exact Hheld|].
  rewrite Hother; [reflexivity | discriminate].
Defined.

Lemma findIndex_split {A} (p : A -> bool) (l : list A) (idx : nat) :
  findIndex p l = Some idx ->
  exists done y todo,
    l = done ++ y :: todo /\ length done = idx /\ p y = true
    /\ Forall (fun z => p z = false) done.
Proof.
  revert idx. induction l as [|x l IH]; intros idx H; simpl in H; [discriminate|].
  destruct (p x) eqn:E.
  - injection H as <-. exists [], x, l. repeat split; auto.
  - destruct (findIndex p l) as [j|]; [|discriminate].
    injection H as <-.
    destruct (IH j eq_refl) as (done & y & todo & -> & <- & Hy & Hdone).
    exists (x :: done), y, todo. repeat split; auto.
Qed.

Lemma findIndex_found {A} (p : A -> bool) (l : list A) (x : A) :
  In x l -> p x = true -> exists idx, findIndex p l = Some idx.
Proof.
  intros Hin Hx. apply In_nth_error in Hin as [i Hi].
  destruct (findIndex_le p l i Hi Hx) as [idx [H _]]. now exists idx.
Qed.

Lemma assign_middle {A} (done todo : list A) (y x : A) :
  assign (done ++ y :: todo) (length done) x = done ++ x :: todo.
Proof. induction done as [|z done IH]; simpl; [reflexivity | now rewrite IH]. Qed.

(** In a list without two annotations of one id, the others differ in id
    from the one in the middle. *)
Lemma NoDup_ids_middle (done todo : list Notes.BookNote) (y n : Notes.BookNote) :
  NoDup (map Notes.id (done ++ y :: todo)) ->
  In n (done ++ todo) -> Notes.id n <> Notes.id y.
Proof.
  intros Hnodup Hin E. rewrite map_app in Hnodup. cbn [map] in Hnodup.
  apply NoDup_remove_2 in Hnodup. apply Hnodup.
  rewrite <- map_app, <- E. now apply in_map.
Qed.

(** Two bundles of a consistent store that hold annotations of one id are
    stored under the same title. *)
Lemma consistent_one_home (st : NotesManager.Store) (t1 t2 : jsstring)
  (b1 b2 : Notes.ParsedBookData) (n1 n2 : Notes.BookNote) :
  Spec.consistent st ->
  JsMap.get t1 (NotesManager.books st) = Some b1 -> In n1 (Notes.notes b1) ->
  JsMap.get t2 (NotesManager.books st) = Some b2 -> In n2 (Notes.notes b2) ->
  Notes.id n1 = Notes.id n2 -> t1 = t2 /\ n1 = n2.
Proof.
  intros [_ Hbooks] H1 Hin1 H2 Hin2 E.
  destruct (Hbooks t1 b1 H1) as ([_ Hst1] & _ & Hag1).
  destruct (Hbooks t2 b2 H2) as ([_ Hst2] & _ & Hag2).
  pose proof (Hag1 n1 Hin1) as G1. pose proof (Hag2 n2 Hin2) as G2.
  rewrite E in G1. rewrite G1 in G2. injection G2 as <-.
  rewrite Forall_forall in Hst1, Hst2.
  split; [|reflexivity].
  now rewrite <- (Hst1 n1 Hin1), <- (Hst2 n1 Hin2).
Qed.

(** X5. An update that leaves the id and the book title of the annotation
    as they are keeps the two indexes consistent: the merged annotation takes
    the place of the old one in the flat index and in the notes list of its
    bundle. *)
Theorem updateNote_keeps_the_indexes_consistent
  (st : NotesManager.Store) (noteId : jsstring) (updates : Notes.Updates)
  (stamp : Date) (note : Notes.BookNote) :
  Spec.consistent st ->
  NotesManager.getNoteById st noteId = Some note ->
  Notes.id (Notes.merge note updates stamp) = Notes.id note ->
  Notes.bookTitle (Notes.merge note updates stamp) = Notes.bookTitle note ->
  exists st',
    NotesManager.updateNote st noteId updates stamp = (st', true)
    /\ Spec.consistent st'
    /\ In (Notes.merge note updates stamp)
         (NotesManager.getNotesByBook st' (Notes.bookTitle note))
    /\ length (NotesManager.getNotesByBook st' (Notes.bookTitle note))
       = length (NotesManager.getNotesByBook st (Notes.bookTitle note)).
Proof.
  intros Hcons Hget Hid Htitle.
  pose proof Hcons as [Hflat Hbooks].
  unfold NotesManager.getNoteById in Hget.
  destruct (Hflat noteId note Hget) as [Hidn [book [Hbook Hin]]].
  destruct (Hbooks _ book Hbook) as ([Hbt Hst] & Hnd & Hag).
  set (merged := Notes.merge note updates stamp) in *.
  set (T := Notes.bookTitle note) in *.
  destruct (findIndex_found (fun n => str_eqb (Notes.id n) noteId)
              (Notes.notes book) note Hin)
    as [idx Hidx]; [apply str_eqb_eq; exact Hidn|].
  destruct (findIndex_split _ _ Hidx)
    as (done & y & todo & Hl & Hlen & Hy & Hdone).
  apply str_eqb_eq in Hy.
  assert (Hput : NotesManager.put_note T (fun n => str_eqb (Notes.id n) noteId)
                   merged (NotesManager.books st)
                 = JsMap.set T (Notes.with_notes book (done ++ merged :: todo))
                     (NotesManager.books st)).
  { unfold NotesManager.put_note. rewrite Hbook, Hidx.
    rewrite Hl, <- Hlen, assign_middle. reflexivity. }
  unfold NotesManager.updateNote. rewrite Hget. fold merged. fold T.
  rewrite Hput. eexists. split; [reflexivity|].
  rewrite Hl in Hnd, Hst, Hag.
  assert (Hothers : forall n, In n (done ++ todo) -> Notes.id n <> noteId).
  { intros n Hn. rewrite <- Hy. eapply NoDup_ids_middle; eassumption. }
  assert (Hpart : forall n, In n (done ++ merged :: todo) ->
                            n = merged \/ In n (done ++ todo)).
  { intros n Hn. apply in_app_or in Hn as [Hn|[<-|Hn]];
      [right; apply in_or_app; now left | now left
      | right; apply in_or_app; now right]. }
  assert (Hkeep : forall n, In n (done ++ todo) -> In n (done ++ y :: todo)).
  { intros n Hn. apply in_app_or in Hn as [Hn|Hn]; apply in_or_app;
      [now left | right; now right]. }
  split; [split|].
  - (* the flat index *)
    intros k n Hk. cbn [NotesManager.notes NotesManager.books] in *.
    destruct (str_eq_dec noteId k) as [<-|Hne].
    + rewrite get_set_same in Hk. injection Hk as <-.
      split; [congruence|]. eexists. rewrite Htitle. fold T.
      split; [apply get_set_same|].
      cbn [Notes.with_notes Notes.notes]. apply in_or_app. right. now left.
    + rewrite get_set_other in Hk by assumption.
      destruct (Hflat k n Hk) as [Hk' [bn [Hbn Hn]]].
      split; [exact Hk'|].
      destruct (str_eq_dec T (Notes.bookTitle n)) as [E|Hne'].
      * rewrite <- E in *. rewrite Hbook in Hbn. injection Hbn as <-.
        eexists. split; [apply get_set_same|].
        cbn [Notes.with_notes Notes.notes]. rewrite Hl in Hn.
        apply in_app_or in Hn as [Hn|[->|Hn]].
        -- apply in_or_app. now left.
        -- congruence.
        -- apply in_or_app. right. now right.
      * exists bn. split; [|exact Hn]. now rewrite get_set_other.
  - (* the bundles *)
    intros t b Hb. cbn [NotesManager.notes NotesManager.books] in *.
    destruct (str_eq_dec T t) as [<-|Hne].
    + rewrite get_set_same in Hb. injection Hb as <-.
      cbn [Notes.with_notes Notes.notes Notes.metadata].
      split; [split; [exact Hbt|]|split].
      * apply Forall_forall. intros n Hn. rewrite Forall_forall in Hst.
        destruct (Hpart n Hn) as [->|Hn']; [exact Htitle|].
        apply Hst. now apply Hkeep.
      * rewrite map_app in *. cbn [map] in *. now rewrite Hid, Hidn, <- Hy.
      * intros n Hn. destruct (Hpart n Hn) as [->|Hn'].
        -- rewrite Hid, Hidn. apply get_set_same.
        -- rewrite get_set_other by (intros E; now apply (Hothers n Hn')).
           apply Hag. now apply Hkeep.
    + rewrite get_set_other in Hb by assumption.
      destruct (Hbooks t b Hb) as (Hst' & Hnd' & Hag').
      split; [exact Hst'|]. split; [exact Hnd'|].
      intros n Hn. rewrite get_set_other; [now apply Hag'|].
      intros E. apply Hne.
      assert (In y (Notes.notes book)) as Hyin
          by (rewrite Hl; apply in_or_app; right; now left).
      destruct (@consistent_one_home st T t book b y n Hcons Hbook Hyin Hb Hn)
        as [Ht _]; [congruence | exact Ht].
  - unfold NotesManager.getNotesByBook.
    cbn [NotesManager.books]. rewrite get_set_same, Hbook.
    cbn [Notes.with_notes Notes.notes]. split.
    + apply in_or_app. right. now left.
    + rewrite Hl, !length_app. reflexivity.
Qed.

Lemma updateNote_keeps_the_indexes_consistent_witness :
  exists st',
    NotesManager.updateNote Examples.a_store (lit "n1") Examples.no_updates
      (TimeValue 5) = (st', true)
    /\ Spec.consistent st'
    /\ In (Notes.merge Examples.js_tips Examples.no_updates (TimeValue 5))
         (NotesManager.getNotesByBook st' (lit "Book")).
Proof.
  destruct (@updateNote_keeps_the_indexes_consistent Examples.a_store (lit "n1")
              Examples.no_updates (TimeValue 5) Examples.js_tips
              a_store_consistent eq_refl eq_refl eq_refl)
    as (st' & Hupdate & Hcons & Hin & _).
  exists st'. split; [exact Hupdate|]. split; [exact Hcons | exact Hin].
Defined.

(** X28. [updateNote] does not re-key: when the updates carry another
    id, the annotation is stored with the new id under the old key, a lookup
    by the new id answers as before the update, and the two indexes are no
    longer consistent. *)
Theorem updateNote_with_another_id_keeps_the_old_key
  (st : NotesManager.Store) (noteId newId : jsstring) (updates : Notes.Updates)
  (stamp : Date) (note : Notes.BookNote) :
  NotesManager.getNoteById st noteId = Some note ->
  Notes.u_id updates = Some newId ->
  newId <> noteId ->
  exists st' stored,
    NotesManager.updateNote st noteId updates stamp = (st', true)
    /\ NotesManager.getNoteById st' noteId = Some stored
    /\ Notes.id stored = newId
    /\ NotesManager.getNoteById st' newId = NotesManager.getNoteById st newId
    /\ ~ Spec.consistent st'.
Proof.
  unfold NotesManager.getNoteById, NotesManager.updateNote.
  intros Hget Hid Hne. rewrite Hget. eexists. eexists.
  split; [reflexivity|]. cbn [NotesManager.notes].
  split; [apply get_set_same|].
  assert (Hnew : Notes.id (Notes.merge note updates stamp) = newId).
  { unfold Notes.merge. cbn [Notes.id]. now rewrite Hid. }
  split; [exact Hnew|].
  split; [apply get_set_other; congruence|].
  intros [Hflat _].
  destruct (Hflat noteId (Notes.merge note updates stamp)) as [E _].
  - cbn [NotesManager.notes]. apply get_set_same.
  - congruence.
Qed.

Lemma updateNote_with_another_id_keeps_the_old_key_witness :
  exists st' stored,
    NotesManager.updateNote Examples.a_store (lit "n1") (Examples.rename_to "n9")
      (TimeValue 5) = (st', true)
    /\ NotesManager.getNoteById st' (lit "n1") = Some stored
    /\ Notes.id stored = lit "n9"
    /\ NotesManager.getNoteById st' (lit "n9") = None.
Proof.
  destruct (@updateNote_with_another_id_keeps_the_old_key Examples.a_store
              (lit "n1") (lit "n9") (Examples.rename_to "n9") (TimeValue 5)
              Examples.js_tips eq_refl eq_refl)
    as (st' & stored & Hupdate & Hheld & Hid & Hnew & _).
  - discriminate.
  - exists st', stored. split; [exact Hupdate|]. split; [exact Hheld|].
    split; [exact Hid|]. rewrite Hnew. reflexivity.
Defined.

(** ** [deleteNote] and [deleteBook] *)

(** X6. [deleteNote] of a stored id returns [true]; afterwards the flat
    index no longer holds the id and answers every other id as before, a
    second [deleteNote] of the id returns [false] and changes nothing, the
    bundle named by the annotation's [bookTitle] has lost the annotations of
    that id and its [totalNotes] is the length of what is left, and every
    other bundle is left alone. *)
Theorem deleteNote_removes_the_annotation
  (st : NotesManager.Store) (noteId : jsstring) (note : Notes.BookNote) :
  NotesManager.getNoteById st noteId = Some note ->
  exists st',
    NotesManager.deleteNote st noteId = (st', true)
    /\ NotesManager.getNoteById st' noteId = None
    /\ (forall other, other <> noteId ->
          NotesManager.getNoteById st' other = NotesManager.getNoteById st other)
    /\ NotesManager.deleteNote st' noteId = (st', false)
    /\ (forall book,
          NotesManager.getBook st (Notes.bookTitle note) = Some book ->
          exists book',
            NotesManager.getBook st' (Notes.bookTitle note) = Some book'
            /\ Notes.notes book'
               = filter (fun n => negb (str_eqb (Notes.id n) noteId)) (Notes.notes book)
            /\ Notes.totalNotes (Notes.metadata book') = length (Notes.notes book')
            /\ Notes.title (Notes.metadata book') = Notes.title (Notes.metadata book))
    /\ (forall title, title <> Notes.bookTitle note ->
          NotesManager.getBook st' title = NotesManager.getBook st title).
Proof.
  unfold NotesManager.getNoteById, NotesManager.getBook.
  intros Hget. unfold NotesManager.deleteNote at 1. rewrite Hget.
  eexists. split; [reflexivity|].
  cbn [NotesManager.notes NotesManager.books].
  split; [apply get_delete_same|].
  split; [intros other Hne; apply get_delete_other; congruence|].
  split.
  { unfold NotesManager.deleteNote. cbn [NotesManager.notes].
    now rewrite get_delete_same. }
  split.
  - intros book Hbook. rewrite Hbook. eexists.
    split; [apply get_set_same|]. cbn. auto.
  - intros title Hne.
    destruct (JsMap.get (Notes.bookTitle note) (NotesManager.books st));
      [|reflexivity].
    apply get_set_other. congruence.
Qed.

Lemma deleteNote_removes_the_annotation_witness :
  exists st',
    NotesManager.deleteNote Examples.a_store (lit "n1") = (st', true)
    /\ NotesManager.getNoteById st' (lit "n1") = None
    /\ NotesManager.getNoteById st' (lit "n2") = Some Examples.py_tips
    /\ NotesManager.deleteNote st' (lit "n1") = (st', false).
Proof.
  destruct (@deleteNote_removes_the_annotation Examples.a_store (lit "n1")
              Examples.js_tips eq_refl)
    as (st' & Hdelete & Hgone & Hother & Hagain & _).
  exists st'. split; [exact Hdelete|]. split; [exact Hgone|].
  split; [|exact Hagain].
  rewrite Hother; [reflexivity | discriminate].
Defined.

(** Dropping annotations from a list leaves its ids distinct. *)
Lemma filter_keeps_ids_distinct (keep : Notes.BookNote -> bool)
  (notes : list Notes.BookNote) :
  NoDup (map Notes.id notes) -> NoDup (map Notes.id (filter keep notes)).
Proof.
  intros Hnodup. induction notes as [|n notes IH]; [constructor|].
  cbn [map] in Hnodup. apply NoDup_cons_iff in Hnodup as [Hn Hnotes].
  cbn [filter]. destruct (keep n); [|now apply IH].
  cbn [map]. apply NoDup_cons; [|now apply IH].
  intros Hin. apply Hn. apply in_map_iff in Hin as [m [Hm Hin]].
  apply filter_In in Hin as [Hin _]. apply in_map_iff. now exists m.
Qed.

(** X7. [deleteNote] keeps the two indexes consistent: the annotation
    leaves the flat index and the notes list of its bundle together. *)
Theorem deleteNote_keeps_the_indexes_consistent
  (st : NotesManager.Store) (noteId : jsstring) (note : Notes.BookNote) :
  Spec.consistent st ->
  NotesManager.getNoteById st noteId = Some note ->
  exists st',
    NotesManager.deleteNote st noteId = (st', true)
    /\ Spec.consistent st'
    /\ ~ In note (NotesManager.getNotesByBook st' (Notes.bookTitle note))
    /\ S (length (NotesManager.getNotesByBook st' (Notes.bookTitle note)))
       = length (NotesManager.getNotesByBook st (Notes.bookTitle note)).
Proof.
  intros Hcons Hget. pose proof Hcons as [Hflat Hbooks].
  unfold NotesManager.getNoteById in Hget.
  destruct (Hflat noteId note Hget) as [Hidn [book [Hbook Hin]]].
  destruct (Hbooks _ book Hbook) as ([Hbt Hst] & Hnd & Hag).
  set (T := Notes.bookTitle note) in *.
  set (keep := fun n => negb (str_eqb (Notes.id n) noteId)).
  assert (Hkeep : forall n, In n (filter keep (Notes.notes book))
                            <-> In n (Notes.notes book) /\ Notes.id n <> noteId).
  { intros n. rewrite filter_In. unfold keep.
    rewrite negb_true_iff, str_eqb_neq. reflexivity. }
  unfold NotesManager.deleteNote. rewrite Hget. fold T. rewrite Hbook.
  fold keep. eexists. split; [reflexivity|].
  split; [split|].
  - intros k n Hk. cbn [NotesManager.notes NotesManager.books] in *.
    apply get_delete_some in Hk as [Hne Hk].
    destruct (Hflat k n Hk) as [Hk' [bn [Hbn Hn]]].
    split; [exact Hk'|].
    destruct (str_eq_dec T (Notes.bookTitle n)) as [E|Hne'].
    + rewrite <- E in *. rewrite Hbook in Hbn. injection Hbn as <-.
      eexists. split; [apply get_set_same|]. cbn [Notes.notes].
      apply Hkeep. split; [exact Hn | congruence].
    + exists bn. split; [|exact Hn]. now rewrite get_set_other.
  - intros t b Hb. cbn [NotesManager.notes NotesManager.books] in *.
    destruct (str_eq_dec T t) as [<-|Hne].
    + rewrite get_set_same in Hb. injection Hb as <-.
      cbn [Notes.notes Notes.metadata Notes.with_totalNotes Notes.title].
      split; [split; [exact Hbt|]|split].
      * apply Forall_forall. intros n Hn. apply Hkeep in Hn as [Hn _].
        rewrite Forall_forall in Hst. now apply Hst.
      * now apply filter_keeps_ids_distinct.
      * intros n Hn. apply Hkeep in Hn as [Hn Hne].
        rewrite get_delete_other by congruence. now apply Hag.
    + rewrite get_set_other in Hb by assumption.
      destruct (Hbooks t b Hb) as (Hst' & Hnd' & Hag').
      split; [exact Hst'|]. split; [exact Hnd'|].
      intros n Hn. rewrite get_delete_other; [now apply Hag'|].
      intros E. apply Hne.
      destruct (@consistent_one_home st T t book b note n Hcons Hbook Hin Hb Hn)
        as [Ht _]; [congruence | exact Ht].
  - unfold NotesManager.getNotesByBook. cbn [NotesManager.books].
    rewrite get_set_same, Hbook. cbn [Notes.notes]. split.
    + intros Hn. apply Hkeep in Hn as [_ Hne]. congruence.
    + (* exactly one annotation of the bundle has the id *)
      apply in_split in Hin as (done & todo & Hl). rewrite Hl in *.
      assert (Hothers : forall n, In n (done ++ todo) -> keep n = true).
      { intros n Hn. unfold keep. rewrite negb_true_iff, str_eqb_neq, <- Hidn.
        eapply NoDup_ids_middle; eassumption. }
      rewrite filter_app. cbn [filter].
      unfold keep at 2. rewrite Hidn, str_eqb_refl. cbn [negb].
      rewrite (forallb_filter_id keep done), (forallb_filter_id keep todo).
      * rewrite !length_app. simpl. lia.
      * apply forallb_forall. intros n Hn. apply Hothers, in_or_app. now right.
      * apply forallb_forall. intros n Hn. apply Hothers, in_or_app. now left.
Qed.

Lemma deleteNote_keeps_the_indexes_consistent_witness :
  exists st',
    NotesManager.deleteNote Examples.a_store (lit "n1") = (st', true)
    /\ Spec.consistent st'
    /\ NotesManager.getNotesByBook st' (lit "Book") = [Examples.py_tips].
Proof.
  destruct (@deleteNote_keeps_the_indexes_consistent Examples.a_store (lit "n1")
              Examples.js_tips a_store_consistent eq_refl)
    as (st' & Hdelete & Hcons & _).
  exists st'. split; [exact Hdelete|]. split; [exact Hcons|].
  injection Hdelete as <-. reflexivity.
Defined.

Lemma delete_each_other (l : list Notes.BookNote) (m : JsMap.t Notes.BookNote)
  (k : jsstring) :
  ~ In k (map Notes.id l) ->
  JsMap.get k (fold_left (fun m note => JsMap.delete (Notes.id note) m) l m)
  = JsMap.get k m.
Proof.
  revert m. induction l as [|x l IH]; intros m Hk; simpl; [reflexivity|].
  rewrite IH by (intros H; apply Hk; now right).
  apply get_delete_other. intros E. apply Hk. now left.
Qed.

Lemma delete_each_some (l : list Notes.BookNote) (m : JsMap.t Notes.BookNote)
  (k : jsstring) (n : Notes.BookNote) :
  JsMap.get k (fold_left (fun m note => JsMap.delete (Notes.id note) m) l m) = Some n ->
  JsMap.get k m = Some n /\ ~ In k (map Notes.id l).
Proof.
  intros H. assert (Hk : ~ In k (map Notes.id l)).
  { intros Hin. apply in_map_iff in Hin as [x [<- Hx]].
    rewrite delete_each_removes in H by assumption. discriminate. }
  split; [|exact Hk]. now rewrite delete_each_other in H.
Qed.

(** X8. [deleteBook] keeps the two indexes consistent and removes nothing
    else: every other bundle is left alone, and the flat index keeps exactly
    the annotations whose [bookTitle] is not the deleted title. *)
Theorem deleteBook_keeps_the_indexes_consistent
  (st : NotesManager.Store) (bookTitle : jsstring) (book : Notes.ParsedBookData) :
  Spec.consistent st ->
  NotesManager.getBook st bookTitle = Some book ->
  exists st',
    NotesManager.deleteBook st bookTitle = (st', true)
    /\ Spec.consistent st'
    /\ (forall other, other <> bookTitle ->
          NotesManager.getBook st' other = NotesManager.getBook st other)
    /\ (forall k n,
          NotesManager.getNoteById st' k = Some n
          <-> NotesManager.getNoteById st k = Some n
              /\ Notes.bookTitle n <> bookTitle).
Proof.
  intros Hcons Hbook. pose proof Hcons as [Hflat Hbooks].
  unfold NotesManager.getBook, NotesManager.getNoteById in *.
  destruct (Hbooks _ book Hbook) as ([Hbt Hst] & Hnd & Hag).
  rewrite Forall_forall in Hst.
  unfold NotesManager.deleteBook. rewrite Hbook.
  eexists. split; [reflexivity|].
  cbn [NotesManager.notes NotesManager.books].
  assert (Hleft : forall k n,
             JsMap.get k (NotesManager.notes st) = Some n ->
             Notes.bookTitle n <> bookTitle ->
             ~ In k (map Notes.id (Notes.notes book))).
  { intros k n Hk Hne Hin. apply in_map_iff in Hin as [m [<- Hm]].
    rewrite (Hag m Hm) in Hk. injection Hk as <-. apply Hne. now apply Hst. }
  assert (Hgone : forall k n,
             JsMap.get k (NotesManager.notes st) = Some n ->
             ~ In k (map Notes.id (Notes.notes book)) ->
             Notes.bookTitle n <> bookTitle).
  { intros k n Hk Hnot E.
    destruct (Hflat k n Hk) as [Hid [bn [Hbn Hn]]].
    rewrite E, Hbook in Hbn. injection Hbn as <-.
    apply Hnot. rewrite <- Hid. now apply in_map. }
  split; [split|split].
  - intros k n Hk. cbn [NotesManager.notes NotesManager.books] in *.
    apply delete_each_some in Hk as [Hk Hnot].
    destruct (Hflat k n Hk) as [Hid [bn [Hbn Hn]]].
    split; [exact Hid|]. exists bn. split; [|exact Hn].
    rewrite get_delete_other; [exact Hbn|].
    intros E. symmetry in E. now apply (Hgone k n Hk Hnot).
  - intros t b Hb. cbn [NotesManager.notes NotesManager.books] in *.
    apply get_delete_some in Hb as [Hne Hb].
    destruct (Hbooks t b Hb) as (Hst' & Hnd' & Hag').
    split; [exact Hst'|]. split; [exact Hnd'|].
    intros n Hn. rewrite delete_each_other; [now apply Hag'|].
    apply (Hleft (Notes.id n) n (Hag' n Hn)).
    destruct Hst' as [_ Hst']. rewrite Forall_forall in Hst'.
    rewrite (Hst' n Hn). congruence.
  - intros other Hne. apply get_delete_other. congruence.
  - intros k n. split.
    + intros Hk. apply delete_each_some in Hk as [Hk Hnot].
      split; [exact Hk | now apply (Hgone k n Hk Hnot)].
    + intros [Hk Hne]. rewrite delete_each_other; [exact Hk|].
      now apply (Hleft k n Hk Hne).
Qed.

Lemma deleteBook_keeps_the_indexes_consistent_witness :
  exists st',
    NotesManager.deleteBook Examples.a_store (lit "Book") = (st', true)
    /\ Spec.consistent st'
    /\ NotesManager.getAllNotes st' = [].
Proof.
  destruct (@deleteBook_keeps_the_indexes_consistent Examples.a_store (lit "Book")
              (Examples.a_bundle "Book" [Examples.js_tips; Examples.py_tips])
              a_store_consistent eq_refl)
    as (st' & Hdelete & Hcons & _).
  exists st'. split; [exact Hdelete|]. split; [exact Hcons|].
  injection Hdelete as <-. reflexivity.
Defined.

(** ** [searchNotes], continued *)

(** X9. Refining a query narrows the result: when the lower-cased query
    [q'] occurs in the lower-cased query [q], every annotation that [q] finds
    is found by [q'] as well. *)
Theorem a_longer_query_finds_no_more
  {rt : Runtime} (st : NotesManager.Store) (q q' : jsstring) :
  Spec.substring (toLowerCase q') (toLowerCase q) ->
  incl (NotesManager.searchNotes st q) (NotesManager.searchNotes st q').
Proof.
  intros Hsub n Hn. unfold NotesManager.searchNotes in *. cbv zeta in *.
  apply filter_In in Hn as [Hin Hm]. apply filter_In. split; [exact Hin|].
  apply matches_spec. apply matches_spec in Hm.
  unfold Spec.note_matches in *. cbv zeta in *.
  destruct Hm as [H|[H|[[c [Hc H]]|[ts [tag [Hts [Htag H]]]]]]].
  - left. eapply substring_trans; eassumption.
  - right; left. eapply substring_trans; eassumption.
  - right; right; left. exists c. split; [exact Hc|].
    eapply substring_trans; eassumption.
  - right; right; right. exists ts, tag. split; [exact Hts|].
    split; [exact Htag|]. eapply substring_trans; eassumption.
Qed.

Lemma a_longer_query_finds_no_more_witness :
  incl (NotesManager.searchNotes Examples.a_store (lit "JavaScript Tips"))
       (NotesManager.searchNotes Examples.a_store (lit "TIPS"))
  /\ NotesManager.searchNotes Examples.a_store (lit "JavaScript Tips")
     = [Examples.js_tips].
Proof.
  split; [|reflexivity].
  apply (@a_longer_query_finds_no_more example_runtime Examples.a_store
           (lit "JavaScript Tips") (lit "TIPS")).
  exists (lit "javascript "), []. reflexivity.
Defined.

(** ** [getStatistics] *)

Section Counters.
Variable A : Type.
Variable key : A -> jsstring.

Lemma bump_get_same (k : jsstring) (m : JsMap.t nat) :
  JsMap.get k (NotesManager.bump k m)
  = Some (S (match JsMap.get k m with Some c => c | None => 0 end)).
Proof. unfold NotesManager.bump. rewrite get_set_same. f_equal. lia. Qed.

Lemma bump_get_other (k k' : jsstring) (m : JsMap.t nat) :
  k <> k' -> JsMap.get k' (NotesManager.bump k m) = JsMap.get k' m.
Proof. intros H. unfold NotesManager.bump. now apply get_set_other. Qed.

Lemma sum_set (k : jsstring) (c : nat) (m : JsMap.t nat) :
  list_sum (JsMap.values (JsMap.set k c m))
  + match JsMap.get k m with Some c0 => c0 | None => 0 end
  = list_sum (JsMap.values m) + c.
Proof.
  induction m as [|[k0 c0] m IH]; simpl; [lia|].
  destruct (str_eqb k0 k); simpl; lia.
Qed.

Lemma bump_sum (k : jsstring) (m : JsMap.t nat) :
  list_sum (JsMap.values (NotesManager.bump k m)) = S (list_sum (JsMap.values m)).
Proof.
  unfold NotesManager.bump.
  pose proof (sum_set k (match JsMap.get k m with Some c => c | None => 0 end + 1) m).
  lia.
Qed.

Lemma counted_sum (l : list A) (m : JsMap.t nat) :
  list_sum (JsMap.values (Spec.counted key l m)) = list_sum (JsMap.values m) + length l.
Proof.
  revert m. induction l as [|x l IH]; intros m; simpl; [lia|].
  unfold Spec.counted in *. cbn [fold_left]. rewrite IH, bump_sum. lia.
Qed.

Lemma counted_get (l : list A) (m : JsMap.t nat) (k : jsstring) :
  JsMap.get k (Spec.counted key l m)
  = match JsMap.get k m with
    | Some c => Some (c + Spec.how_many (fun x => str_eqb (key x) k) l)
    | None => Spec.shown (Spec.how_many (fun x => str_eqb (key x) k) l)
    end.
Proof.
  revert m. induction l as [|x l IH]; intros m.
  - unfold Spec.how_many. simpl. destruct (JsMap.get k m); [f_equal; lia | reflexivity].
  - unfold Spec.counted in *. cbn [fold_left]. rewrite IH.
    unfold Spec.how_many. cbn [filter].
    destruct (str_eqb (key x) k) eqn:E.
    + apply str_eqb_eq in E. subst k. rewrite bump_get_same.
      cbn [length Spec.shown].
      destruct (JsMap.get (key x) m); f_equal; lia.
    + apply str_eqb_neq in E. rewrite bump_get_other by assumption.
      reflexivity.
Qed.

End Counters.

Lemma statistics_fold (l : list Notes.BookNote) (s0 : NotesManager.Statistics) :
  let s := fold_left
             (fun stats note =>
                {| NotesManager.totalBooks := NotesManager.totalBooks stats;
                   NotesManager.totalNotes := NotesManager.totalNotes stats;
                   NotesManager.notesBySource :=
                     NotesManager.bump (NotesManager.source_name (Notes.source note))
                       (NotesManager.notesBySource stats);
                   NotesManager.notesByType :=
                     NotesManager.bump (NotesManager.type_name (Notes.noteType note))
                       (NotesManager.notesByType stats) |})
             l s0 in
  NotesManager.totalBooks s = NotesManager.totalBooks s0
  /\ NotesManager.totalNotes s = NotesManager.totalNotes s0
  /\ NotesManager.notesBySource s
     = Spec.counted (fun n => NotesManager.source_name (Notes.source n)) l
         (NotesManager.notesBySource s0)
  /\ NotesManager.notesByType s
     = Spec.counted (fun n => NotesManager.type_name (Notes.noteType n)) l
         (NotesManager.notesByType s0).
Proof.
  revert s0. induction l as [|n l IH]; intros s0; cbv zeta.
  - repeat split.
  - cbn [fold_left]. destruct (IH
      {| NotesManager.totalBooks := NotesManager.totalBooks s0;
         NotesManager.totalNotes := NotesManager.totalNotes s0;
         NotesManager.notesBySource :=
           NotesManager.bump (NotesManager.source_name (Notes.source n))
             (NotesManager.notesBySource s0);
         NotesManager.notesByType :=
           NotesManager.bump (NotesManager.type_name (Notes.noteType n))
             (NotesManager.notesByType s0) |}) as (H1 & H2 & H3 & H4).
    cbv zeta in *. rewrite H1, H2, H3, H4. repeat split.
Qed.

Lemma source_name_eqb (a b : Notes.Source) :
  str_eqb (NotesManager.source_name a) (NotesManager.source_name b)
  = Spec.same_source a b.
Proof. destruct a, b; reflexivity. Qed.

Lemma type_name_eqb (a b : Notes.NoteType) :
  str_eqb (NotesManager.type_name a) (NotesManager.type_name b)
  = Spec.same_type a b.
Proof. destruct a, b; reflexivity. Qed.

(** X10. The statistics count the flat index: [totalNotes] and
    [totalBooks] are the numbers of entries of the two indexes; the counters
    by source add up to [totalNotes], and so do the counters by type; a source
    (a type) has a counter exactly when some stored annotation has it, and the
    counter is the number of stored annotations that have it. *)
Theorem statistics_count_the_flat_index (st : NotesManager.Store) :
  let stats := NotesManager.getStatistics st in
  NotesManager.totalNotes stats = length (NotesManager.getAllNotes st)
  /\ NotesManager.totalBooks stats = length (NotesManager.getAllBooks st)
  /\ list_sum (JsMap.values (NotesManager.notesBySource stats))
     = NotesManager.totalNotes stats
  /\ list_sum (JsMap.values (NotesManager.notesByType stats))
     = NotesManager.totalNotes stats
  /\ (forall s,
        JsMap.get (NotesManager.source_name s) (NotesManager.notesBySource stats)
        = Spec.shown (Spec.how_many (fun n => Spec.same_source (Notes.source n) s)
                        (NotesManager.getAllNotes st)))
  /\ (forall t,
        JsMap.get (NotesManager.type_name t) (NotesManager.notesByType stats)
        = Spec.shown (Spec.how_many (fun n => Spec.same_type (Notes.noteType n) t)
                        (NotesManager.getAllNotes st))).
Proof.
  cbv zeta. unfold NotesManager.getStatistics.
  match goal with
  | |- context [fold_left ?f ?l ?s0] =>
    destruct (statistics_fold l s0) as (H1 & H2 & H3 & H4)
  end.
  cbv zeta in *. rewrite H1, H2, H3, H4.
  cbn [NotesManager.totalBooks NotesManager.totalNotes
       NotesManager.notesBySource NotesManager.notesByType].
  unfold NotesManager.getAllNotes, NotesManager.getAllBooks.
  split; [unfold JsMap.size, JsMap.values; now rewrite length_map|].
  split; [unfold JsMap.size, JsMap.values; now rewrite length_map|].
  split; [rewrite counted_sum; unfold JsMap.size, JsMap.values;
          now rewrite length_map|].
  split; [rewrite counted_sum; unfold JsMap.size, JsMap.values;
          now rewrite length_map|].
  split.
  - intros s. rewrite counted_get. cbn [JsMap.get JsMap.empty].
    f_equal. unfold Spec.how_many. f_equal. apply filter_ext.
    intros n. apply source_name_eqb.
  - intros t. rewrite counted_get. cbn [JsMap.get JsMap.empty].
    f_equal. unfold Spec.how_many. f_equal. apply filter_ext.
    intros n. apply type_name_eqb.
Qed.

(** ** [getParser]: which parser reads a file *)

Section Detection.
Context {rt : Runtime}.

Lemma initializeParsers_entries :
  NotesManager.initializeParsers
  = [(lit "duokan", NotesManager.duokanParser);
     (lit "wechat", NotesManager.wechatParser)].
Proof. reflexivity. Qed.

Lemma getParser_detected (content : jsstring) :
  NotesManager.getParser NotesManager.initializeParsers content None
  = if DuokanParser.validate content then Some NotesManager.duokanParser
    else if WeChatParser.validate content then Some NotesManager.wechatParser
    else None.
Proof.
  unfold NotesManager.getParser. rewrite initializeParsers_entries.
  cbn [JsMap.values map snd find NotesManager.validate
       NotesManager.duokanParser NotesManager.wechatParser].
  reflexivity.
Qed.

Lemma parsers_differ : NotesManager.duokanParser <> NotesManager.wechatParser.
Proof.
  intros E. apply (f_equal NotesManager.name) in E.
  cbn [NotesManager.name NotesManager.duokanParser NotesManager.wechatParser] in E.
  apply (f_equal (@length N)) in E. vm_compute in E. discriminate E.
Qed.

End Detection.

(** X11. Without a parser type (or with the empty string for one)
    [getParser] tries [DuokanParser] first: it is chosen whenever its
    [validate] accepts the content, in particular for every text that
    [JSON.parse] reads; [WeChatParser] is chosen exactly when
    [DuokanParser.validate] rejects the content and [WeChatParser.validate]
    accepts it, and no parser exactly when both reject it.  A parser type
    that is not the empty string is looked up in the registry, whatever the
    content. *)
Theorem detection_tries_duokan_first {rt : Runtime} (content : jsstring) :
  let detected :=
    NotesManager.getParser NotesManager.initializeParsers content None in
  NotesManager.getParser NotesManager.initializeParsers content (Some []) = detected
  /\ (DuokanParser.validate content = true ->
      detected = Some NotesManager.duokanParser)
  /\ (JSON_parse content <> None -> detected = Some NotesManager.duokanParser)
  /\ (detected = Some NotesManager.wechatParser
      <-> DuokanParser.validate content = false
          /\ WeChatParser.validate content = true)
  /\ (detected = None
      <-> DuokanParser.validate content = false
          /\ WeChatParser.validate content = false)
  /\ (forall parsers type,
        type <> [] ->
        NotesManager.getParser parsers content (Some type) = JsMap.get type parsers)
  /\ JsMap.get (lit "duokan") NotesManager.initializeParsers
     = Some NotesManager.duokanParser
  /\ JsMap.get (lit "wechat") NotesManager.initializeParsers
     = Some NotesManager.wechatParser.
Proof.
  cbv zeta. rewrite getParser_detected.
  split; [reflexivity|].
  split; [now intros ->|].
  split.
  { intros Hjson. unfold DuokanParser.validate, DuokanParser.isValidJSON.
    destruct (JSON_parse content); [|congruence].
    now rewrite !orb_true_r. }
  split.
  { destruct (DuokanParser.validate content).
    - split; [|intros [H _]; discriminate].
      intros E. exfalso. apply parsers_differ. congruence.
    - destruct (WeChatParser.validate content).
      + split; auto.
      + split; [discriminate | intros [_ H]; discriminate]. }
  split.
  { destruct (DuokanParser.validate content); [split; [discriminate|]|].
    - intros [H _]. discriminate.
    - destruct (WeChatParser.validate content).
      + split; [discriminate | intros [_ H]; discriminate].
      + split; auto. }
  split.
  { intros parsers type Hne. unfold NotesManager.getParser.
    destruct type; [congruence | reflexivity]. }
  split; reflexivity.
Qed.

(** X12. When auto-detection hands a file to [WeChatParser], [JSON.parse]
    does not read the content, so [WeChatParser.parse] never takes its JSON
    path: it reads the content in the marker format, as CSV or as free text,
    and it returns a bundle unless a CSV row is shorter than the header. *)
Theorem autodetected_wechat_input_is_not_json {rt : Runtime} (content : jsstring) :
  NotesManager.getParser NotesManager.initializeParsers content None
  = Some NotesManager.wechatParser ->
  JSON_parse content = None
  /\ WeChatParser.parse content
     = (if includes content (lit "微信读书") && includes content (lit "想法")
        then WeChatParser.parseWeChatFormat content
        else if includes content (lit ",") then WeChatParser.parseCSV content
        else WeChatParser.parsePlainText content)
  /\ (Spec.csv_rows_ok content ->
      exists b, NotesManager.parse NotesManager.wechatParser content = Ok b).
Proof.
  rewrite getParser_detected.
  destruct (DuokanParser.validate content) eqn:Hduokan.
  { intros E. exfalso. apply parsers_differ. congruence. }
  intros _.
  assert (Hjson : JSON_parse content = None).
  { unfold DuokanParser.validate, DuokanParser.isValidJSON in Hduokan.
    destruct (JSON_parse content); [|reflexivity].
    now rewrite !orb_true_r in Hduokan. }
  split; [exact Hjson|]. split.
  - unfold WeChatParser.parse, WeChatParser.isValidJSON. now rewrite Hjson.
  - intros Hcsv. cbn [NotesManager.parse NotesManager.wechatParser].
    apply wechat_parse_returns; [|exact Hcsv].
    intros data Hdata. congruence.
Qed.

Lemma autodetected_wechat_input_is_not_json_witness :
  Json.parse Examples.wechat_text = None
  /\ exists b, WeChatParser.parse Examples.wechat_text = Ok b
               /\ length (Parsed.notes b) = 1.
Proof.
  destruct (@autodetected_wechat_input_is_not_json example_runtime
              Examples.wechat_text) as (Hjson & Hparse & _).
  - rewrite getParser_detected.
    assert (DuokanParser.validate Examples.wechat_text = false) as ->
        by (vm_compute; reflexivity).
    assert (WeChatParser.validate Examples.wechat_text = true) as ->
        by (vm_compute; reflexivity).
    reflexivity.
  - split; [exact Hjson|]. eexists. split; [vm_compute; reflexivity|].
    reflexivity.
Defined.

(** ** [sanitizeFileName]

    The two global replacements are first related to direct recursions on
    the string: the matcher finds the units of a class one by one, and the
    runs of a class one maximal run at a time. *)

Section GlobalReplace.
Variable p : N -> bool.
Variable rep : jsstring.

(** A string has no unit of the class, or a first one. *)
Lemma first_of_class (s : jsstring) :
  Forall (fun c => p c = false) s
  \/ exists pre c post,
       s = pre ++ c :: post /\ Forall (fun c => p c = false) pre /\ p c = true.
Proof.
  induction s as [|x s IH].
  - left. constructor.
  - destruct (p x) eqn:E.
    + right. exists [], x, s. repeat split; auto.
    + destruct IH as [H|(pre & c & post & -> & Hpre & Hc)].
      * left. now constructor.
      * right. exists (x :: pre), c, post. repeat split; auto.
Qed.

Lemma run_at_head (s : jsstring) :
  exists run post,
    s = run ++ post /\ Forall (fun c => p c = true) run /\ Spec.run_ends p post.
Proof.
  induction s as [|x s (run & post & -> & Hrun & Hpost)].
  - exists [], []. repeat split; constructor.
  - destruct (p x) eqn:E.
    + exists (x :: run), post. repeat split; auto.
    + exists [], (x :: run ++ post). repeat split; auto.
Qed.

Lemma scan_step (r : Regex.re) (fuel : nat) (s : jsstring) (pos a b : nat)
  (m : Regex.Match) :
  Regex.search r s pos = Some m ->
  Regex.index m = pos + a -> length (Regex.text m) = b -> 0 < b ->
  a + b <= length s ->
  Regex.scan (S fuel) r s pos
  = m :: Regex.scan fuel r (skipn (a + b) s) (pos + (a + b)).
Proof.
  intros Hsearch Hindex Hlen Hb Hfit. cbn [Regex.scan]. rewrite Hsearch.
  cbv zeta. rewrite Hindex, Hlen.
  replace (pos + a - pos + Nat.max 1 b) with (a + b) by lia.
  destruct (Nat.ltb_spec (length s) (a + b)); [lia | reflexivity].
Qed.

Lemma replace_spans_step (m : Regex.Match) (ms : list Regex.Match)
  (s : jsstring) (pos a b : nat) :
  Regex.index m = pos + a -> length (Regex.text m) = b ->
  NotesManager.replace_spans (m :: ms) rep s pos
  = firstn a s ++ rep
    ++ NotesManager.replace_spans ms rep (skipn (a + b) s) (pos + (a + b)).
Proof.
  intros Hindex Hlen. cbn [NotesManager.replace_spans]. rewrite Hindex, Hlen.
  replace (pos + a - pos) with a by lia.
  now replace (pos + a + b) with (pos + (a + b)) by lia.
Qed.

(** *** One unit of a class *)

Lemma search_cls_none (s : jsstring) (pos : nat) :
  Forall (fun c => p c = false) s -> Regex.search (Regex.Cls p) s pos = None.
Proof.
  intros H. revert pos. induction H as [|c s Hc Hs IH]; intros pos; [reflexivity|].
  cbn [Regex.search]. unfold Regex.at_pos. cbn [Regex.run]. rewrite Hc.
  cbn [Regex.orelse]. apply IH.
Qed.

Lemma search_cls_found (pre post : jsstring) (c : N) (pos : nat) :
  Forall (fun c => p c = false) pre -> p c = true ->
  Regex.search (Regex.Cls p) (pre ++ c :: post) pos
  = Some {| Regex.index := pos + length pre; Regex.text := [c]; Regex.groups := [] |}.
Proof.
  intros Hpre Hc. revert pos. induction Hpre as [|x pre Hx Hpre IH]; intros pos.
  - cbn [app Regex.search]. unfold Regex.at_pos. cbn [Regex.run]. rewrite Hc.
    cbn [Regex.orelse length]. rewrite Nat.add_0_r.
    replace (S pos - pos) with 1 by lia. reflexivity.
  - cbn [app Regex.search]. unfold Regex.at_pos at 1. cbn [Regex.run]. rewrite Hx.
    cbn [Regex.orelse]. rewrite IH. cbn [length]. f_equal. f_equal. lia.
Qed.

Lemma each_replaced_clean (s : jsstring) :
  Forall (fun c => p c = false) s -> Spec.each_replaced p rep s = s.
Proof.
  induction 1 as [|c s Hc Hs IH]; [reflexivity|].
  unfold Spec.each_replaced in *. cbn [flat_map]. rewrite Hc, IH. reflexivity.
Qed.

Lemma each_replaced_app (a b : jsstring) :
  Spec.each_replaced p rep (a ++ b)
  = Spec.each_replaced p rep a ++ Spec.each_replaced p rep b.
Proof. apply flat_map_app. Qed.

Lemma replace_scan_cls :
  forall fuel s pos,
    length s < fuel ->
    NotesManager.replace_spans (Regex.scan fuel (Regex.Cls p) s pos) rep s pos
    = Spec.each_replaced p rep s.
Proof.
  induction fuel as [|fuel IH]; intros s pos Hfuel; [lia|].
  destruct (first_of_class s) as [Hnone|(pre & c & post & -> & Hpre & Hc)].
  - cbn [Regex.scan]. rewrite search_cls_none by assumption.
    cbn [NotesManager.replace_spans]. now rewrite each_replaced_clean.
  - rewrite length_app in Hfuel. cbn [length] in Hfuel.
    rewrite (@scan_step (Regex.Cls p) fuel (pre ++ c :: post) pos (length pre) 1 _
               (search_cls_found post pos Hpre Hc));
      try reflexivity; try lia;
      [|rewrite length_app; cbn [length]; lia].
    rewrite (@replace_spans_step _ _ (pre ++ c :: post) pos (length pre) 1)
      by reflexivity.
    rewrite firstn_app, Nat.sub_diag, firstn_all, firstn_O, app_nil_r.
    replace (skipn (length pre + 1) (pre ++ c :: post)) with post.
    + rewrite IH by lia.
      rewrite each_replaced_app, (each_replaced_clean Hpre).
      unfold Spec.each_replaced at 2. cbn [flat_map]. rewrite Hc.
      reflexivity.
    + rewrite skipn_app, skipn_all2 by lia.
      replace (length pre + 1 - length pre) with 1 by lia. reflexivity.
Qed.

Lemma replace_all_cls (s : jsstring) :
  NotesManager.replace_all (Regex.Cls p) rep s = Spec.each_replaced p rep s.
Proof. apply replace_scan_cls. lia. Qed.

(** *** A maximal run of a class *)

Lemma star_takes_the_run {T} (k : Regex.Cont T) (run post : jsstring) :
  (forall s pos caps, k s pos caps <> None) ->
  Forall (fun c => p c = true) run -> Spec.run_ends p post ->
  forall pos caps,
    Regex.star p k (run ++ post) pos caps = k post (pos + length run) caps.
Proof.
  intros Hk Hrun Hpost. induction Hrun as [|c run Hc Hrun IH]; intros pos caps.
  - cbn [app length]. rewrite Nat.add_0_r.
    destruct post as [|c post]; [reflexivity|].
    cbn [Regex.star]. cbn [Spec.run_ends] in Hpost. now rewrite Hpost.
  - cbn [app Regex.star length]. rewrite Hc, IH.
    replace (S pos + length run) with (pos + S (length run)) by lia.
    destruct (k post (pos + S (length run)) caps) eqn:E; [reflexivity|].
    now apply Hk in E.
Qed.

Lemma at_pos_plus (c : N) (run post : jsstring) (pos : nat) :
  p c = true -> Forall (fun c => p c = true) run -> Spec.run_ends p post ->
  Regex.at_pos (Regex.plus p) (c :: run ++ post) pos
  = Some {| Regex.index := pos; Regex.text := c :: run; Regex.groups := [] |}.
Proof.
  intros Hc Hrun Hpost. unfold Regex.at_pos, Regex.plus. cbn [Regex.run].
  rewrite Hc. rewrite star_takes_the_run by (assumption || discriminate).
  replace (S pos + length run - pos) with (S (length run)) by lia.
  cbn [firstn]. rewrite firstn_app, Nat.sub_diag, firstn_all, firstn_O, app_nil_r.
  reflexivity.
Qed.

Lemma search_plus_none (s : jsstring) (pos : nat) :
  Forall (fun c => p c = false) s -> Regex.search (Regex.plus p) s pos = None.
Proof.
  intros H. revert pos. induction H as [|c s Hc Hs IH]; intros pos; [reflexivity|].
  cbn [Regex.search]. unfold Regex.at_pos, Regex.plus. cbn [Regex.run]. rewrite Hc.
  cbn [Regex.orelse]. apply IH.
Qed.

Lemma search_plus_found (pre run post : jsstring) (c : N) (pos : nat) :
  Forall (fun c => p c = false) pre ->
  p c = true -> Forall (fun c => p c = true) run -> Spec.run_ends p post ->
  Regex.search (Regex.plus p) (pre ++ c :: run ++ post) pos
  = Some {| Regex.index := pos + length pre; Regex.text := c :: run;
            Regex.groups := [] |}.
Proof.
  intros Hpre Hc Hrun Hpost. revert pos.
  induction Hpre as [|x pre Hx Hpre IH]; intros pos.
  - cbn [app Regex.search]. rewrite at_pos_plus by assumption.
    cbn [Regex.orelse length]. now rewrite Nat.add_0_r.
  - cbn [app Regex.search]. unfold Regex.at_pos at 1, Regex.plus at 1.
    cbn [Regex.run]. rewrite Hx. cbn [Regex.orelse]. rewrite IH.
    cbn [length]. f_equal. f_equal. lia.
Qed.

Lemma runs_replaced_clean (s : jsstring) (in_run : bool) :
  Forall (fun c => p c = false) s -> Spec.runs_replaced p rep in_run s = s.
Proof.
  intros H. revert in_run. induction H as [|c s Hc Hs IH]; intros in_run;
    [reflexivity|].
  cbn [Spec.runs_replaced]. now rewrite Hc, IH.
Qed.

Lemma runs_replaced_pre (pre s : jsstring) (in_run : bool) :
  Forall (fun c => p c = false) pre -> pre <> [] \/ in_run = false ->
  Spec.runs_replaced p rep in_run (pre ++ s)
  = pre ++ Spec.runs_replaced p rep false s.
Proof.
  intros H. revert in_run. induction H as [|c pre Hc Hpre IH]; intros in_run Hor.
  - destruct Hor as [Hor| ->]; [congruence | reflexivity].
  - cbn [app Spec.runs_replaced]. rewrite Hc, IH by (now right). reflexivity.
Qed.

Lemma runs_replaced_run (run post : jsstring) :
  Forall (fun c => p c = true) run -> Spec.run_ends p post ->
  Spec.runs_replaced p rep true (run ++ post) = Spec.runs_replaced p rep false post.
Proof.
  intros Hrun Hpost. induction Hrun as [|c run Hc Hrun IH].
  - destruct post as [|c post]; [reflexivity|].
    cbn [app Spec.runs_replaced]. cbn [Spec.run_ends] in Hpost. now rewrite Hpost.
  - cbn [app Spec.runs_replaced]. now rewrite Hc, IH.
Qed.

Lemma replace_scan_plus :
  forall fuel s pos,
    length s < fuel ->
    NotesManager.replace_spans (Regex.scan fuel (Regex.plus p) s pos) rep s pos
    = Spec.runs_replaced p rep false s.
Proof.
  induction fuel as [|fuel IH]; intros s pos Hfuel; [lia|].
  destruct (first_of_class s) as [Hnone|(pre & c & rest & -> & Hpre & Hc)].
  - cbn [Regex.scan]. rewrite search_plus_none by assumption.
    cbn [NotesManager.replace_spans]. now rewrite runs_replaced_clean.
  - destruct (run_at_head rest) as (run & post & -> & Hrun & Hpost).
    rewrite !length_app in Hfuel. cbn [length] in Hfuel.
    rewrite length_app in Hfuel.
    rewrite (@scan_step (Regex.plus p) fuel (pre ++ c :: run ++ post) pos
               (length pre) (S (length run)) _
               (search_plus_found post pos Hpre Hc Hrun Hpost));
      try reflexivity; try lia;
      [|rewrite !length_app; cbn [length]; rewrite length_app; lia].
    rewrite (@replace_spans_step _ _ (pre ++ c :: run ++ post) pos (length pre)
               (S (length run))) by reflexivity.
    rewrite firstn_app, Nat.sub_diag, firstn_all, firstn_O, app_nil_r.
    replace (skipn (length pre + S (length run)) (pre ++ c :: run ++ post))
      with post.
    + rewrite IH by lia.
      rewrite runs_replaced_pre by (assumption || now right).
      cbn [Spec.runs_replaced]. rewrite Hc.
      now rewrite runs_replaced_run.
    + rewrite skipn_app, skipn_all2 by lia.
      replace (length pre + S (length run) - length pre) with (S (length run))
        by lia.
      cbn [skipn app]. rewrite skipn_app, skipn_all2 by lia.
      now rewrite Nat.sub_diag.
Qed.

Lemma replace_all_plus (s : jsstring) :
  NotesManager.replace_all (Regex.plus p) rep s = Spec.runs_replaced p rep false s.
Proof. apply replace_scan_plus. lia. Qed.

(** *** What the direct recursions keep *)

Lemma each_replaced_Forall (Q : N -> Prop) (s : jsstring) :
  Forall Q rep -> (forall c, In c s -> p c = false -> Q c) ->
  Forall Q (Spec.each_replaced p rep s).
Proof.
  intros Hrep. induction s as [|c s IH]; intros Hs; [constructor|].
  unfold Spec.each_replaced in *. cbn [flat_map].
  apply Forall_app. split.
  - destruct (p c) eqn:E; [exact Hrep|]. constructor; [|constructor].
    apply Hs; [now left | exact E].
  - apply IH. intros x Hx. apply Hs. now right.
Qed.

Lemma runs_replaced_Forall (Q : N -> Prop) (s : jsstring) (in_run : bool) :
  Forall Q rep -> (forall c, In c s -> p c = false -> Q c) ->
  Forall Q (Spec.runs_replaced p rep in_run s).
Proof.
  intros Hrep. revert in_run. induction s as [|c s IH]; intros in_run Hs;
    [constructor|].
  cbn [Spec.runs_replaced]. destruct (p c) eqn:E.
  - apply Forall_app. split.
    + destruct in_run; [constructor | exact Hrep].
    + apply IH. intros x Hx. apply Hs. now right.
  - constructor; [apply Hs; [now left | exact E]|].
    apply IH. intros x Hx. apply Hs. now right.
Qed.

Lemma each_replaced_length (s : jsstring) :
  length rep = 1 -> length (Spec.each_replaced p rep s) = length s.
Proof.
  intros Hrep. induction s as [|c s IH]; [reflexivity|].
  unfold Spec.each_replaced in *. cbn [flat_map]. rewrite length_app, IH.
  destruct (p c); cbn [length]; lia.
Qed.

Lemma runs_replaced_length (s : jsstring) (in_run : bool) :
  length rep = 1 -> length (Spec.runs_replaced p rep in_run s) <= length s.
Proof.
  intros Hrep. revert in_run. induction s as [|c s IH]; intros in_run;
    [reflexivity|].
  cbn [Spec.runs_replaced]. destruct (p c).
  - rewrite length_app. specialize (IH true).
    destruct in_run; cbn [length]; lia.
  - cbn [length]. specialize (IH false). lia.
Qed.

End GlobalReplace.

Lemma sanitizeFileName_direct (fileName : jsstring) :
  NotesManager.sanitizeFileName fileName
  = Spec.runs_replaced is_space (lit "_") false
      (Spec.each_replaced NotesManager.reserved (lit "_") fileName).
Proof.
  unfold NotesManager.sanitizeFileName.
  now rewrite replace_all_cls, replace_all_plus.
Qed.

(** X13. [sanitizeFileName] returns a name without any of the reserved
    characters and without white space, no longer than the name it was given;
    a name that already is like that comes back unchanged, so sanitizing
    twice is sanitizing once. *)
Theorem sanitizeFileName_gives_a_safe_name (fileName : jsstring) :
  Spec.safe_name (NotesManager.sanitizeFileName fileName)
  /\ length (NotesManager.sanitizeFileName fileName) <= length fileName
  /\ (Spec.safe_name fileName -> NotesManager.sanitizeFileName fileName = fileName)
  /\ NotesManager.sanitizeFileName (NotesManager.sanitizeFileName fileName)
     = NotesManager.sanitizeFileName fileName.
Proof.
  assert (Hclean : forall s, Spec.safe_name s ->
                             NotesManager.sanitizeFileName s = s).
  { intros s Hs. rewrite sanitizeFileName_direct.
    rewrite each_replaced_clean, runs_replaced_clean; [reflexivity| |].
    - eapply Forall_impl; [|exact Hs]. now intros c [_ H].
    - eapply Forall_impl; [|exact Hs]. now intros c [H _]. }
  assert (Hres : Forall (fun c => NotesManager.reserved c = false)
                   (Spec.each_replaced NotesManager.reserved (lit "_") fileName)).
  { apply each_replaced_Forall; [|auto].
    change (lit "_") with [95%N]. now repeat constructor. }
  assert (Hsafe : Spec.safe_name (NotesManager.sanitizeFileName fileName)).
  { rewrite sanitizeFileName_direct. unfold Spec.safe_name.
    apply runs_replaced_Forall.
    - change (lit "_") with [95%N]. now repeat constructor.
    - intros c Hc Hspace. split; [|exact Hspace].
      rewrite Forall_forall in Hres. now apply Hres. }
  split; [exact Hsafe|]. split; [|split; [apply Hclean | now apply Hclean]].
  rewrite sanitizeFileName_direct.
  etransitivity; [apply runs_replaced_length; reflexivity|].
  now rewrite each_replaced_length.
Qed.

(* ===================================================================== *)
(** * Further properties of the formatters *)
(* ===================================================================== *)

(** ** The order of the rendered notes *)

Section SortStability.
Variable A : Type.
Variable key : A -> Z.
Variable cmp : A -> A -> option Z.
Hypothesis cmp_key : forall a b, cmp a b = Some (key a - key b)%Z.

Lemma insert_keeps_the_order_of_equals (k : Z) (x : A) (l : list A) :
  filter (fun a => (key a =? k)%Z) (MarkdownFormatter.insert cmp x l)
  = filter (fun a => (key a =? k)%Z) (x :: l).
Proof.
  induction l as [|y l IH]; [reflexivity|].
  cbn [MarkdownFormatter.insert].
  destruct (MarkdownFormatter.before cmp y x) eqn:E; [|reflexivity].
  apply (before_key key cmp cmp_key) in E.
  cbn [filter] in *. rewrite IH.
  destruct (Z.eqb_spec (key x) k) as [Hx|Hx]; [|reflexivity].
  destruct (Z.eqb_spec (key y) k) as [Hy|Hy]; [lia | reflexivity].
Qed.

Lemma sort_keeps_the_order_of_equals (k : Z) (l : list A) :
  filter (fun a => (key a =? k)%Z) (MarkdownFormatter.sort cmp l)
  = filter (fun a => (key a =? k)%Z) l.
Proof.
  induction l as [|x l IH]; [reflexivity|].
  cbn [MarkdownFormatter.sort]. rewrite insert_keeps_the_order_of_equals.
  cbn [filter]. now rewrite IH.
Qed.

End SortStability.

Lemma insert_agrees {A} (cmp cmp' : A -> A -> option Z) (x : A) (l : list A) :
  (forall y, In y l -> cmp y x = cmp' y x) ->
  MarkdownFormatter.insert cmp x l = MarkdownFormatter.insert cmp' x l.
Proof.
  induction l as [|y l IH]; intros H; [reflexivity|].
  cbn [MarkdownFormatter.insert]. unfold MarkdownFormatter.before.
  rewrite (H y) by now left.
  fold (MarkdownFormatter.before cmp' y x).
  destruct (MarkdownFormatter.before cmp' y x); [|reflexivity].
  f_equal. apply IH. intros z Hz. apply H. now right.
Qed.

Lemma sort_agrees {A} (cmp cmp' : A -> A -> option Z) (l : list A) :
  (forall a b, In a l -> In b l -> cmp a b = cmp' a b) ->
  MarkdownFormatter.sort cmp l = MarkdownFormatter.sort cmp' l.
Proof.
  induction l as [|x l IH]; intros H; [reflexivity|].
  cbn [MarkdownFormatter.sort].
  rewrite IH by (intros a b Ha Hb; apply H; now right).
  apply insert_agrees. intros y Hy. apply H; [right | now left].
  eapply Permutation_in; [|exact Hy].
  symmetry. apply sort_permutation.
Qed.

(** X14. By position, the default order: the rendered list is a
    rearrangement of the given notes, ascending in [position || 0], in
    which the notes of one position keep the order they were given in. *)
Theorem notes_are_sorted_by_position_stably (notes : list Notes.BookNote) :
  let sorted := MarkdownFormatter.sortedNotes
                  (MarkdownFormatter.default None MarkdownFormatter.position)
                  notes in
  Permutation notes sorted
  /\ Sorted (Spec.key_le MarkdownFormatter.position_or_0) sorted
  /\ forall k, filter (fun n => (MarkdownFormatter.position_or_0 n =? k)%Z) sorted
               = filter (fun n => (MarkdownFormatter.position_or_0 n =? k)%Z) notes.
Proof.
  cbv zeta. cbn [MarkdownFormatter.default MarkdownFormatter.sortedNotes].
  split; [apply sort_permutation|].
  split; [apply sort_sorted; reflexivity|].
  intros k. apply sort_keeps_the_order_of_equals. reflexivity.
Qed.

(** X15. By date, when every creation date is valid: the rendered list is
    a rearrangement of the given notes, ascending in creation time, in which
    the notes of one creation time keep the order they were given in. *)
Theorem notes_are_sorted_by_date_stably (notes : list Notes.BookNote) :
  Forall Spec.valid_date notes ->
  let sorted := MarkdownFormatter.sortedNotes MarkdownFormatter.date notes in
  Permutation notes sorted
  /\ Sorted (Spec.key_le Spec.created_ms) sorted
  /\ forall k, filter (fun n => (Spec.created_ms n =? k)%Z) sorted
               = filter (fun n => (Spec.created_ms n =? k)%Z) notes.
Proof.
  intros Hvalid. cbv zeta. cbn [MarkdownFormatter.sortedNotes].
  set (cmp' := fun a b : Notes.BookNote =>
                 Some (Spec.created_ms a - Spec.created_ms b)%Z).
  assert (E : MarkdownFormatter.sort MarkdownFormatter.by_date notes
              = MarkdownFormatter.sort cmp' notes).
  { apply sort_agrees. intros a b Ha Hb. rewrite Forall_forall in Hvalid.
    destruct (Hvalid a Ha) as [x Hx]. destruct (Hvalid b Hb) as [y Hy].
    unfold MarkdownFormatter.by_date, cmp', Spec.created_ms.
    now rewrite Hx, Hy. }
  rewrite E.
  split; [apply sort_permutation|].
  split; [apply sort_sorted; reflexivity|].
  intros k. apply sort_keeps_the_order_of_equals. reflexivity.
Qed.

Lemma notes_are_sorted_by_date_stably_witness :
  MarkdownFormatter.sortedNotes MarkdownFormatter.date Examples.three_positions
  = [Examples.positioned "c" 2 10; Examples.positioned "b" 1 20;
     Examples.positioned "a" 2 30]
  /\ Sorted (Spec.key_le Spec.created_ms)
       (MarkdownFormatter.sortedNotes MarkdownFormatter.date Examples.three_positions).
Proof.
  split; [reflexivity|].
  apply (@notes_are_sorted_by_date_stably Examples.three_positions).
  repeat constructor; eexists; reflexivity.
Defined.

(** ** Grouping by chapter *)

Lemma chapter_label_nonempty (n : Notes.BookNote) : Spec.chapter_label n <> [].
Proof.
  unfold Spec.chapter_label.
  assert (H : MarkdownFormatter.uncategorized <> [])
    by (intros E; apply (f_equal (@length N)) in E; vm_compute in E; discriminate E).
  destruct (Notes.chapter n) as [c|]; [|exact H].
  destruct c; [exact H | discriminate].
Qed.

(** One more note: it joins the group of its label, which is opened at the
    end of the map when the label is new. *)
Lemma group_one_more (notes : list Notes.BookNote) (n : Notes.BookNote) :
  let groups := MarkdownFormatter.groupNotesByChapter notes in
  let label := Spec.chapter_label n in
  MarkdownFormatter.groupNotesByChapter (notes ++ [n])
  = JsMap.set label
      (match JsMap.get label groups with Some held => held | None => [] end ++ [n])
      (if JsMap.has label groups then groups else JsMap.set label [] groups).
Proof.
  cbv zeta. unfold MarkdownFormatter.groupNotesByChapter.
  rewrite fold_left_app. cbn [fold_left].
  fold (MarkdownFormatter.groupNotesByChapter notes).
  fold (Spec.chapter_label n).
  unfold JsMap.has.
  destruct (JsMap.get (Spec.chapter_label n)
              (MarkdownFormatter.groupNotesByChapter notes)) as [held|] eqn:E.
  - now rewrite E.
  - now rewrite get_set_same.
Qed.

Lemma of_chapter_one_more (c : jsstring) (notes : list Notes.BookNote)
  (n : Notes.BookNote) :
  Spec.of_chapter c (notes ++ [n])
  = Spec.of_chapter c notes
    ++ (if str_eqb (Spec.chapter_label n) c then [n] else []).
Proof.
  unfold Spec.of_chapter. rewrite filter_app. cbn [filter].
  now destruct (str_eqb (Spec.chapter_label n) c).
Qed.

Lemma concat_values_set {A} (m : JsMap.t (list A)) (k : jsstring)
  (held more : list A) :
  JsMap.get k m = Some held ->
  Permutation (concat (JsMap.values (JsMap.set k (held ++ more) m)))
              (concat (JsMap.values m) ++ more).
Proof.
  induction m as [|[k0 v0] m IH]; cbn [JsMap.get JsMap.set]; [discriminate|].
  destruct (str_eqb k0 k).
  - intros H. injection H as ->. cbn [JsMap.values map snd concat].
    rewrite <- !app_assoc. apply Permutation_app_head, Permutation_app_comm.
  - intros H. cbn [JsMap.values map snd concat]. rewrite <- app_assoc.
    apply Permutation_app_head. now apply IH.
Qed.

(** X16. [groupNotesByChapter] puts every note in exactly one group: under
    a label the map holds the notes of that label, in the order they were
    given, and it holds no label without a note; no label occurs twice and
    none is the empty string (so the fallback ['未分类'] where a group is
    rendered never applies); together the groups are a rearrangement of the
    given notes. *)
Theorem notes_are_grouped_by_chapter (notes : list Notes.BookNote) :
  let groups := MarkdownFormatter.groupNotesByChapter notes in
  (forall c, JsMap.get c groups
             = match Spec.of_chapter c notes with
               | [] => None
               | held => Some held
               end)
  /\ NoDup (JsMap.keys groups)
  /\ ~ In [] (JsMap.keys groups)
  /\ Permutation (concat (JsMap.values groups)) notes.
Proof.
  cbv zeta. induction notes as [|n notes IH] using rev_ind.
  - repeat split; try constructor. intros [].
  - destruct IH as (Hget & Hnodup & Hne & Hperm).
    rewrite group_one_more. cbv zeta.
    set (groups := MarkdownFormatter.groupNotesByChapter notes) in *.
    set (label := Spec.chapter_label n).
    set (opened := if JsMap.has label groups then groups
                   else JsMap.set label [] groups).
    assert (Hheld : JsMap.get label opened
                    = Some (match JsMap.get label groups with
                            | Some held => held
                            | None => []
                            end)).
    { unfold opened, JsMap.has.
      destruct (JsMap.get label groups) eqn:E; [exact E | apply get_set_same]. }
    assert (Hkeys : JsMap.keys opened
                    = if JsMap.has label groups then JsMap.keys groups
                      else JsMap.keys groups ++ [label]).
    { unfold opened. destruct (JsMap.has label groups) eqn:E; [reflexivity|].
      now apply keys_set_new. }
    assert (Hvalues : concat (JsMap.values opened) = concat (JsMap.values groups)).
    { unfold opened. destruct (JsMap.has label groups) eqn:E; [reflexivity|].
      rewrite values_set_new, concat_app by assumption.
      cbn [concat]. now rewrite !app_nil_r. }
    split; [|split; [|split]].
    + intros c. rewrite of_chapter_one_more.
      destruct (str_eqb label c) eqn:E.
      * apply str_eqb_eq in E. subst c. rewrite get_set_same, Hget.
        fold label. rewrite str_eqb_refl.
        now destruct (Spec.of_chapter label notes).
      * fold label. rewrite E, app_nil_r.
        apply str_eqb_neq in E. rewrite get_set_other by assumption.
        unfold opened.
        destruct (JsMap.has label groups); [apply Hget|].
        rewrite get_set_other by assumption. apply Hget.
    + rewrite keys_set_old by (eapply has_true_get; exact Hheld).
      rewrite Hkeys. destruct (JsMap.has label groups) eqn:E; [exact Hnodup|].
      apply NoDup_app; [exact Hnodup | repeat constructor; intros [] |].
      intros k Hk [<-|[]]. apply has_keys in Hk. congruence.
    + rewrite keys_set_old by (eapply has_true_get; exact Hheld).
      rewrite Hkeys. destruct (JsMap.has label groups); [exact Hne|].
      intros Hin. apply in_app_or in Hin as [Hin|[E|[]]]; [now apply Hne|].
      now apply (chapter_label_nonempty n).
    + rewrite (@concat_values_set _ opened label _ [n] Hheld), Hvalues.
      now apply Permutation_app_tail.
Qed.

(** ** The two entry points of the default formatter *)

(** X17. Without the metadata header, [formatBook] renders a bundle as
    [format] renders its notes, whether or not it has any. *)
Theorem formatBook_without_metadata_is_format
  {rt : Runtime} (data : Notes.ParsedBookData)
  (options : MarkdownFormatter.FormatOptions) :
  MarkdownFormatter.includeMetadata options = Some false ->
  MarkdownFormatter.formatBook data options
  = MarkdownFormatter.format (Notes.notes data) options.
Proof.
  intros H. unfold MarkdownFormatter.formatBook, MarkdownFormatter.format.
  rewrite H. cbn [MarkdownFormatter.default].
  destruct (Notes.notes data); [|reflexivity].
  cbn [app]. reflexivity.
Qed.

Lemma formatBook_without_metadata_is_format_witness :
  MarkdownFormatter.formatBook
    (Examples.a_bundle "Book" [Examples.in_chapter_b; Examples.in_chapter_a])
    Examples.plain_by_chapter
  = MarkdownFormatter.format [Examples.in_chapter_b; Examples.in_chapter_a]
      Examples.plain_by_chapter.
Proof.
  apply (@formatBook_without_metadata_is_format example_runtime
           (Examples.a_bundle "Book" [Examples.in_chapter_b; Examples.in_chapter_a])
           Examples.plain_by_chapter).
  reflexivity.
Defined.

(** ** [SimpleMarkdownFormatter] *)

Lemma simple_fold (notes : list Notes.BookNote) (markdown : jsstring) :
  fold_left (fun markdown note => markdown ++ SimpleMarkdownFormatter.line note)
    notes markdown
  = markdown ++ flat_map SimpleMarkdownFormatter.line notes.
Proof.
  revert markdown. induction notes as [|n notes IH]; intros markdown;
    cbn [fold_left flat_map]; [now rewrite app_nil_r|].
  now rewrite IH, app_assoc.
Qed.

Lemma simple_format_lines (notes : list Notes.BookNote) :
  SimpleMarkdownFormatter.format notes
  = flat_map SimpleMarkdownFormatter.line notes.
Proof.
  unfold SimpleMarkdownFormatter.format. destruct notes; [reflexivity|].
  now rewrite simple_fold.
Qed.

(** X18. The simple formatter renders note by note: the output for a list
    is the output for its first part followed by the output for the rest,
    every note ends in an empty line, and the output is empty only when
    there is no note. *)
Theorem simple_format_is_note_by_note (notes more : list Notes.BookNote) :
  SimpleMarkdownFormatter.format (notes ++ more)
  = SimpleMarkdownFormatter.format notes ++ SimpleMarkdownFormatter.format more
  /\ (forall n, exists text,
        SimpleMarkdownFormatter.format [n]
        = text ++ MarkdownFormatter.nl ++ MarkdownFormatter.nl
        /\ Spec.substring (Notes.content n) text)
  /\ (SimpleMarkdownFormatter.format notes = [] <-> notes = []).
Proof.
  split; [|split].
  - rewrite !simple_format_lines. apply flat_map_app.
  - intros n. rewrite simple_format_lines. cbn [flat_map]. rewrite app_nil_r.
    unfold SimpleMarkdownFormatter.line.
    destruct (Notes.noteType n).
    + exists (lit "> " ++ Notes.content n). rewrite <- app_assoc.
      split; [reflexivity|]. exists (lit "> "), []. now rewrite app_nil_r.
    + exists (Notes.content n). split; [reflexivity|].
      exists [], []. now rewrite app_nil_r.
    + exists (Notes.content n). split; [reflexivity|].
      exists [], []. now rewrite app_nil_r.
  - split; [|now intros ->].
    destruct notes as [|n notes]; [reflexivity|].
    rewrite simple_format_lines. cbn [flat_map]. intros E.
    apply (f_equal (@length N)) in E. rewrite length_app in E.
    unfold SimpleMarkdownFormatter.line in E.
    destruct (Notes.noteType n); rewrite !length_app in E; cbn in E; lia.
Qed.

(* ===================================================================== *)
(** * Further properties of the parsers *)
(* ===================================================================== *)

(** ** The ids of one bundle

    An id is a prefix, the decimal index, an underscore and the clock.  The
    index alone tells two ids of one prefix apart, so the ids of a bundle
    differ even when the clock stands still. *)

Lemma digits_are_digits (u : Decimal.uint) :
  Forall (fun c => is_digit c = true) (digits u).
Proof. induction u; cbn [digits]; constructor; auto. Qed.

Lemma digit_prefix_unique (a b x y : jsstring) (c d : N) :
  Forall (fun c => is_digit c = true) a ->
  Forall (fun c => is_digit c = true) b ->
  is_digit c = false -> is_digit d = false ->
  a ++ c :: x = b ++ d :: y -> a = b.
Proof.
  intros Ha. revert b. induction Ha as [|e a He Ha IH]; intros b Hb Hc Hd E.
  - destruct Hb as [|e b He Hb]; [reflexivity|].
    cbn [app] in E. injection E as -> _. congruence.
  - destruct Hb as [|e' b He' Hb]; cbn [app] in E.
    + injection E as -> _. congruence.
    + injection E as -> E. f_equal. now apply IH.
Qed.

Section IdFacts.
Context {rt : Runtime}.

Lemma fresh_id_inj (prefix : string) (i j : nat) :
  Parsed.fresh_id prefix i = Parsed.fresh_id prefix j -> i = j.
Proof.
  unfold Parsed.fresh_id. intros E. apply app_inv_head in E.
  apply dec_inj. change (lit "_") with [95%N] in E. cbn [app] in E.
  eapply digit_prefix_unique; [apply digits_are_digits .. | | | exact E];
    reflexivity.
Qed.

Lemma ascending_weaken (lo lo' : nat) (ks : list nat) :
  lo' <= lo -> Spec.ascending_from lo ks -> Spec.ascending_from lo' ks.
Proof. destruct ks; cbn [Spec.ascending_from]; [auto | intros ? [? ?]; split; [lia | auto]]. Qed.

Lemma ascending_bound (lo : nat) (ks : list nat) :
  Spec.ascending_from lo ks -> Forall (fun k => lo <= k) ks.
Proof.
  revert lo. induction ks as [|k ks IH]; intros lo H; [constructor|].
  destruct H as [Hk Hks]. constructor; [exact Hk|].
  eapply Forall_impl; [|apply (IH (S k) Hks)]. cbn. intros. lia.
Qed.

Lemma ascending_NoDup (lo : nat) (ks : list nat) :
  Spec.ascending_from lo ks -> NoDup ks.
Proof.
  revert lo. induction ks as [|k ks IH]; intros lo H; [constructor|].
  destruct H as [_ Hks]. constructor; [|now apply (IH (S k))].
  intros Hin. apply ascending_bound in Hks. rewrite Forall_forall in Hks.
  apply Hks in Hin. lia.
Qed.

Lemma ascending_seq (lo m : nat) : Spec.ascending_from lo (seq lo m).
Proof.
  revert lo. induction m as [|m IH]; intros lo; cbn [seq Spec.ascending_from];
    [exact I | split; [lia | apply IH]].
Qed.

Lemma ascending_app (lo hi : nat) (a b : list nat) :
  Spec.ascending_from lo a -> Forall (fun k => k < hi) a ->
  Spec.ascending_from hi b -> lo <= hi ->
  Spec.ascending_from lo (a ++ b).
Proof.
  revert lo. induction a as [|k a IH]; intros lo Ha Hhi Hb Hle.
  - now apply ascending_weaken with hi.
  - destruct Ha as [Hk Ha]. cbn [app Spec.ascending_from]. split; [exact Hk|].
    inversion Hhi; subst. apply IH; auto; lia.
Qed.

Lemma numbered_NoDup (prefix : string) (lo : nat) (notes : list Parsed.BookNote) :
  Spec.numbered prefix lo notes -> NoDup (map Parsed.id notes).
Proof.
  intros [ks [-> Hks]]. apply NoDup_map_injective.
  - apply fresh_id_inj.
  - eapply ascending_NoDup; eassumption.
Qed.

Lemma numbered_nil (prefix : string) (lo : nat) : Spec.numbered prefix lo [].
Proof. exists []. split; [reflexivity | exact I]. Qed.

Lemma numbered_cons (prefix : string) (lo k : nat) (n : Parsed.BookNote)
  (notes : list Parsed.BookNote) :
  Parsed.id n = Parsed.fresh_id prefix k -> lo <= k ->
  Spec.numbered prefix (S k) notes -> Spec.numbered prefix lo (n :: notes).
Proof.
  intros Hn Hk [ks [Hids Hks]]. exists (k :: ks). cbn [map].
  rewrite Hn, Hids. split; [reflexivity | split; assumption].
Qed.

Lemma numbered_weaken (prefix : string) (lo lo' : nat) (notes : list Parsed.BookNote) :
  lo' <= lo -> Spec.numbered prefix lo notes -> Spec.numbered prefix lo' notes.
Proof.
  intros Hle [ks [Hids Hks]]. exists ks. split; [exact Hids|].
  now apply ascending_weaken with lo.
Qed.

(** A loop that pushes, for the element at index [i], nothing or one note
    numbered [i]. *)
Lemma each_numbered {A} (prefix : string) (f : nat -> A -> Result (list Parsed.BookNote)) :
  (forall i x out,
      f i x = Ok out ->
      out = [] \/ exists n, out = [n] /\ Parsed.id n = Parsed.fresh_id prefix i) ->
  forall xs i notes,
    Parsed.each f i xs = Ok notes -> Spec.numbered prefix i notes.
Proof.
  intros Hf. induction xs as [|x xs IH]; intros i notes H; cbn [Parsed.each] in H.
  - injection H as <-. apply numbered_nil.
  - bind_inv H. bind_inv H. injection H as <-.
    apply IH in E0.
    destruct (Hf i x v E) as [->|[n [-> Hn]]]; cbn [app].
    + apply numbered_weaken with (S i); [lia | exact E0].
    + now apply numbered_cons with i.
Qed.

Lemma duokan_json_note_numbered (data : JsVal) (i : nat) (note : JsVal)
  (out : list Parsed.BookNote) :
  DuokanParser.json_note data i note = Ok out ->
  out = [] \/ exists n, out = [n] /\ Parsed.id n = Parsed.fresh_id "duokan_" i.
Proof.
  unfold DuokanParser.json_note. cbv zeta. intros H.
  do 12 (bind_inv H). injection H as <-.
  right. eexists. split; reflexivity.
Qed.

Lemma wechat_json_note_numbered (data : JsVal) (i : nat) (note : JsVal)
  (out : list Parsed.BookNote) :
  WeChatParser.json_note data i note = Ok out ->
  out = [] \/ exists n, out = [n] /\ Parsed.id n = Parsed.fresh_id "wechat_" i.
Proof.
  unfold WeChatParser.json_note. cbv zeta. intros H.
  do 12 (bind_inv H). injection H as <-.
  right. eexists. split; reflexivity.
Qed.

Lemma xml_note_numbered (t a : option Regex.Match) (i : nat) (m : Regex.Match)
  (out : list Parsed.BookNote) :
  DuokanParser.xml_note t a i m = Ok out ->
  out = [] \/ exists n, out = [n] /\ Parsed.id n = Parsed.fresh_id "duokan_xml_" i.
Proof.
  unfold DuokanParser.xml_note. cbv zeta.
  destruct (Regex.exec (DuokanParser.element "content") (Regex.text m));
    intros H; injection H as <-; [right; eexists; split; reflexivity | now left].
Qed.

Lemma csv_row_numbered (headers : list jsstring) (i : nat) (line : jsstring)
  (out : list Parsed.BookNote) :
  WeChatParser.csv_row headers i line = Ok out ->
  out = [] \/ exists n, out = [n] /\ Parsed.id n = Parsed.fresh_id "wechat_csv_" i.
Proof.
  unfold WeChatParser.csv_row. cbv zeta.
  destruct (2 <=? length (WeChatParser.columns_of line [] false []));
    [|intros H; injection H as <-; now left].
  intros H. do 3 (bind_inv H).
  destruct (truthy_str v); injection H as <-;
    [right; eexists; split; reflexivity | now left].
Qed.

Lemma scan_lines_numbered (title author : jsstring) (lines : list jsstring) :
  forall noteIndex,
    Spec.numbered "duokan_txt_" noteIndex
      (DuokanParser.scan_lines title author noteIndex lines).
Proof.
  induction lines as [|raw rest IH]; intros noteIndex;
    cbn [DuokanParser.scan_lines]; [apply numbered_nil|].
  cbv zeta. destruct (DuokanParser.is_note_line (trim raw)).
  - apply numbered_cons with noteIndex; [reflexivity | lia | apply IH].
  - apply IH.
Qed.

(** What the three marker blocks of one round have pushed: notes numbered
    from the counter the round started with up to the counter it ends
    with. *)
Lemma marker_block_numbered lines title author chapter line marked ok kind location
  (n0 : nat) (c : WeChatParser.Cursor) :
  map Parsed.id (WeChatParser.cur_pushed c)
  = map (Parsed.fresh_id "wechat_") (seq n0 (length (WeChatParser.cur_pushed c))) ->
  WeChatParser.cur_noteIndex c = n0 + length (WeChatParser.cur_pushed c) ->
  let c' := WeChatParser.marker_block lines title author chapter line marked ok
              kind location c in
  map Parsed.id (WeChatParser.cur_pushed c')
  = map (Parsed.fresh_id "wechat_") (seq n0 (length (WeChatParser.cur_pushed c')))
  /\ WeChatParser.cur_noteIndex c' = n0 + length (WeChatParser.cur_pushed c').
Proof.
  intros Hids Hindex. cbv zeta. unfold WeChatParser.marker_block.
  destruct marked; [|now split].
  destruct (WeChatParser.present _ ok) as [nextLine|]; [|now split].
  cbn [WeChatParser.cur_pushed WeChatParser.cur_noteIndex].
  rewrite length_app, map_app, Hids. cbn [length map].
  rewrite Nat.add_1_r, seq_S, map_app. cbn [map].
  split; [|lia].
  f_equal. unfold WeChatParser.text_note. cbn [Parsed.id]. now rewrite Hindex.
Qed.

Lemma numbered_after_seq (prefix : string) (lo m : nat)
  (pushed rest : list Parsed.BookNote) :
  map Parsed.id pushed = map (Parsed.fresh_id prefix) (seq lo m) ->
  Spec.numbered prefix (lo + m) rest ->
  Spec.numbered prefix lo (pushed ++ rest).
Proof.
  intros Hids [ks [Hrest Hks]]. exists (seq lo m ++ ks).
  rewrite !map_app, Hids, Hrest. split; [reflexivity|].
  apply ascending_app with (lo + m); [apply ascending_seq | | exact Hks | lia].
  apply Forall_forall. intros k Hk. apply in_seq in Hk. lia.
Qed.

Lemma format_loop_numbered (lines : list jsstring) (title author : jsstring) :
  forall fuel chapter i noteIndex,
    Spec.numbered "wechat_" noteIndex
      (WeChatParser.format_loop fuel lines title author chapter i noteIndex).
Proof.
  induction fuel as [|fuel IH]; intros chapter i noteIndex;
    cbn [WeChatParser.format_loop]; [apply numbered_nil|].
  destruct (WeChatParser.line_at lines i) as [line|]; [|apply numbered_nil].
  destruct (includes line (lit "章节")
            || includes line (lit "第") && includes line (lit "章")); [apply IH|].
  cbv zeta.
  match goal with
  | |- context [WeChatParser.cur_pushed ?c] => set (c3 := c)
  end.
  assert (H3 : map Parsed.id (WeChatParser.cur_pushed c3)
               = map (Parsed.fresh_id "wechat_")
                   (seq noteIndex (length (WeChatParser.cur_pushed c3)))
               /\ WeChatParser.cur_noteIndex c3
                  = noteIndex + length (WeChatParser.cur_pushed c3)).
  { unfold c3.
    apply marker_block_numbered; apply marker_block_numbered;
      apply marker_block_numbered; cbn; auto. }
  destruct H3 as [Hids Hindex].
  eapply numbered_after_seq; [exact Hids|].
  rewrite <- Hindex. apply IH.
Qed.

Lemma inline_numbered title author chapter noteIndex i kind content
  (rest : list Parsed.BookNote) :
  let notes := WeChatParser.inline title author chapter noteIndex i kind content in
  Spec.numbered "wechat_txt_" (length notes + noteIndex) rest ->
  Spec.numbered "wechat_txt_" noteIndex (notes ++ rest).
Proof.
  cbv zeta. unfold WeChatParser.inline.
  destruct (truthy_str content); cbn [length app Nat.add]; intros H.
  - apply numbered_cons with noteIndex; [reflexivity | lia | exact H].
  - exact H.
Qed.

Lemma text_loop_numbered (lines : list jsstring) (title author : jsstring) :
  forall fuel chapter i noteIndex,
    Spec.numbered "wechat_txt_" noteIndex
      (WeChatParser.text_loop fuel lines title author chapter i noteIndex).
Proof.
  induction fuel as [|fuel IH]; intros chapter i noteIndex;
    cbn [WeChatParser.text_loop]; [apply numbered_nil|].
  destruct (WeChatParser.line_at lines i) as [line|]; [|apply numbered_nil].
  cbv zeta.
  destruct (includes line (lit "章节：")
            || startsWith line (lit "第") && includes line (lit "章")).
  { cbn [app length Nat.add]. apply IH. }
  destruct (includes line (lit "划线：")); [apply inline_numbered, IH|].
  destruct (includes line (lit "想法：")); [apply inline_numbered, IH|].
  destruct (includes line (lit "书签：")); [apply inline_numbered, IH|].
  match goal with
  | |- context [match ?guard with Some _ => _ | None => _ end] => destruct guard
  end.
  - cbn [app length Nat.add].
    apply numbered_cons with noteIndex; [reflexivity | lia | apply IH].
  - cbn [app length Nat.add]. apply IH.
Qed.

Lemma duokan_ids_numbered (input : jsstring) (b : Parsed.ParsedBookData) :
  DuokanParser.parse input = Ok b ->
  exists prefix, Spec.numbered prefix 0 (Parsed.notes b).
Proof.
  unfold DuokanParser.parse, DuokanParser.isValidJSON, DuokanParser.parseJSON,
    DuokanParser.parseXML, DuokanParser.parsePlainText.
  destruct (JSON_parse input) as [data|].
  - intros H. do 4 (bind_inv H). injection H as <-. cbn [Parsed.notes].
    exists "duokan_"%string.
    destruct v; try (injection E0 as <-; apply numbered_nil).
    eapply each_numbered; [apply duokan_json_note_numbered | exact E0].
  - destruct (DuokanParser.isValidXML input).
    + intros H. bind_inv H. injection H as <-. cbn [Parsed.notes].
      exists "duokan_xml_"%string.
      eapply each_numbered; [apply xml_note_numbered | exact E].
    + intros H. injection H as <-. cbn [Parsed.notes].
      exists "duokan_txt_"%string. apply scan_lines_numbered.
Qed.

Lemma wechat_ids_numbered (input : jsstring) (b : Parsed.ParsedBookData) :
  WeChatParser.parse input = Ok b ->
  exists prefix lo, Spec.numbered prefix lo (Parsed.notes b).
Proof.
  unfold WeChatParser.parse, WeChatParser.isValidJSON, WeChatParser.parseJSON,
    WeChatParser.parseWeChatFormat, WeChatParser.parseCSV,
    WeChatParser.parsePlainText.
  destruct (includes input (lit "微信读书") && includes input (lit "想法")).
  { intros H. injection H as <-. cbn [WeChatParser.bundle Parsed.notes].
    exists "wechat_"%string, 0. apply format_loop_numbered. }
  destruct (JSON_parse input) as [data|].
  - intros H. do 4 (bind_inv H). injection H as <-. cbn [Parsed.notes].
    exists "wechat_"%string, 0.
    destruct v; try (injection E0 as <-; apply numbered_nil).
    eapply each_numbered; [apply wechat_json_note_numbered | exact E0].
  - destruct (includes input (lit ",")).
    + destruct (Parsed.nonblank_lines input) as [|first rest]; [discriminate|].
      cbv zeta. intros H. bind_inv H. injection H as <-.
      cbn [WeChatParser.bundle Parsed.notes].
      exists "wechat_csv_"%string. eexists.
      eapply each_numbered; [apply csv_row_numbered | exact E].
    + intros H. injection H as <-. cbn [WeChatParser.bundle Parsed.notes].
      exists "wechat_txt_"%string, 0. apply text_loop_numbered.
Qed.

End IdFacts.

(** X19. The annotations of a bundle that a parser returns have pairwise
    distinct ids, on every path of either parser and whatever the clock
    says: an id carries the index of its annotation, and the indexes of one
    bundle grow. *)
Theorem parsed_ids_are_distinct {rt : Runtime} (input : jsstring)
  (b : Parsed.ParsedBookData) :
  DuokanParser.parse input = Ok b \/ WeChatParser.parse input = Ok b ->
  NoDup (map Parsed.id (Parsed.notes b)).
Proof.
  intros [H|H].
  - destruct (duokan_ids_numbered input H) as [prefix Hn].
    eapply numbered_NoDup; eassumption.
  - destruct (wechat_ids_numbered input H) as [prefix [lo Hn]].
    eapply numbered_NoDup; eassumption.
Qed.

Lemma parsed_ids_are_distinct_witness :
  exists b,
    DuokanParser.parse Examples.json_export = Ok b
    /\ length (Parsed.notes b) = 2
    /\ NoDup (map Parsed.id (Parsed.notes b)).
Proof.
  eexists. split; [vm_compute; reflexivity|]. split; [reflexivity|].
  apply (@parsed_ids_are_distinct example_runtime Examples.json_export).
  left. vm_compute. reflexivity.
Defined.

(** ** The columns of a CSV row *)

Lemma trim_keeps_out (c : N) (s : jsstring) : ~ In c s -> ~ In c (trim s).
Proof.
  intros Hs Hin. apply Hs. destruct (trim_substring s) as [pre [post E]].
  rewrite E. apply in_or_app. right. apply in_or_app. now left.
Qed.

Lemma columns_have_no_quote :
  forall line current inQuotes columns,
    ~ In DQUOTE current ->
    Forall (fun c => ~ In DQUOTE c) columns ->
    Forall (fun c => ~ In DQUOTE c)
      (WeChatParser.columns_of line current inQuotes columns).
Proof.
  induction line as [|char line IH]; intros current inQuotes columns Hcur Hcols;
    cbn [WeChatParser.columns_of].
  - apply Forall_app. split; [exact Hcols|].
    constructor; [now apply trim_keeps_out | constructor].
  - destruct (N.eqb_spec char DQUOTE) as [->|Hchar]; [now apply IH|].
    destruct (N.eqb char COMMA && negb inQuotes).
    + apply IH; [intros [] |].
      apply Forall_app. split; [exact Hcols|].
      constructor; [now apply trim_keeps_out | constructor].
    + apply IH; [|exact Hcols].
      intros Hin. apply in_app_or in Hin as [Hin|[E|[]]]; [now apply Hcur|].
      now apply Hchar.
Qed.

Lemma outer_quotes_absent (s : jsstring) :
  ~ In DQUOTE s -> forall pos, Regex.search WeChatParser.outer_quotes s pos = None.
Proof.
  induction s as [|c s IH]; intros Hs pos.
  - cbn [Regex.search]. unfold Regex.at_pos, WeChatParser.outer_quotes.
    cbn [Regex.run startsWith]. now destruct pos.
  - cbn [Regex.search]. unfold Regex.at_pos at 1, WeChatParser.outer_quotes at 1.
    cbn [Regex.run startsWith].
    destruct (N.eqb_spec DQUOTE c) as [E|_]; [exfalso; apply Hs; now left|].
    cbn [andb]. replace (Regex.orelse _ None) with (@None Regex.Match)
      by (now destruct pos).
    cbn [Regex.orelse]. apply IH. intros Hin. apply Hs. now right.
Qed.

(** X20. The splitter of a CSV row drops every double quote, so no column
    holds one; the replacement that strips a leading and a trailing quote
    from a column therefore never changes it, and reading a column gives the
    column as the splitter left it. *)
Theorem csv_columns_hold_no_quote (line : jsstring) :
  let columns := WeChatParser.columns_of line [] false [] in
  Forall (fun c => ~ In DQUOTE c /\ WeChatParser.unquote c = c) columns
  /\ forall k, WeChatParser.column columns k
               = match nth_error columns k with
                 | Some c => Ok c
                 | None => Throw TypeError
                 end.
Proof.
  cbv zeta.
  assert (H : Forall (fun c => ~ In DQUOTE c /\ WeChatParser.unquote c = c)
                (WeChatParser.columns_of line [] false [])).
  { eapply Forall_impl; [|apply columns_have_no_quote; [intros [] | constructor]].
    intros c Hc. split; [exact Hc|].
    unfold WeChatParser.unquote, Regex.delete_all, Regex.exec_all.
    cbn [Regex.scan]. now rewrite outer_quotes_absent. }
  split; [exact H|].
  intros k. unfold WeChatParser.column.
  destruct (nth_error (WeChatParser.columns_of line [] false []) k) as [c|] eqn:E;
    [|reflexivity].
  apply nth_error_In in E. rewrite Forall_forall in H.
  now rewrite (proj2 (H c E)).
Qed.

Lemma split_is_not_empty (sep : N) (s : jsstring) : split sep s <> [].
Proof.
  destruct (split_shape sep s) as (first & rest & q & -> & _). discriminate.
Qed.

Lemma columns_without_quotes :
  forall line current columns,
    ~ In DQUOTE line ->
    WeChatParser.columns_of line current false columns
    = columns
      ++ match split COMMA line with
         | first :: rest => trim (current ++ first) :: map trim rest
         | [] => []
         end.
Proof.
  induction line as [|char line IH]; intros current columns Hline.
  - cbn [WeChatParser.columns_of split]. now rewrite app_nil_r.
  - cbn [WeChatParser.columns_of split].
    destruct (N.eqb_spec char DQUOTE) as [->|_]; [exfalso; apply Hline; now left|].
    assert (Hrest : ~ In DQUOTE line) by (intros H; apply Hline; now right).
    pose proof (split_is_not_empty COMMA line) as Hsplit.
    destruct (N.eqb char COMMA); cbn [andb negb].
    + rewrite IH by assumption. rewrite app_nil_r, <- app_assoc. cbn [app].
      destruct (split COMMA line) as [|first rest]; [congruence | reflexivity].
    + rewrite IH by assumption.
      destruct (split COMMA line) as [|first rest]; [congruence|].
      now rewrite <- app_assoc.
Qed.

(** X21. On a row without a double quote the quote-aware splitter of the
    rows agrees with the splitter of the header line: the columns are the
    pieces between the commas, trimmed. *)
Theorem csv_row_without_quotes_splits_at_commas (line : jsstring) :
  ~ In DQUOTE line ->
  WeChatParser.columns_of line [] false [] = map trim (split COMMA line).
Proof.
  intros Hline. rewrite columns_without_quotes by assumption.
  pose proof (split_is_not_empty COMMA line) as Hsplit.
  destruct (split COMMA line) as [|first rest]; [congruence | reflexivity].
Qed.

Lemma csv_row_without_quotes_splits_at_commas_witness :
  WeChatParser.columns_of (lit "one, two ,three") [] false []
  = [lit "one"; lit "two"; lit "three"].
Proof.
  rewrite (@csv_row_without_quotes_splits_at_commas (lit "one, two ,three")).
  - reflexivity.
  - vm_compute. intuition discriminate.
Defined.

(** ** [mapNoteType] *)

Section KindFacts.
Context {rt : Runtime}.

Lemma inherited_key (key : jsstring) :
  existsb (str_eqb key) object_prototype_keys = true
  <-> In key object_prototype_keys.
Proof.
  rewrite existsb_exists. split.
  - intros [k [Hk E]]. apply str_eqb_eq in E. now subst.
  - intros H. exists key. split; [exact H | apply str_eqb_refl].
Qed.

Lemma map_type_on_strings (typeMap : list (jsstring * jsstring)) (s : jsstring) :
  Forall (fun kv => Spec.is_kind (VStr (snd kv))
                    /\ ~ In (fst kv) object_prototype_keys) typeMap ->
  (In s object_prototype_keys ->
   Parsed.map_type typeMap (VStr s) = Ok (VInherited s))
  /\ (~ In s object_prototype_keys ->
      exists kind, Parsed.map_type typeMap (VStr s) = Ok kind /\ Spec.is_kind kind)
  /\ (~ In s object_prototype_keys -> ~ In s (map fst typeMap) ->
      Parsed.map_type typeMap (VStr s) = Ok (Parsed.str "highlight")).
Proof.
  intros Hmap. rewrite Forall_forall in Hmap.
  unfold Parsed.map_type, ToPropertyKey. cbn [bind]. cbv zeta.
  destruct (find (fun kv => str_eqb (fst kv) s) typeMap) as [kv|] eqn:E.
  - apply find_some in E as [Hin Hkey]. apply str_eqb_eq in Hkey.
    destruct (Hmap kv Hin) as [Hkind Hproto].
    split; [intros Hs; exfalso; apply Hproto; now rewrite Hkey|].
    split.
    + intros _. eexists. split; [reflexivity|]. unfold Parsed.or_val.
      destruct Hkind as [K|[K|K]]; rewrite K; vm_compute; auto.
    + intros _ Hs. exfalso. apply Hs. rewrite <- Hkey. now apply in_map.
  - split; [|split].
    + intros Hs. apply inherited_key in Hs. now rewrite Hs.
    + intros Hs.
      destruct (existsb (str_eqb s) object_prototype_keys) eqn:Hp;
        [apply inherited_key in Hp; contradiction|].
      eexists. split; [reflexivity|]. now left.
    + intros Hs _.
      destruct (existsb (str_eqb s) object_prototype_keys) eqn:Hp;
        [apply inherited_key in Hp; contradiction|].
      reflexivity.
Qed.

Lemma kinds_by_evaluation (typeMap : list (jsstring * jsstring)) :
  forallb (fun kv =>
             (str_eqb (snd kv) (lit "highlight") || str_eqb (snd kv) (lit "note")
              || str_eqb (snd kv) (lit "bookmark"))
             && negb (existsb (str_eqb (fst kv)) object_prototype_keys))
    typeMap = true ->
  Forall (fun kv => Spec.is_kind (VStr (snd kv))
                    /\ ~ In (fst kv) object_prototype_keys) typeMap.
Proof.
  intros H. rewrite forallb_forall in H. apply Forall_forall. intros kv Hkv.
  apply H in Hkv. apply andb_true_iff in Hkv as [Hkind Hproto].
  split.
  - unfold Spec.is_kind, Parsed.str.
    apply orb_true_iff in Hkind as [Hkind|Hkind];
      [apply orb_true_iff in Hkind as [Hkind|Hkind]|];
      apply str_eqb_eq in Hkind; rewrite Hkind; auto.
  - intros Hin. apply inherited_key in Hin. rewrite Hin in Hproto. discriminate.
Qed.

Lemma typeMaps_hold_kinds :
  Forall (fun kv => Spec.is_kind (VStr (snd kv))
                    /\ ~ In (fst kv) object_prototype_keys) DuokanParser.typeMap
  /\ Forall (fun kv => Spec.is_kind (VStr (snd kv))
                       /\ ~ In (fst kv) object_prototype_keys) WeChatParser.typeMap.
Proof. split; apply kinds_by_evaluation; vm_compute; reflexivity. Qed.

End KindFacts.

(** X22. [mapNoteType] of a string gives one of the three kinds, and
    ['highlight'] for a string that is not a key of the table, unless the
    string names a member that every object literal inherits
    (["constructor"], ["toString"], ...): for such a name the lookup in the
    table finds the inherited member, which is truthy, and [mapNoteType]
    returns it instead of a kind. *)
Theorem mapNoteType_gives_a_kind_except_for_inherited_names
  {rt : Runtime} (type : jsstring) :
  (In type object_prototype_keys ->
   DuokanParser.mapNoteType (VStr type) = Ok (VInherited type)
   /\ WeChatParser.mapNoteType (VStr type) = Ok (VInherited type))
  /\ (~ In type object_prototype_keys ->
      (exists kind, DuokanParser.mapNoteType (VStr type) = Ok kind
                    /\ Spec.is_kind kind)
      /\ (exists kind, WeChatParser.mapNoteType (VStr type) = Ok kind
                       /\ Spec.is_kind kind))
  /\ (~ In type object_prototype_keys ->
      (~ In type (map fst DuokanParser.typeMap) ->
       DuokanParser.mapNoteType (VStr type) = Ok (Parsed.str "highlight"))
      /\ (~ In type (map fst WeChatParser.typeMap) ->
          WeChatParser.mapNoteType (VStr type) = Ok (Parsed.str "highlight"))).
Proof.
  destruct typeMaps_hold_kinds as [Hd Hw].
  destruct (map_type_on_strings type Hd) as (D1 & D2 & D3).
  destruct (map_type_on_strings type Hw) as (W1 & W2 & W3).
  unfold DuokanParser.mapNoteType, WeChatParser.mapNoteType.
  split; [|split]; intros H; split; auto.
Qed.

(** ** The lines that [DuokanParser] keeps *)

Lemma star_some {T} (p : N -> bool) (k : Regex.Cont T) :
  forall s pos caps r,
    Regex.star p k s pos caps = Some r ->
    exists pre post,
      s = pre ++ post /\ Forall (fun c => p c = true) pre
      /\ k post (pos + length pre) caps = Some r.
Proof.
  induction s as [|c s IH]; intros pos caps r H; cbn [Regex.star] in H.
  - exists [], []. cbn [length]. rewrite Nat.add_0_r. auto.
  - destruct (p c) eqn:E.
    + destruct (Regex.star p k s (S pos) caps) as [r'|] eqn:Es; cbn [Regex.orelse] in H.
      * injection H as <-. destruct (IH _ _ _ Es) as (pre & post & -> & Hpre & Hk).
        exists (c :: pre), post. cbn [length app].
        replace (pos + S (length pre)) with (S pos + length pre) by lia. auto.
      * exists [], (c :: s). cbn [length]. rewrite Nat.add_0_r. auto.
    + exists [], (c :: s). cbn [length]. rewrite Nat.add_0_r. auto.
Qed.

Lemma star_to_the_end {T} (p : N -> bool) (k : Regex.Cont T) :
  forall s pos caps,
    Forall (fun c => p c = true) s ->
    k [] (pos + length s) caps <> None ->
    Regex.star p k s pos caps <> None.
Proof.
  induction s as [|c s IH]; intros pos caps Hs Hk; cbn [Regex.star].
  - cbn [length] in Hk. now rewrite Nat.add_0_r in Hk.
  - inversion Hs as [|? ? Hc Hs']; subst. rewrite Hc.
    specialize (IH (S pos) caps Hs').
    cbn [length] in Hk.
    replace (pos + S (length s)) with (S pos + length s) in Hk by lia.
    destruct (Regex.star p k s (S pos) caps); [discriminate | now apply IH in Hk].
Qed.

Lemma anchored_later (r : Regex.re) (s : jsstring) (pos : nat) :
  Regex.search (Regex.Seq Regex.Bol r) s (S pos) = None.
Proof.
  revert pos. induction s as [|c s IH]; intros pos; cbn [Regex.search].
  - reflexivity.
  - unfold Regex.at_pos. cbn [Regex.run Regex.orelse]. apply IH.
Qed.

Lemma anchored_test (r : Regex.re) (s : jsstring) :
  Regex.test (Regex.Seq Regex.Bol r) s
  = match Regex.at_pos (Regex.Seq Regex.Bol r) s 0 with
    | Some _ => true
    | None => false
    end.
Proof.
  unfold Regex.test, Regex.exec. destruct s as [|c s]; cbn [Regex.search].
  - now destruct (Regex.at_pos _ [] 0).
  - rewrite anchored_later. now destruct (Regex.at_pos _ (c :: s) 0).
Qed.

Lemma chapter_heading_starts_a_chapter (line : jsstring) :
  Regex.test DuokanParser.chapter_heading line = true ->
  startsWith line (lit "第") && includes line (lit "章") = true.
Proof.
  unfold DuokanParser.chapter_heading. rewrite anchored_test.
  unfold Regex.at_pos. cbn [Regex.run].
  destruct (startsWith line (lit "第")) eqn:Hstart; [|discriminate].
  destruct (Regex.star _ _ _ _ _) as [m|] eqn:Hstar; [|discriminate].
  intros _. apply star_some in Hstar as (pre & post & Hrest & _ & Hk).
  destruct (startsWith post (lit "章")) eqn:Hpost; [|discriminate].
  apply startsWith_spec in Hpost as [rest ->].
  cbn [andb]. apply includes_spec.
  exists (firstn (length (lit "第")) line ++ pre), rest.
  rewrite <- (firstn_skipn (length (lit "第")) line) at 1.
  rewrite Hrest, <- !app_assoc. reflexivity.
Qed.

Lemma all_digits_is_a_number (line : jsstring) :
  Regex.test DuokanParser.all_digits line
  = match line with [] => false | _ :: _ => forallb is_digit line end.
Proof.
  unfold DuokanParser.all_digits. rewrite anchored_test.
  unfold Regex.at_pos, Regex.plus. cbn [Regex.run].
  destruct line as [|c rest]; [reflexivity|].
  cbn [forallb]. destruct (is_digit c); [|reflexivity]. cbn [andb].
  destruct (forallb is_digit rest) eqn:Hrest.
  - rewrite forallb_forall in Hrest.
    destruct (Regex.star _ _ _ _ _) eqn:Hstar; [reflexivity|].
    exfalso. revert Hstar. apply star_to_the_end.
    + apply Forall_forall. exact Hrest.
    + discriminate.
  - destruct (Regex.star _ _ _ _ _) as [m|] eqn:Hstar; [|reflexivity].
    apply star_some in Hstar as (pre & post & -> & Hpre & Hk).
    destruct post; [|discriminate].
    rewrite app_nil_r in Hrest.
    assert (forallb is_digit pre = true)
      by (apply forallb_forall; rewrite Forall_forall in Hpre; exact Hpre).
    congruence.
Qed.

Lemma is_note_line_direct (line : jsstring) :
  DuokanParser.is_note_line line = Spec.note_line line.
Proof.
  unfold DuokanParser.is_note_line, Spec.note_line.
  rewrite all_digits_is_a_number.
  destruct (includes line (lit "书名")); [now rewrite andb_false_r|].
  destruct (includes line (lit "作者")); [now rewrite !andb_false_r|].
  cbn [orb negb]. rewrite !andb_true_r.
  destruct (startsWith line (lit "第") && includes line (lit "章")) eqn:Hchapter;
    [now rewrite !andb_false_r|].
  assert (Hheading : Regex.test DuokanParser.chapter_heading line = false).
  { destruct (Regex.test DuokanParser.chapter_heading line) eqn:E; [|reflexivity].
    apply chapter_heading_starts_a_chapter in E. congruence. }
  rewrite Hheading. cbn [negb]. rewrite !andb_true_r.
  destruct line as [|c rest]; [reflexivity|].
  destruct (forallb is_digit (c :: rest)); [now rewrite !andb_false_r|].
  reflexivity.
Qed.

Section TextPath.
Context {rt : Runtime}.

Lemma scan_lines_keeps (title author : jsstring) (lines : list jsstring) :
  forall noteIndex,
    let notes := DuokanParser.scan_lines title author noteIndex lines in
    map Parsed.content notes
    = map VStr (filter Spec.note_line (map trim lines))
    /\ map Parsed.position notes
       = map (fun k => VNum (num_of_nat k)) (seq noteIndex (length notes))
    /\ Forall (fun n => Parsed.noteType n = Parsed.str "highlight"
                        /\ Parsed.bookTitle n = VStr title
                        /\ Parsed.bookAuthor n = VStr author
                        /\ Parsed.source n = Parsed.duokan) notes.
Proof.
  induction lines as [|raw rest IH]; intros noteIndex; cbv zeta;
    cbn [DuokanParser.scan_lines map filter].
  - repeat split. constructor.
  - rewrite is_note_line_direct.
    destruct (Spec.note_line (trim raw)).
    + destruct (IH (S noteIndex)) as (Hc & Hp & Hall). cbv zeta in *.
      cbn [map length seq Parsed.content Parsed.position].
      rewrite Hc, Hp. repeat split. constructor; [|exact Hall].
      repeat split.
    + apply IH.
Qed.

End TextPath.

(** X23. When the content is neither JSON nor XML, [DuokanParser.parse]
    returns the trimmed non-blank lines that are longer than five units,
    carry neither a title or author label nor the words of a file header,
    are no chapter heading and no number: each of these lines, in the order
    of the file, is the content of one highlight, and the highlights are
    numbered 0, 1, 2, ... and carry the title and the author of the bundle. *)
Theorem duokan_text_path_keeps_the_note_lines {rt : Runtime} (content : jsstring) :
  JSON_parse content = None ->
  DuokanParser.isValidXML content = false ->
  exists b,
    DuokanParser.parse content = Ok b
    /\ map Parsed.content (Parsed.notes b)
       = map VStr (filter Spec.note_line (map trim (Parsed.nonblank_lines content)))
    /\ map Parsed.position (Parsed.notes b)
       = map (fun k => VNum (num_of_nat k)) (seq 0 (length (Parsed.notes b)))
    /\ Forall (fun n => Parsed.noteType n = Parsed.str "highlight"
                        /\ Parsed.bookTitle n = Parsed.title (Parsed.metadata b)
                        /\ Parsed.bookAuthor n = Parsed.author (Parsed.metadata b)
                        /\ Parsed.source n = Parsed.duokan)
         (Parsed.notes b).
Proof.
  intros Hjson Hxml.
  unfold DuokanParser.parse, DuokanParser.isValidJSON.
  rewrite Hjson, Hxml. unfold DuokanParser.parsePlainText. cbv zeta.
  eexists. split; [reflexivity|]. cbn [Parsed.notes Parsed.metadata
                                       Parsed.title Parsed.author].
  apply scan_lines_keeps.
Qed.

Lemma duokan_text_path_keeps_the_note_lines_witness :
  exists b,
    DuokanParser.parse Examples.duokan_text = Ok b
    /\ map Parsed.content (Parsed.notes b)
       = [Parsed.str "人应当安于自己的本性"; Parsed.str "不要让未来的事困扰你"].
Proof.
  destruct (@duokan_text_path_keeps_the_note_lines example_runtime
              Examples.duokan_text) as (b & Hparse & Hcontent & _).
  - vm_compute. reflexivity.
  - vm_compute. reflexivity.
  - exists b. split; [exact Hparse|]. rewrite Hcontent. vm_compute. reflexivity.
Defined.

(* ===================================================================== *)
(** * How the operations of the notes manager compose *)
(* ===================================================================== *)

Lemma statistics_totals (st : NotesManager.Store) :
  NotesManager.totalNotes (NotesManager.getStatistics st)
  = length (JsMap.keys (NotesManager.notes st))
  /\ NotesManager.totalBooks (NotesManager.getStatistics st)
     = length (JsMap.keys (NotesManager.books st)).
Proof.
  unfold NotesManager.getStatistics.
  match goal with
  | |- context [fold_left ?f ?l ?s0] =>
    destruct (statistics_fold l s0) as (H1 & H2 & _)
  end.
  cbv zeta in *. rewrite H1, H2.
  cbn [NotesManager.totalBooks NotesManager.totalNotes].
  unfold JsMap.size, JsMap.keys. now rewrite !length_map.
Qed.

(** X24. Ingestion is counted in full: after a bundle was stored the
    statistics show one book more and as many notes more as the bundle has
    annotations, whether or not titles or ids had to be suffixed. *)
Theorem ingestion_is_counted_in_full
  (st : NotesManager.Store) (data : Notes.ParsedBookData) :
  exists st',
    NotesManager.storeParsedData st data = Some st'
    /\ NotesManager.totalBooks (NotesManager.getStatistics st')
       = S (NotesManager.totalBooks (NotesManager.getStatistics st))
    /\ NotesManager.totalNotes (NotesManager.getStatistics st')
       = NotesManager.totalNotes (NotesManager.getStatistics st)
         + length (Notes.notes data).
Proof.
  destruct (storeParsedData_flat_index st data)
    as (st' & title & ids & Hstore & _ & _ & Hkeys & _ & Hids & _).
  destruct (storeParsedData_spec st data) as (d & st'' & H). cbv zeta in H.
  destruct H as (Hstore' & _ & _ & Hbooks & _).
  rewrite Hstore in Hstore'. injection Hstore' as <-.
  exists st'. split; [exact Hstore|].
  destruct (statistics_totals st) as [-> ->].
  destruct (statistics_totals st') as [-> ->].
  rewrite Hbooks, Hkeys, !length_app. cbn [length].
  apply Forall2_length in Hids. split; lia.
Qed.

(** X25. A deleted title is free again: after [deleteBook] of a stored
    title, a bundle parsed with that title is stored under the title itself,
    not under a suffixed one. *)
Theorem a_deleted_title_is_free_again
  (st : NotesManager.Store) (data : Notes.ParsedBookData) (book : Notes.ParsedBookData) :
  NotesManager.getBook st (Notes.title (Notes.metadata data)) = Some book ->
  exists st1 st2 stored,
    NotesManager.deleteBook st (Notes.title (Notes.metadata data)) = (st1, true)
    /\ NotesManager.storeParsedData st1 data = Some st2
    /\ NotesManager.getBook st2 (Notes.title (Notes.metadata data)) = Some stored
    /\ Spec.stamped (Notes.title (Notes.metadata data)) stored
    /\ length (Notes.notes stored) = length (Notes.notes data).
Proof.
  intros Hbook. unfold NotesManager.getBook in Hbook.
  set (T := Notes.title (Notes.metadata data)) in *.
  unfold NotesManager.deleteBook. rewrite Hbook.
  eexists.
  destruct (storeParsedData_spec
              {| NotesManager.notes :=
                   fold_left (fun m note => JsMap.delete (Notes.id note) m)
                     (Notes.notes book) (NotesManager.notes st);
                 NotesManager.books := JsMap.delete T (NotesManager.books st) |} data)
    as (d & st2 & H).
  cbv zeta in H. fold T in H. cbn [NotesManager.books] in H.
  destruct H as (Hstore & Hfree & Hleast & _ & _ & stored & Hget & Hst & Hlen).
  assert (d = 0) as ->.
  { destruct d as [|d]; [reflexivity|].
    pose proof (Hleast 0 ltac:(lia)) as E. rewrite candidate_0 in E.
    unfold JsMap.has in E. now rewrite get_delete_same in E. }
  rewrite candidate_0 in *.
  exists st2, stored. split; [reflexivity|]. split; [exact Hstore|].
  split; [exact Hget|]. split; [exact Hst | exact Hlen].
Qed.

Lemma a_deleted_title_is_free_again_witness :
  exists st1 st2 stored,
    NotesManager.deleteBook Examples.holds_X_1 (lit "X_1") = (st1, true)
    /\ NotesManager.storeParsedData st1 (Examples.a_bundle "X_1" []) = Some st2
    /\ NotesManager.getBook st2 (lit "X_1") = Some stored.
Proof.
  destruct (@a_deleted_title_is_free_again Examples.holds_X_1
              (Examples.a_bundle "X_1" []) (Examples.a_bundle "X_1" []) eq_refl)
    as (st1 & st2 & stored & Hdelete & Hstore & Hget & _).
  exists st1, st2, stored. split; [exact Hdelete|]. split; [exact Hstore | exact Hget].
Defined.

Lemma In_get {V} (m : JsMap.t V) (k : jsstring) (v : V) :
  NoDup (JsMap.keys m) -> In (k, v) m -> JsMap.get k m = Some v.
Proof.
  induction m as [|[k0 v0] m IH]; intros Hnodup Hin; [destruct Hin|].
  cbn [JsMap.keys map fst] in Hnodup. apply NoDup_cons_iff in Hnodup as [Hk0 Hm].
  cbn [JsMap.get]. destruct Hin as [E|Hin].
  - injection E as -> ->. now rewrite str_eqb_refl.
  - destruct (str_eqb k0 k) eqn:E.
    + apply str_eqb_eq in E. subst k0. exfalso. apply Hk0.
      apply in_map_iff. now exists (k, v).
    + now apply IH.
Qed.

Lemma values_of_delete {V} (m : JsMap.t V) (k : jsstring) (v : V) :
  In v (JsMap.values (JsMap.delete k m)) -> exists k', k' <> k /\ In (k', v) m.
Proof.
  unfold JsMap.values, JsMap.delete. intros Hin.
  apply in_map_iff in Hin as [[k' v'] [E Hin]]. cbn [snd] in E. subst v'.
  apply filter_In in Hin as [Hin Hk]. cbn [fst] in Hk.
  apply negb_true_iff, str_eqb_neq in Hk. now exists k'.
Qed.

(** X26. A deleted annotation is gone from every later search: in a
    consistent store whose flat index has no key twice, after [deleteNote]
    of a stored id no query finds the annotation that was stored under it,
    and the listing of all notes does not show it. *)
Theorem a_deleted_annotation_is_not_found
  {rt : Runtime} (st : NotesManager.Store) (noteId : jsstring)
  (note : Notes.BookNote) (query : jsstring) :
  Spec.consistent st ->
  NoDup (JsMap.keys (NotesManager.notes st)) ->
  NotesManager.getNoteById st noteId = Some note ->
  exists st',
    NotesManager.deleteNote st noteId = (st', true)
    /\ ~ In note (NotesManager.getAllNotes st')
    /\ ~ In note (NotesManager.searchNotes st' query).
Proof.
  intros [Hflat _] Hnodup Hget. unfold NotesManager.getNoteById in Hget.
  unfold NotesManager.deleteNote. rewrite Hget. eexists. split; [reflexivity|].
  assert (Hgone : ~ In note (JsMap.values
                               (JsMap.delete noteId (NotesManager.notes st)))).
  { intros Hin. apply values_of_delete in Hin as [k [Hne Hin]].
    apply In_get in Hin; [|exact Hnodup].
    destruct (Hflat _ _ Hin) as [Hk _]. destruct (Hflat _ _ Hget) as [Hid _].
    congruence. }
  split; [exact Hgone|].
  unfold NotesManager.searchNotes. cbv zeta. cbn [NotesManager.notes].
  intros Hin. apply filter_In in Hin as [Hin _]. now apply Hgone.
Qed.

Lemma a_deleted_annotation_is_not_found_witness :
  exists st',
    NotesManager.deleteNote Examples.a_store (lit "n1") = (st', true)
    /\ ~ In Examples.js_tips (NotesManager.getAllNotes st')
    /\ ~ In Examples.js_tips (NotesManager.searchNotes st' (lit "javascript")).
Proof.
  apply (@a_deleted_annotation_is_not_found example_runtime Examples.a_store
           (lit "n1") Examples.js_tips (lit "javascript")).
  - exact a_store_consistent.
  - repeat constructor; cbn; intuition discriminate.
  - reflexivity.
Defined.

(* ===================================================================== *)
(** * The source of a parsed annotation *)
(* ===================================================================== *)

Section SourceFacts.
Context {rt : Runtime}.

Lemma marker_block_source lines title author chapter line marked ok kind location c :
  Forall (fun n => Parsed.source n = Parsed.wechat) (WeChatParser.cur_pushed c) ->
  Forall (fun n => Parsed.source n = Parsed.wechat)
    (WeChatParser.cur_pushed
       (WeChatParser.marker_block lines title author chapter line marked ok kind
          location c)).
Proof.
  intros Hc. unfold WeChatParser.marker_block.
  destruct marked; [|assumption].
  destruct (WeChatParser.present _ ok); [|assumption].
  cbn [WeChatParser.cur_pushed]. apply Forall_app. split; [assumption|].
  now repeat constructor.
Qed.

Lemma format_loop_source (lines : list jsstring) (title author : jsstring) :
  forall fuel chapter i noteIndex,
    Forall (fun n => Parsed.source n = Parsed.wechat)
      (WeChatParser.format_loop fuel lines title author chapter i noteIndex).
Proof.
  induction fuel as [|fuel IH]; intros chapter i noteIndex;
    cbn [WeChatParser.format_loop]; [constructor|].
  destruct (WeChatParser.line_at lines i) as [line|]; [|constructor].
  destruct (includes line (lit "章节")
            || includes line (lit "第") && includes line (lit "章")); [apply IH|].
  cbv zeta. apply Forall_app. split; [|apply IH].
  repeat apply marker_block_source. constructor.
Qed.

Lemma inline_source title author chapter noteIndex i kind content :
  Forall (fun n => Parsed.source n = Parsed.wechat)
    (WeChatParser.inline title author chapter noteIndex i kind content).
Proof.
  unfold WeChatParser.inline. destruct (truthy_str content); now repeat constructor.
Qed.

Lemma text_loop_source (lines : list jsstring) (title author : jsstring) :
  forall fuel chapter i noteIndex,
    Forall (fun n => Parsed.source n = Parsed.wechat)
      (WeChatParser.text_loop fuel lines title author chapter i noteIndex).
Proof.
  induction fuel as [|fuel IH]; intros chapter i noteIndex;
    cbn [WeChatParser.text_loop]; [constructor|].
  destruct (WeChatParser.line_at lines i) as [line|]; [|constructor].
  cbv zeta.
  destruct (includes line (lit "章节：")
            || startsWith line (lit "第") && includes line (lit "章")).
  { cbn [app]. apply IH. }
  destruct (includes line (lit "划线："));
    [apply Forall_app; split; [apply inline_source | apply IH]|].
  destruct (includes line (lit "想法："));
    [apply Forall_app; split; [apply inline_source | apply IH]|].
  destruct (includes line (lit "书签："));
    [apply Forall_app; split; [apply inline_source | apply IH]|].
  match goal with
  | |- context [match ?guard with Some _ => _ | None => _ end] => destruct guard
  end.
  - apply Forall_app. split; [now repeat constructor | apply IH].
  - cbn [app]. apply IH.
Qed.

Lemma duokan_json_note_source (data : JsVal) (i : nat) (note : JsVal)
  (out : list Parsed.BookNote) :
  DuokanParser.json_note data i note = Ok out ->
  Forall (fun n => Parsed.source n = Parsed.duokan) out.
Proof.
  unfold DuokanParser.json_note. cbv zeta. intros H.
  do 12 (bind_inv H). injection H as <-. now repeat constructor.
Qed.

Lemma wechat_json_note_source (data : JsVal) (i : nat) (note : JsVal)
  (out : list Parsed.BookNote) :
  WeChatParser.json_note data i note = Ok out ->
  Forall (fun n => Parsed.source n = Parsed.wechat) out.
Proof.
  unfold WeChatParser.json_note. cbv zeta. intros H.
  do 12 (bind_inv H). injection H as <-. now repeat constructor.
Qed.

Lemma xml_note_source (t a : option Regex.Match) (i : nat) (m : Regex.Match)
  (out : list Parsed.BookNote) :
  DuokanParser.xml_note t a i m = Ok out ->
  Forall (fun n => Parsed.source n = Parsed.duokan
                   /\ Parsed.noteType n = Parsed.str "highlight") out.
Proof.
  unfold DuokanParser.xml_note. cbv zeta.
  destruct (Regex.exec (DuokanParser.element "content") (Regex.text m));
    intros H; injection H as <-; now repeat constructor.
Qed.

Lemma csv_row_source (headers : list jsstring) (i : nat) (line : jsstring)
  (out : list Parsed.BookNote) :
  WeChatParser.csv_row headers i line = Ok out ->
  Forall (fun n => Parsed.source n = Parsed.wechat) out.
Proof.
  unfold WeChatParser.csv_row. cbv zeta.
  destruct (2 <=? length (WeChatParser.columns_of line [] false []));
    [|intros H; injection H as <-; constructor].
  intros H. do 3 (bind_inv H).
  destruct (truthy_str v); injection H as <-; now repeat constructor.
Qed.

Lemma duokan_source (input : jsstring) (b : Parsed.ParsedBookData) :
  DuokanParser.parse input = Ok b ->
  Forall (fun n => Parsed.source n = Parsed.duokan) (Parsed.notes b).
Proof.
  unfold DuokanParser.parse, DuokanParser.isValidJSON, DuokanParser.parseJSON,
    DuokanParser.parseXML, DuokanParser.parsePlainText.
  destruct (JSON_parse input) as [data|].
  - intros H. do 4 (bind_inv H). injection H as <-. cbn [Parsed.notes].
    destruct v; try (injection E0 as <-; constructor).
    eapply each_Forall; [|exact E0].
    intros i x l. apply duokan_json_note_source.
  - destruct (DuokanParser.isValidXML input).
    + intros H. bind_inv H. injection H as <-. cbn [Parsed.notes].
      eapply each_Forall; [|exact E].
      intros i x l Hx. apply xml_note_source in Hx.
      eapply Forall_impl; [|exact Hx]. now intros n [Hn _].
    + intros H. injection H as <-. cbn [Parsed.notes].
      destruct (scan_lines_keeps
                  (DuokanParser.labelled "书名" input Parsed.unknown_book)
                  (DuokanParser.labelled "作者" input [])
                  (Parsed.nonblank_lines input) 0) as (_ & _ & Hall).
      eapply Forall_impl; [|exact Hall]. now intros n (_ & _ & _ & Hn).
Qed.

Lemma wechat_source (input : jsstring) (b : Parsed.ParsedBookData) :
  WeChatParser.parse input = Ok b ->
  Forall (fun n => Parsed.source n = Parsed.wechat) (Parsed.notes b).
Proof.
  unfold WeChatParser.parse, WeChatParser.isValidJSON, WeChatParser.parseJSON,
    WeChatParser.parseWeChatFormat, WeChatParser.parseCSV,
    WeChatParser.parsePlainText.
  destruct (includes input (lit "微信读书") && includes input (lit "想法")).
  { intros H. injection H as <-. cbn [WeChatParser.bundle Parsed.notes].
    apply format_loop_source. }
  destruct (JSON_parse input) as [data|].
  - intros H. do 4 (bind_inv H). injection H as <-. cbn [Parsed.notes].
    destruct v; try (injection E0 as <-; constructor).
    eapply each_Forall; [|exact E0].
    intros i x l. apply wechat_json_note_source.
  - destruct (includes input (lit ",")).
    + destruct (Parsed.nonblank_lines input) as [|first rest]; [discriminate|].
      cbv zeta. intros H. bind_inv H. injection H as <-.
      cbn [WeChatParser.bundle Parsed.notes].
      eapply each_Forall; [|exact E].
      intros i x l. apply csv_row_source.
    + intros H. injection H as <-. cbn [WeChatParser.bundle Parsed.notes].
      apply text_loop_source.
Qed.

End SourceFacts.

(** X27. Every annotation carries the source of the parser that built it,
    on each of its paths: ['duokan'] from [DuokanParser], ['wechat'] from
    [WeChatParser].  With auto-detection a JSON export is always read by
    [DuokanParser], so its annotations are counted under ['duokan'] even
    when the file came from WeChat Reading. *)
Theorem parsed_annotations_carry_the_source_of_their_parser
  {rt : Runtime} (input : jsstring) (b : Parsed.ParsedBookData) :
  (DuokanParser.parse input = Ok b ->
   Forall (fun n => Parsed.source n = Parsed.duokan) (Parsed.notes b))
  /\ (WeChatParser.parse input = Ok b ->
      Forall (fun n => Parsed.source n = Parsed.wechat) (Parsed.notes b))
  /\ (JSON_parse input <> None ->
      forall parser,
        NotesManager.getParser NotesManager.initializeParsers input None
        = Some parser ->
        NotesManager.parse parser input = Ok b ->
        Forall (fun n => Parsed.source n = Parsed.duokan) (Parsed.notes b)).
Proof.
  split; [intros H; exact (duokan_source input H)|].
  split; [intros H; exact (wechat_source input H)|].
  intros Hjson parser Hparser Hparse.
  rewrite getParser_detected in Hparser.
  assert (Hvalid : DuokanParser.validate input = true).
  { unfold DuokanParser.validate, DuokanParser.isValidJSON.
    destruct (JSON_parse input); [|congruence]. now rewrite !orb_true_r. }
  rewrite Hvalid in Hparser. injection Hparser as <-.
  exact (duokan_source input Hparse).
Qed.
